(** * BF-Interpreter: the paged BF explorer and the PROGMEM BF runner

    A shallow embedding of the Arduino sketches of the repository:

    - [BF-Explorer.ino], virtual-memory variant: the class [cVirtualMemory]
      (one resident page over an [SdFile], written back when it is evicted),
      the command handlers and the body of [loop];
    - [BF-Explorer.ino], file-access variant (module [FileAccess]): the same
      interpreter reading program and memory through two file positions;
    - [BF-run.ino] (module [BFRun]): the body of [loop] over a program
      string and a fixed array of cells.

    Machine integers are [Z] with their wrap-around written out; bytes are
    [Z] as well.  Arrays and files are lists read with stdpp's lookup and
    updated with stdpp's insert. *)

From Stdlib Require Import ZArith Lia String Ascii.
From stdpp Require Import base list.

Local Open Scope Z_scope.

(** ** Machine integers *)

Definition u8 (z : Z) : Z := z mod 256.
Definition u16 (z : Z) : Z := z mod 65536.
Definition u32 (z : Z) : Z := z mod 4294967296.
(** [int32_t] arithmetic, two's complement. *)
Definition s32 (z : Z) : Z := (z + 2147483648) mod 4294967296 - 2147483648.

(** Reading and writing a byte array at an integer index. *)
Definition zget (l : list Z) (i : Z) : Z := default 0 (l !! Z.to_nat i).
Definition zput (l : list Z) (i : Z) (v : Z) : list Z := <[Z.to_nat i := v]> l.

(** ** SdFile: the part of SdFat's file object the sketch uses

    A file is its bytes and a current position.  [seekSet] fails beyond
    the end of the file and then leaves the position where it was; [read]
    returns the bytes that are there, possibly fewer than asked for;
    [write] overwrites from the current position and lengthens the file
    when it runs past the end. *)

Record SdFile := mkSdFile {
  isOpen : bool;
  contents : list Z;
  curPosition : Z
}.

Definition fileSize (f : SdFile) : Z := Z.of_nat (length (contents f)).

Definition seekSet (f : SdFile) (pos : Z) : SdFile :=
  if isOpen f && (pos <=? fileSize f)
  then mkSdFile (isOpen f) (contents f) pos
  else f.

Definition read (f : SdFile) (n : Z) : list Z * SdFile :=
  if isOpen f then
    let got := take (Z.to_nat n) (drop (Z.to_nat (curPosition f)) (contents f)) in
    (got, mkSdFile (isOpen f) (contents f) (curPosition f + Z.of_nat (length got)))
  else ([], f).

(** The bytes of a file after [buf] has been written at offset [p]. *)
Definition overwrite (l : list Z) (p : nat) (buf : list Z) : list Z :=
  take p l ++ buf ++ drop (p + length buf) l.

Definition write (f : SdFile) (buf : list Z) : SdFile :=
  if isOpen f then
    mkSdFile (isOpen f)
             (overwrite (contents f) (Z.to_nat (curPosition f)) buf)
             (curPosition f + Z.of_nat (length buf))
  else f.

Definition close (f : SdFile) : SdFile :=
  mkSdFile false (contents f) (curPosition f).

(** ** cVirtualMemory *)

Record cVirtualMemory := mkVM {
  _fp : SdFile;
  _fileSize : Z;
  _pageData : list Z;
  _pageBaseAddr : Z;
  _pageSize : Z;
  _pageChanged : bool
}.

Definition isLoaded (m : cVirtualMemory) : bool := isOpen (_fp m).

Definition isInBounds (m : cVirtualMemory) (addr : Z) : bool := addr <=? _fileSize m.

(** [read] fills the front of the buffer with the bytes it got and leaves
    the rest of the buffer as it was. *)
Definition loadPage (m : cVirtualMemory) (addr : Z) : cVirtualMemory :=
  let f1 := seekSet (_fp m) addr in
  let '(got, f2) := read f1 (_pageSize m) in
  mkVM f2 (_fileSize m) (got ++ drop (length got) (_pageData m))
       addr (_pageSize m) false.

Definition savePage (m : cVirtualMemory) (addr : Z) : cVirtualMemory :=
  if _pageChanged m then
    let f1 := seekSet (_fp m) addr in
    let f2 := write f1 (take (Z.to_nat (_pageSize m)) (_pageData m)) in
    mkVM f2 (_fileSize m) (_pageData m) (_pageBaseAddr m) (_pageSize m)
         (_pageChanged m)
  else m.

Definition pageMiss (m : cVirtualMemory) (addr : Z) : bool :=
  (addr <? _pageBaseAddr m) || (u32 (_pageBaseAddr m + _pageSize m) <=? addr).

(** The page swap shared by [get] and [set]. *)
Definition swapIn (m : cVirtualMemory) (addr : Z) : cVirtualMemory :=
  if pageMiss m addr then
    let m1 := savePage m (_pageBaseAddr m) in
    loadPage m1 (u32 (u32 (addr / _pageSize m1) * _pageSize m1))
  else m.

Definition get (m : cVirtualMemory) (addr : Z) : Z * cVirtualMemory :=
  let m1 := swapIn m addr in
  (zget (_pageData m1) (u32 (addr - _pageBaseAddr m1)), m1).

Definition set (m : cVirtualMemory) (addr : Z) (value : Z) : cVirtualMemory :=
  let m1 := swapIn m addr in
  mkVM (_fp m1) (_fileSize m1)
       (zput (_pageData m1) (u32 (addr - _pageBaseAddr m1)) value)
       (_pageBaseAddr m1) (_pageSize m1) true.

(** [begin] on a file found (or not) on the card.  The page buffer is the
    one already held by the object: it is allocated once ([malloc] is
    taken to succeed) and keeps its bytes from one file to the next. *)
Definition begin (m : cVirtualMemory) (found : option (list Z)) : bool * cVirtualMemory :=
  let f0 := if isOpen (_fp m) then close (_fp m) else _fp m in
  let f1 := match found with
            | Some bytes => mkSdFile true bytes 0
            | None => f0
            end in
  let m1 := mkVM f1 (fileSize f1) (_pageData m) (_pageBaseAddr m)
                 (_pageSize m) (_pageChanged m) in
  let m2 := loadPage m1 0 in
  (isOpen (_fp m2), m2).

(** ** The explorer: global data *)

Inductive RunMode := IDLE | RUN | STEP.

#[global] Instance RunMode_eq_dec : EqDecision RunMode.
Proof. solve_decision. Defined.

Definition RunMode_eqb (a b : RunMode) : bool :=
  match a, b with
  | IDLE, IDLE | RUN, RUN | STEP, STEP => true
  | _, _ => false
  end.

(** The line feed, written as backslash-n in the string literals of the
    sketch. *)
Definition LF : ascii := "010"%char.

(** What has been handed to [Serial.print]. *)
Inductive Printed :=
| PStr (s : string)      (* Serial.print(F("...")) and Serial.print(char* ) *)
| PChar (c : Z)          (* Serial.print((char)c) *)
| PNum (n : Z)           (* Serial.print(n) *)
| PHex (n : Z)           (* Serial.print(n, HEX) *)
| PBuf (b : list Z).     (* Serial.print(sz) of a character buffer *)

Definition MEMORY_SIZE : Z := 30000.

(** The command line hands a handler its parameter text; [number] is what
    [strtoul(param, nullptr, 0)] makes of it. *)
Record Param := mkParam { text : string; number : Z }.

Record Explorer := mkExplorer {
  program : cVirtualMemory;
  memory : cVirtualMemory;
  addrIP : Z;                       (* int32_t *)
  addrMP : Z;                       (* int32_t *)
  listRunning : bool;
  runMode : RunMode;
  steps : Z;                        (* uint16_t *)
  card : list (string * list Z);    (* the files of the current folder *)
  serialIn : list Z;                (* bytes still to come on Serial *)
  serialOut : list Printed;
  executed : nat                    (* ghost: times the opcode switch was entered *)
}.

Definition with_program (p : cVirtualMemory) (s : Explorer) : Explorer :=
  mkExplorer p (memory s) (addrIP s) (addrMP s) (listRunning s) (runMode s)
             (steps s) (card s) (serialIn s) (serialOut s) (executed s).
Definition with_memory (m : cVirtualMemory) (s : Explorer) : Explorer :=
  mkExplorer (program s) m (addrIP s) (addrMP s) (listRunning s) (runMode s)
             (steps s) (card s) (serialIn s) (serialOut s) (executed s).
Definition with_addrIP (a : Z) (s : Explorer) : Explorer :=
  mkExplorer (program s) (memory s) a (addrMP s) (listRunning s) (runMode s)
             (steps s) (card s) (serialIn s) (serialOut s) (executed s).
Definition with_addrMP (a : Z) (s : Explorer) : Explorer :=
  mkExplorer (program s) (memory s) (addrIP s) a (listRunning s) (runMode s)
             (steps s) (card s) (serialIn s) (serialOut s) (executed s).
Definition with_listRunning (b : bool) (s : Explorer) : Explorer :=
  mkExplorer (program s) (memory s) (addrIP s) (addrMP s) b (runMode s)
             (steps s) (card s) (serialIn s) (serialOut s) (executed s).
Definition with_runMode (r : RunMode) (s : Explorer) : Explorer :=
  mkExplorer (program s) (memory s) (addrIP s) (addrMP s) (listRunning s) r
             (steps s) (card s) (serialIn s) (serialOut s) (executed s).
Definition with_steps (n : Z) (s : Explorer) : Explorer :=
  mkExplorer (program s) (memory s) (addrIP s) (addrMP s) (listRunning s) (runMode s)
             n (card s) (serialIn s) (serialOut s) (executed s).
Definition with_serialIn (i : list Z) (s : Explorer) : Explorer :=
  mkExplorer (program s) (memory s) (addrIP s) (addrMP s) (listRunning s) (runMode s)
             (steps s) (card s) i (serialOut s) (executed s).
Definition with_serialOut (o : list Printed) (s : Explorer) : Explorer :=
  mkExplorer (program s) (memory s) (addrIP s) (addrMP s) (listRunning s) (runMode s)
             (steps s) (card s) (serialIn s) o (executed s).
Definition with_executed (n : nat) (s : Explorer) : Explorer :=
  mkExplorer (program s) (memory s) (addrIP s) (addrMP s) (listRunning s) (runMode s)
             (steps s) (card s) (serialIn s) (serialOut s) n.

Definition print (x : Printed) (s : Explorer) : Explorer :=
  with_serialOut (serialOut s ++ [x]) s.

Definition setIdle (s : Explorer) : Explorer :=
  print (PStr (String LF ". ")) (with_runMode IDLE s).

(** [for (i = 0; i < MEMORY_SIZE; i++) memory.set(i, 0)], [n] cells from [i] on. *)
Fixpoint clearCells (n : nat) (i : Z) (m : cVirtualMemory) : cVirtualMemory :=
  match n with
  | O => m
  | S n' => clearCells n' (u32 (i + 1)) (set m i 0)
  end.

Definition clearMemory (s : Explorer) : Explorer :=
  print (PStr (String LF "Memory cleared."))
        (with_memory (clearCells (Z.to_nat MEMORY_SIZE) 0 (memory s)) s).

Fixpoint openOnCard (files : list (string * list Z)) (name : string) : option (list Z) :=
  match files with
  | [] => None
  | (n, bytes) :: rest => if String.eqb n name then Some bytes else openOnCard rest name
  end.

(** ** The explorer: command handlers *)

(** [*param == 0] is [text param] being empty. *)
Definition handlerS (param : Param) (s : Explorer) : Explorer :=
  let s := print (PStr (text param)) (print (PStr "step ") s) in
  let s := with_runMode STEP s in
  if String.eqb (text param) ""%string
  then with_steps 1 s
  else with_steps (u16 (number param)) s.

Definition handlerL (param : Param) (s : Explorer) : Explorer :=
  let s := print (PStr "'") (print (PStr (text param)) (print (PStr "load '") s)) in
  let s :=
    match runMode s with
    | IDLE =>
        let '(ok, p) := begin (program s) (openOnCard (card s) (text param)) in
        let s := with_program p s in
        if ok
        then with_addrIP 0 (with_addrMP 0 (clearMemory s))
        else print (PStr (String LF "!File not found")) s
    | _ => s
    end in
  setIdle s.

Definition handlerR (s : Explorer) : Explorer :=
  match runMode s with
  | IDLE =>
      let s := print (PStr "run") s in
      if negb (isLoaded (program s))
      then print (PStr "!No program loaded") s
      else print (PStr (String LF "")) (with_runMode RUN s)
  | _ => s
  end.

Definition handlerP (s : Explorer) : Explorer :=
  match runMode s with
  | RUN => setIdle s
  | _ => with_runMode RUN s
  end.

Definition handlerT (s : Explorer) : Explorer :=
  let s := print (PStr "trace ") s in
  let s := with_listRunning (negb (listRunning s)) s in
  let s := print (PStr (if listRunning s then "on" else "off")) s in
  match runMode s with
  | IDLE => setIdle s
  | _ => s
  end.

Definition ch (c : ascii) : Z := Z.of_N (N_of_ascii c).

Definition htoa (n : Z) : Z :=
  if n <? 10 then u8 (n + ch "0")
  else if (10 <=? n) && (n <=? 15) then u8 (ch "a" + n - 10)
  else ch "?".

Definition DUMP_SIZE : Z := 8.

(** First loop of [handlerD]: [n] further rounds writing two hex digits at
    [pos] and skipping one place; [pos] is a [uint8_t]. *)
Fixpoint dumpHex (n : nat) (addr : Z) (m : cVirtualMemory) (sz : list Z) (pos : Z)
  : cVirtualMemory * list Z * Z :=
  match n with
  | O => (m, sz, pos)
  | S n' =>
      let '(b, m1) := get m (u32 (addr + 1)) in
      let sz1 := zput sz pos (htoa (Z.shiftr b 4)) in
      let pos1 := u8 (pos + 1) in
      let sz2 := zput sz1 pos1 (htoa (Z.land b 15)) in
      let pos2 := u8 (pos1 + 1) in
      dumpHex n' addr m1 sz2 (u8 (pos2 + 1))
  end.

(** Second loop of [handlerD]: the ASCII column. *)
Fixpoint dumpAscii (n : nat) (addr : Z) (m : cVirtualMemory) (sz : list Z) (pos : Z)
  : cVirtualMemory * list Z * Z :=
  match n with
  | O => (m, sz, pos)
  | S n' =>
      let '(b, m1) := get m (u32 (addr + 1)) in
      let sz1 := zput sz pos (if b <=? 10 then ch "." else b) in
      dumpAscii n' addr m1 sz1 (u8 (pos + 1))
  end.

(** The buffer [sz] as [handlerD] leaves it, and the paged memory after
    the reads. *)
Definition dumpLine (addr : Z) (m : cVirtualMemory) : list Z * cVirtualMemory :=
  let size := Z.to_nat (DUMP_SIZE * 3 + 2 + DUMP_SIZE + 1) in
  let sz := <[(size - 1)%nat := 0]> (replicate size (ch " ")) in
  let '(m1, sz1, pos1) := dumpHex (Z.to_nat DUMP_SIZE) addr m sz 0 in
  let '(m2, sz2, _) := dumpAscii (Z.to_nat DUMP_SIZE) addr m1 sz1 (u8 (pos1 + 2)) in
  (sz2, m2).

Definition handlerD (param : Param) (s : Explorer) : Explorer :=
  let addr := u32 (number param) in
  let s := print (PNum addr) (print (PStr "dump ") s) in
  let '(sz, m) := dumpLine addr (memory s) in
  let s := with_memory m s in
  setIdle (print (PBuf sz) (print (PStr (String LF "")) s)).

(** ** The explorer: one pass of [loop] *)

(** Forward scan of [case '[']: [while (count)] with at most [fuel] rounds.
    The result is [None] when the rounds do not suffice. *)
Fixpoint scanForward (fuel : nat) (count : Z) (s : Explorer) : option Explorer :=
  if count =? 0 then Some s else
  match fuel with
  | O => None
  | S fuel' =>
      let s := with_addrIP (s32 (addrIP s + 1)) s in
      if negb (isInBounds (program s) (u32 (addrIP s))) then
        Some (setIdle (print (PStr "!Instruction pointer past end of file") s))
      else
        let '(opcode, p) := get (program s) (u32 (addrIP s)) in
        let s := with_program p s in
        let count := if opcode =? ch "[" then u16 (count + 1) else count in
        let count := if opcode =? ch "]" then u16 (count - 1) else count in
        scanForward fuel' count s
  end.

(** Backward scan of [case ']']. *)
Fixpoint scanBackward (fuel : nat) (count : Z) (s : Explorer) : option Explorer :=
  if count =? 0 then Some s else
  match fuel with
  | O => None
  | S fuel' =>
      let s := with_addrIP (s32 (addrIP s - 1)) s in
      if negb (isInBounds (program s) (u32 (addrIP s))) then
        Some (setIdle (print (PStr "!Instruction pointer before start") s))
      else
        let '(opcode, p) := get (program s) (u32 (addrIP s)) in
        let s := with_program p s in
        let count := if opcode =? ch "]" then u16 (count + 1) else count in
        let count := if opcode =? ch "[" then u16 (count - 1) else count in
        scanBackward fuel' count s
  end.

(** Either scan leaves the in-bounds addresses after at most
    [_fileSize + 2] rounds. *)
Definition scanFuel (s : Explorer) : nat := Z.to_nat (_fileSize (program s) + 2).

Definition caseOpen (mem : Z) (s : Explorer) : option (Z * Explorer) :=
  if mem =? 0
  then s' ← scanForward (scanFuel s) 1 s; Some (mem, s')
  else Some (mem, s).

Definition caseClose (mem : Z) (s : Explorer) : option (Z * Explorer) :=
  if mem =? 0
  then Some (mem, s)
  else s' ← scanBackward (scanFuel s) 1 s; Some (mem, s').

(** [getChar] waits for a byte: with nothing left to come it never returns. *)
Definition getChar (s : Explorer) : option (Z * Explorer) :=
  match serialIn s with
  | [] => None
  | c :: rest => Some (u8 c, with_serialIn rest s)
  end.

(** The [switch (opcode)]; the result carries the local [mem].  The case
    for [','] has no [break] and runs on into the case for ['[']. *)
Definition dispatch (opcode mem : Z) (s : Explorer) : option (Z * Explorer) :=
  if opcode =? ch ">" then Some (mem, with_addrMP (s32 (addrMP s + 1)) s)
  else if opcode =? ch "<" then Some (mem, with_addrMP (s32 (addrMP s - 1)) s)
  else if opcode =? ch "+" then
    let mem := u8 (mem + 1) in
    Some (mem, with_memory (set (memory s) (u32 (addrMP s)) mem) s)
  else if opcode =? ch "-" then
    let mem := u8 (mem - 1) in
    Some (mem, with_memory (set (memory s) (u32 (addrMP s)) mem) s)
  else if opcode =? ch "." then Some (mem, print (PChar mem) s)
  else if opcode =? ch "," then
    '(mem, s) ← getChar s;
    caseOpen mem (with_memory (set (memory s) (u32 (addrMP s)) mem) s)
  else if opcode =? ch "[" then caseOpen mem s
  else if opcode =? ch "]" then caseClose mem s
  else Some (mem, s).

Definition traceBefore (opcode mem : Z) (s : Explorer) : Explorer :=
  if listRunning s then
    print (PStr "'") (print (PChar mem) (print (PStr " '") (print (PHex mem)
    (print (PStr "):0x") (print (PNum (addrMP s)) (print (PStr " M(")
    (print (PChar opcode) (print (PStr ") ") (print (PNum (addrIP s))
    (print (PStr (String LF "P(")) s))))))))))
  else s.

Definition traceAfter (mem : Z) (s : Explorer) : Explorer :=
  if listRunning s then
    print (PStr "'") (print (PChar mem) (print (PStr " '") (print (PHex mem)
    (print (PStr "-> 0x") s))))
  else s.

(** The block guarded by [runMode == RUN || runMode == STEP]. *)
Definition execute (opcode mem : Z) (s : Explorer) : option Explorer :=
  let s := traceBefore opcode mem s in
  '(mem, s) ← dispatch opcode mem (with_executed (S (executed s)) s);
  let s := with_addrIP (s32 (addrIP s + 1)) s in
  Some (traceAfter mem s).

(** The block guarded by [runMode == STEP]. *)
Definition countdown (s : Explorer) : Explorer :=
  match runMode s with
  | STEP =>
      let s := with_steps (u16 (steps s - 1)) s in
      if steps s =? 0 then setIdle s else s
  | _ => s
  end.

(** Fetch, bounds check and execution: [loop] up to the step countdown. *)
Definition interpret (s : Explorer) : option Explorer :=
  let '(mem, m) := get (memory s) (u32 (addrMP s)) in
  let '(opcode, p) := get (program s) (u32 (addrIP s)) in
  let s := with_program p (with_memory m s) in
  let s := if isInBounds (program s) (u32 (addrIP s)) then s else setIdle s in
  match runMode s with
  | IDLE => Some s
  | _ => execute opcode mem s
  end.

(** The body of [loop] after [CP.run()], whose commands are the handlers
    above.  [None]: the pass does not come to an end ([getChar] waiting
    for ever, or a scan that does not stop). *)
Definition loop (s : Explorer) : option Explorer :=
  match runMode s with
  | IDLE => Some s
  | _ => s' ← interpret s; Some (countdown s')
  end.

Fixpoint loops (n : nat) (s : Explorer) : option Explorer :=
  match n with
  | O => Some s
  | S n' => s' ← loop s; loops n' s'
  end.

(** ** The explorer, file-access variant

    The second sketch of [BF-Explorer.ino] keeps no page: it reads the
    program and the memory through the position of two files. *)

Module FileAccess.

(** [peek]: the byte at the current position, -1 at the end of the file
    and on a closed file; the position stays. *)
Definition peek (f : SdFile) : Z :=
  if isOpen f then default (-1) (contents f !! Z.to_nat (curPosition f)) else -1.

Definition rewind (f : SdFile) : SdFile := seekSet f 0.

Record State := mkState {
  fileProg : SdFile;
  fileMem : SdFile;
  addrIP : Z;                       (* int32_t *)
  addrMP : Z;                       (* int32_t *)
  listRunning : bool;
  runMode : RunMode;
  steps : Z;                        (* uint16_t *)
  card : list (string * list Z);
  serialIn : list Z;
  serialOut : list Printed
}.

Definition with_fileProg (f : SdFile) (s : State) : State :=
  mkState f (fileMem s) (addrIP s) (addrMP s) (listRunning s) (runMode s)
          (steps s) (card s) (serialIn s) (serialOut s).
Definition with_fileMem (f : SdFile) (s : State) : State :=
  mkState (fileProg s) f (addrIP s) (addrMP s) (listRunning s) (runMode s)
          (steps s) (card s) (serialIn s) (serialOut s).
Definition with_addrIP (a : Z) (s : State) : State :=
  mkState (fileProg s) (fileMem s) a (addrMP s) (listRunning s) (runMode s)
          (steps s) (card s) (serialIn s) (serialOut s).
Definition with_addrMP (a : Z) (s : State) : State :=
  mkState (fileProg s) (fileMem s) (addrIP s) a (listRunning s) (runMode s)
          (steps s) (card s) (serialIn s) (serialOut s).
Definition with_runMode (r : RunMode) (s : State) : State :=
  mkState (fileProg s) (fileMem s) (addrIP s) (addrMP s) (listRunning s) r
          (steps s) (card s) (serialIn s) (serialOut s).
Definition with_steps (n : Z) (s : State) : State :=
  mkState (fileProg s) (fileMem s) (addrIP s) (addrMP s) (listRunning s) (runMode s)
          n (card s) (serialIn s) (serialOut s).
Definition with_serialIn (i : list Z) (s : State) : State :=
  mkState (fileProg s) (fileMem s) (addrIP s) (addrMP s) (listRunning s) (runMode s)
          (steps s) (card s) i (serialOut s).

Definition print (x : Printed) (s : State) : State :=
  mkState (fileProg s) (fileMem s) (addrIP s) (addrMP s) (listRunning s) (runMode s)
          (steps s) (card s) (serialIn s) (serialOut s ++ [x]).

Definition setIdle (s : State) : State :=
  print (PStr (String LF ". ")) (with_runMode IDLE s).

(** [for (i = 0; i < MEMORY_SIZE; i++) fileMem.write((uint8_t)0)] *)
Fixpoint writeZeros (n : nat) (f : SdFile) : SdFile :=
  match n with
  | O => f
  | S n' => writeZeros n' (write f [0])
  end.

Definition initializeMemory (s : State) : State :=
  let f := rewind (writeZeros (Z.to_nat MEMORY_SIZE) (rewind (fileMem s))) in
  with_addrMP 0 (with_fileMem f s).

Definition handlerL (param : Param) (s : State) : State :=
  let s := print (PStr "'") (print (PStr (text param)) (print (PStr "load '") s)) in
  let s :=
    match runMode s with
    | IDLE =>
        let f := if isOpen (fileProg s) then close (fileProg s) else fileProg s in
        match openOnCard (card s) (text param) with
        | Some data => with_fileProg (mkSdFile true data 0) s
        | None => print (PStr (String LF "!File not found")) (with_fileProg f s)
        end
    | _ => s
    end in
  setIdle s.

(** [initializeMemory] always returns true. *)
Definition handlerR (s : State) : State :=
  let s := print (PStr "run") s in
  match runMode s with
  | IDLE =>
      if negb (isOpen (fileProg s))
      then print (PStr "!No program loaded") s
      else
        let s := initializeMemory s in
        let s := with_fileProg (rewind (fileProg s)) s in
        print (PStr (String LF "")) (with_runMode RUN (with_addrIP 0 s))
  | _ => s
  end.

Fixpoint scanForward (fuel : nat) (count : Z) (s : State) : option State :=
  if count =? 0 then Some s else
  match fuel with
  | O => None
  | S fuel' =>
      let s := with_addrIP (s32 (addrIP s + 1)) s in
      if MEMORY_SIZE <=? addrIP s then
        Some (setIdle (print (PStr "!Memory address exceeded") s))
      else
        let s := with_fileProg (seekSet (fileProg s) (u32 (addrIP s))) s in
        let opcode := peek (fileProg s) in
        let count := if opcode =? ch "[" then u16 (count + 1) else count in
        let count := if opcode =? ch "]" then u16 (count - 1) else count in
        scanForward fuel' count s
  end.

Fixpoint scanBackward (fuel : nat) (count : Z) (s : State) : option State :=
  if count =? 0 then Some s else
  match fuel with
  | O => None
  | S fuel' =>
      let s := with_addrIP (s32 (addrIP s - 1)) s in
      if addrIP s <? 0 then
        Some (setIdle (print (PStr "!Memory address before start") s))
      else
        let s := with_fileProg (seekSet (fileProg s) (u32 (addrIP s))) s in
        let opcode := peek (fileProg s) in
        let count := if opcode =? ch "]" then u16 (count + 1) else count in
        let count := if opcode =? ch "[" then u16 (count - 1) else count in
        scanBackward fuel' count s
  end.

(** The forward scan stops at [MEMORY_SIZE] at the latest, the backward
    scan below 0. *)
Definition fuelForward (s : State) : nat := S (Z.to_nat (MEMORY_SIZE - addrIP s)).
Definition fuelBackward (s : State) : nat := S (S (Z.to_nat (addrIP s))).

Definition caseOpen (mem : Z) (s : State) : option (Z * State) :=
  if mem =? 0
  then s' ← scanForward (fuelForward s) 1 s; Some (mem, s')
  else Some (mem, s).

Definition caseClose (mem : Z) (s : State) : option (Z * State) :=
  if mem =? 0
  then Some (mem, s)
  else s' ← scanBackward (fuelBackward s) 1 s; Some (mem, s').

Definition getChar (s : State) : option (Z * State) :=
  match serialIn s with
  | [] => None
  | c :: rest => Some (u8 c, with_serialIn rest s)
  end.

(** Here too the case for [','] runs on into the case for ['[']. *)
Definition dispatch (opcode mem : Z) (s : State) : option (Z * State) :=
  if opcode =? ch ">" then Some (mem, with_addrMP (s32 (addrMP s + 1)) s)
  else if opcode =? ch "<" then Some (mem, with_addrMP (s32 (addrMP s - 1)) s)
  else if opcode =? ch "+" then
    let mem := u8 (mem + 1) in
    Some (mem, with_fileMem (write (fileMem s) [mem]) s)
  else if opcode =? ch "-" then
    let mem := u8 (mem - 1) in
    Some (mem, with_fileMem (write (fileMem s) [mem]) s)
  else if opcode =? ch "." then Some (mem, print (PChar mem) s)
  else if opcode =? ch "," then
    '(mem, s) ← getChar s;
    caseOpen mem (with_fileMem (write (fileMem s) [mem]) s)
  else if opcode =? ch "[" then caseOpen mem s
  else if opcode =? ch "]" then caseClose mem s
  else Some (mem, s).

Definition traceBefore (opcode mem : Z) (s : State) : State :=
  if listRunning s then
    print (PStr "'") (print (PChar mem) (print (PStr " '") (print (PHex mem)
    (print (PStr "):0x") (print (PNum (addrMP s)) (print (PStr " M(")
    (print (PChar opcode) (print (PStr ") ") (print (PNum (addrIP s))
    (print (PStr (String LF "P(")) s))))))))))
  else s.

Definition traceAfter (mem : Z) (s : State) : State :=
  if listRunning s then
    print (PStr "'") (print (PChar mem) (print (PStr " '") (print (PHex mem)
    (print (PStr "-> 0x") s))))
  else s.

Definition execute (opcode mem : Z) (s : State) : option State :=
  let s := traceBefore opcode mem s in
  '(mem, s) ← dispatch opcode mem s;
  let s := with_addrIP (s32 (addrIP s + 1)) s in
  let s := with_fileMem (seekSet (fileMem s) (u32 (addrMP s))) s in
  let s := with_fileProg (seekSet (fileProg s) (u32 (addrIP s))) s in
  Some (traceAfter mem s).

Definition countdown (s : State) : State :=
  match runMode s with
  | STEP =>
      let s := with_steps (u16 (steps s - 1)) s in
      if steps s =? 0 then setIdle s else s
  | _ => s
  end.

Definition loop (s : State) : option State :=
  match runMode s with
  | IDLE => Some s
  | _ =>
      let mem := u8 (peek (fileMem s)) in
      let opcode := peek (fileProg s) in
      let s := if opcode =? -1 then setIdle s else s in
      s' ← match runMode s with
           | IDLE => Some s
           | _ => execute opcode mem s
           end;
      Some (countdown s')
  end.

Fixpoint loops (n : nat) (s : State) : option State :=
  match n with
  | O => Some s
  | S n' => s' ← loop s; loops n' s'
  end.

(** The sketch as [setup] leaves it: the memory file created and zeroed,
    no program file open. *)
Definition booted (files : list (string * list Z)) : State :=
  initializeMemory
    (mkState (mkSdFile false [] 0) (mkSdFile true [] 0) 0 0 false IDLE 0
             files [] []).

(** The sketch in the middle of a run on the given files. *)
Definition running (prog mem : list Z) : State :=
  mkState (mkSdFile true prog 0) (mkSdFile true mem 0) 0 0 false RUN 0 [] [] [].

End FileAccess.

(** ** BF-run: the interpreter over a program string in PROGMEM *)

Module BFRun.

Definition MEM_SIZE : Z := 400.

Record State := mkState {
  ip : Z;                  (* uint16_t: instruction offset *)
  cells : list Z;          (* uint8_t memory[MEM_SIZE] *)
  mp : Z;                  (* the memory pointer, as an index into [cells] *)
  input : list Z;          (* bytes still to come on Serial *)
  output : list Z          (* bytes printed *)
}.

Definition with_ip (i : Z) (s : State) : State :=
  mkState i (cells s) (mp s) (input s) (output s).
Definition with_mp (p : Z) (s : State) : State :=
  mkState (ip s) (cells s) p (input s) (output s).

(** [*mp]: defined inside the array only. *)
Definition deref (s : State) : option Z :=
  if (0 <=? mp s) && (mp s <? MEM_SIZE) then cells s !! Z.to_nat (mp s) else None.

Definition assign (v : Z) (s : State) : option State :=
  if (0 <=? mp s) && (mp s <? MEM_SIZE) && (mp s <? Z.of_nat (length (cells s)))
  then Some (mkState (ip s) (zput (cells s) (mp s) v) (mp s) (input s) (output s))
  else None.

Section Program.

(** The characters of the string literal [program]; the array ends with
    the terminating NUL. *)
Variable program : list Z.

(** [pgm_read_byte(program + i)]: defined inside the array only. *)
Definition pgm_read_byte (i : Z) : option Z := (program ++ [0]) !! Z.to_nat i.

Fixpoint scanForward (fuel : nat) (count : Z) (i : Z) : option Z :=
  if count =? 0 then Some i else
  match fuel with
  | O => None
  | S fuel' =>
      let i := u16 (i + 1) in
      b ← pgm_read_byte i;
      let count := if b =? ch "[" then u16 (count + 1) else count in
      let count := if b =? ch "]" then u16 (count - 1) else count in
      scanForward fuel' count i
  end.

Fixpoint scanBackward (fuel : nat) (count : Z) (i : Z) : option Z :=
  if count =? 0 then Some i else
  match fuel with
  | O => None
  | S fuel' =>
      let i := u16 (i - 1) in
      b ← pgm_read_byte i;
      let count := if b =? ch "]" then u16 (count + 1) else count in
      let count := if b =? ch "[" then u16 (count - 1) else count in
      scanBackward fuel' count i
  end.

(** A scan that stays inside the array ends within this many rounds. *)
Definition scanFuel : nat := S (S (length program)).

Definition getChar (s : State) : option (Z * State) :=
  match input s with
  | [] => None
  | c :: rest => Some (u8 c, mkState (ip s) (cells s) (mp s) rest (output s))
  end.

Definition dispatch (opcode : Z) (s : State) : option State :=
  if opcode =? ch ">" then Some (with_mp (mp s + 1) s)
  else if opcode =? ch "<" then Some (with_mp (mp s - 1) s)
  else if opcode =? ch "+" then v ← deref s; assign (u8 (v + 1)) s
  else if opcode =? ch "-" then v ← deref s; assign (u8 (v - 1)) s
  else if opcode =? ch "." then
    v ← deref s;
    Some (mkState (ip s) (cells s) (mp s) (input s) (output s ++ [v]))
  else if opcode =? ch "," then '(c, s) ← getChar s; assign c s
  else if opcode =? ch "[" then
    v ← deref s;
    if v =? 0
    then i ← scanForward scanFuel 1 (ip s); Some (with_ip i s)
    else Some s
  else if opcode =? ch "]" then
    v ← deref s;
    if v =? 0
    then Some s
    else i ← scanBackward scanFuel 1 (ip s); Some (with_ip i s)
  else Some s.

(** The body of [loop].  [None]: a read or write outside an array, a
    [getChar] that waits for ever, or a scan that does not stop. *)
Definition loop (s : State) : option State :=
  opcode ← pgm_read_byte (ip s);
  s' ← dispatch opcode s;
  Some (if opcode =? 0 then s' else with_ip (u16 (ip s' + 1)) s').

Fixpoint loops (n : nat) (s : State) : option State :=
  match n with
  | O => Some s
  | S n' => s' ← loop s; loops n' s'
  end.

End Program.

Definition start : State := mkState 0 (replicate (Z.to_nat MEM_SIZE) 0) 0 [] [].

End BFRun.

(** ** Bracket structure of a program text *)

(** [nested d l]: the brackets of [l] are balanced and nest at most [d]
    deep; other characters are free. *)
Inductive nested : nat → list Z → Prop :=
| nested_nil d : nested d []
| nested_char d c l :
    c ≠ ch "[" → c ≠ ch "]" → nested d l → nested d (c :: l)
| nested_loop d l1 l2 :
    nested d l1 → nested (S d) l2 →
    nested (S d) (ch "[" :: l1 ++ ch "]" :: l2).

Definition balanced (l : list Z) : Prop := ∃ d, nested d l.

(** The characters of a string as bytes. *)
Fixpoint bytes (s : string) : list Z :=
  match s with
  | EmptyString => []
  | String c rest => ch c :: bytes rest
  end.

(** ** The logical contents of a paged memory *)

(** What the memory holds address by address: the file, with the resident
    page laid over it while that page has unsaved writes. *)
Definition view (m : cVirtualMemory) : list Z :=
  if _pageChanged m
  then overwrite (contents (_fp m)) (Z.to_nat (_pageBaseAddr m)) (_pageData m)
  else contents (_fp m).

(** The state of a memory between two calls, once [begin] has succeeded. *)
Record wf (m : cVirtualMemory) : Prop := mkWf {
  wf_open : isOpen (_fp m) = true;
  wf_pageSize : 0 < _pageSize m < 65536;
  wf_buffer : Z.of_nat (length (_pageData m)) = _pageSize m;
  wf_base : 0 ≤ _pageBaseAddr m ≤ Z.of_nat (length (contents (_fp m)));
  wf_fileSize : 0 ≤ _fileSize m ≤ Z.of_nat (length (contents (_fp m)));
  wf_u32 : _fileSize m < 4294967296;
  wf_clean : _pageChanged m = false →
             ∀ i : nat, Z.of_nat i < _pageSize m →
               (Z.to_nat (_pageBaseAddr m) + i < length (contents (_fp m)))%nat →
               _pageData m !! i = contents (_fp m) !! (Z.to_nat (_pageBaseAddr m) + i)%nat
}.

(** A sequence of accesses to one memory. *)
Inductive access := DoGet (addr : Z) | DoSet (addr : Z) (value : Z).

Definition perform (m : cVirtualMemory) (a : access) : cVirtualMemory :=
  match a with
  | DoGet addr => snd (get m addr)
  | DoSet addr value => set m addr value
  end.

Definition within (m : cVirtualMemory) (addr : Z) : Prop :=
  0 ≤ addr ∧ isInBounds m addr = true.

(** The accesses of [ops] one after the other. *)
Definition performAll (m : cVirtualMemory) (ops : list access) : cVirtualMemory :=
  foldl perform m ops.

(** An access that stays inside the store and does not write [addr]. *)
Definition leaves (m : cVirtualMemory) (addr : Z) (a : access) : Prop :=
  match a with
  | DoGet b => within m b
  | DoSet b _ => within m b ∧ b ≠ addr
  end.

(** A memory object before its [begin]: closed file, a buffer of [ps]
    bytes [junk]. *)
Definition unopened (ps : Z) (junk : list Z) : cVirtualMemory :=
  mkVM (mkSdFile false [] 0) 0 junk 0 ps false.

(** The byte [loop] finds in the current cell, and the opcode it fetches. *)
Definition cell (s : Explorer) : Z := fst (get (memory s) (u32 (addrMP s))).
Definition fetched (s : Explorer) : Z := fst (get (program s) (u32 (addrIP s))).

(** The explorer as [loop] has it after the two fetches. *)
Definition afterFetch (s : Explorer) : Explorer :=
  with_program (snd (get (program s) (u32 (addrIP s))))
               (with_memory (snd (get (memory s) (u32 (addrMP s)))) s).

(** An explorer whose program and memory objects have been begun on the
    given files, with both pointers at 0. *)
Definition explorerOn (prog mem : list Z) (mode : RunMode) : Explorer :=
  mkExplorer (snd (begin (unopened 200 (replicate 200 0)) (Some prog)))
             (snd (begin (unopened 100 (replicate 100 0)) (Some mem)))
             0 0 false mode 0 [] [] [] 0.

(** A dump line all of whose eight places show the one byte [b]: eight
    times two hex digits and a blank, two blanks, eight times the
    character, and the closing NUL. *)
Definition oneByteLine (b : Z) : list Z :=
  concat (replicate 8 [htoa (Z.shiftr b 4); htoa (Z.land b 15); ch " "])
  ++ [ch " "; ch " "]
  ++ replicate 8 (if b <=? 10 then ch "." else b)
  ++ [0].

(** The sixteen hexadecimal digits, lower case. *)
Definition hexDigits : list Z := bytes "0123456789abcdef".

(** The digit that stands for [n]. *)
Definition hexDigit (n : Z) : Z := zget hexDigits n.

(** The line a dump is to print when all its eight places show the byte
    [b]: eight times the two hexadecimal digits of [b] and a blank, two
    blanks, eight times the character ([.] for a byte up to 10), and the
    closing NUL. *)
Definition shownLine (b : Z) : list Z :=
  concat (replicate 8 [hexDigit (b / 16); hexDigit (b mod 16); ch " "])
  ++ [ch " "; ch " "]
  ++ replicate 8 (if b <=? 10 then ch "." else b)
  ++ [0].

(** The two loops of [handlerD] on a buffer alone, once the byte is known. *)
Fixpoint hexInto (n : nat) (hi lo : Z) (sz : list Z) (pos : Z) : list Z * Z :=
  match n with
  | O => (sz, pos)
  | S n' => hexInto n' hi lo (zput (zput sz pos hi) (u8 (pos + 1)) lo)
                    (u8 (u8 (u8 (pos + 1) + 1) + 1))
  end.

Fixpoint asciiInto (n : nat) (c : Z) (sz : list Z) (pos : Z) : list Z * Z :=
  match n with
  | O => (sz, pos)
  | S n' => asciiInto n' c (zput sz pos c) (u8 (pos + 1))
  end.

(** The page of [addr] is the resident one. *)
Definition resident (m : cVirtualMemory) (addr : Z) : Prop :=
  _pageBaseAddr m ≤ addr < _pageBaseAddr m + _pageSize m.

(** The buffer of [m] is allocated and the page of [addr] ends below
    2^32, so that the end of the page is not wrapped by [get] and [set]. *)
Definition pageFits (m : cVirtualMemory) (addr : Z) : Prop :=
  0 < _pageSize m < 65536 ∧
  Z.of_nat (length (_pageData m)) = _pageSize m ∧
  0 ≤ _pageBaseAddr m < 4294967296 ∧
  0 ≤ addr < 4294967296 ∧
  addr / _pageSize m * _pageSize m + _pageSize m < 4294967296.

(** The data pointer is on a cell of the memory file, or on an address
    whose page [get] and [set] can hold. *)
Definition holdsCell (m : cVirtualMemory) (addr : Z) : Prop :=
  (wf m ∧ within m addr) ∨ pageFits m addr.

(** The explorer as [setup] leaves it: no program loaded, the memory
    object begun on the zero-filled memory file, run mode IDLE. *)
Definition booted (files : list (string * list Z)) : Explorer :=
  mkExplorer (unopened 200 (replicate 200 0))
             (snd (begin (unopened 100 (replicate 100 0))
                         (Some (replicate (Z.to_nat MEMORY_SIZE) 0))))
             0 0 false IDLE 0 files [] [] 0.

(** The explorer some way into a session: a program loaded, every cell
    of the memory holding 9, both pointers moved. *)
Definition inSession (files : list (string * list Z)) (mode : RunMode) : Explorer :=
  mkExplorer (snd (begin (unopened 200 (replicate 200 0)) (Some (bytes "-[>-]"))))
             (snd (begin (unopened 100 (replicate 100 0))
                         (Some (replicate (Z.to_nat MEMORY_SIZE) 9))))
             3 7 false mode 0 files [] [] 0.

(** During the next [n] passes the interpreter executes an instruction
    each time and does not idle by itself: the instruction pointer is in
    bounds and no bracket scan leaves the program. *)
Fixpoint uninterrupted (n : nat) (s : Explorer) : bool :=
  match n with
  | O => true
  | S n' =>
      match interpret s with
      | Some s1 => RunMode_eqb (runMode s1) STEP && uninterrupted n' (countdown s1)
      | None => false
      end
  end.

(** The explorer without its trace flag and without what it has printed. *)
Definition quiet (s : Explorer) : Explorer :=
  with_serialOut [] (with_listRunning false s).

(** [quiet] on the explorer that comes back from the opcode switch. *)
Definition quiet2 (r : Z * Explorer) : Z * Explorer := (fst r, quiet (snd r)).

(** The counter of a scan after it has looked at the byte [b]: [up] is the
    bracket that opens a level for this scan, [down] the one that closes it. *)
Definition bump (up down b count : Z) : Z :=
  let count := if b =? up then u16 (count + 1) else count in
  if b =? down then u16 (count - 1) else count.

(** The program object holds the text [prog], of less than 2^31 bytes. *)
Definition progHolds (prog : list Z) (s : Explorer) : Prop :=
  wf (program s) ∧ view (program s) = prog ∧
  _fileSize (program s) = Z.of_nat (length prog) ∧
  Z.of_nat (length prog) < 2147483648.

(** ** The explorer: [createMemory] and [setup] *)

Definition MEM_FILENAME : string := "MEMORY.DAT".

(** [createMemory]: [opened] is what [fp.open(MEM_FILENAME, O_RDWR | O_CREAT)]
    gives, the bytes of the file (none when it is new) or nothing when the
    open fails.  The file goes back to the card when it is closed. *)
Definition createMemory (opened : option (list Z)) (s : Explorer) : bool * Explorer :=
  match opened with
  | Some data =>
      let fp := FileAccess.writeZeros (Z.to_nat MEMORY_SIZE) (mkSdFile true data 0) in
      let fp := close fp in
      (true, mkExplorer (program s) (memory s) (addrIP s) (addrMP s) (listRunning s)
               (runMode s) (steps s) ((MEM_FILENAME, contents fp) :: card s)
               (serialIn s) (serialOut s) (executed s))
  | None => (false, print (PStr (String LF "!Memory create failed")) s)
  end.

(** [handlerHelp]: [help] is what [CP.help()] prints. *)
Definition handlerHelp (help : list Printed) (s : Explorer) : Explorer :=
  setIdle (with_serialOut (serialOut s ++ help) s).

(** The explorer at power-on: the two memory objects constructed with
    their page sizes, everything else zero.  [junkP] and [junkM] are the
    bytes of the page buffers as [malloc] hands them out. *)
Definition powerOn (files : list (string * list Z)) (junkP junkM : list Z) : Explorer :=
  mkExplorer (unopened 200 junkP) (unopened 100 junkM)
             0 0 false IDLE 0 files [] [] 0.

(** [setup].  [sdBegin] is the result of [SD.begin]: when it fails the
    sketch prints its message and spins for ever.  [creatable] tells
    whether the memory file can be opened for writing. *)
Definition setup (sdBegin creatable : bool) (help : list Printed) (s : Explorer)
  : option Explorer :=
  let s := print (PStr (String LF "[BF Explorer]")) s in
  let s := print (PStr (String LF ("Set serial monitor line ending to LF."
                                   ++ String LF ""))) s in
  if sdBegin then
    let s := handlerHelp help s in
    let opened := if creatable
                  then Some (default [] (openOnCard (card s) MEM_FILENAME))
                  else None in
    let '(_, s) := createMemory opened s in
    let '(_, m) := begin (memory s) (openOnCard (card s) MEM_FILENAME) in
    Some (setIdle (with_memory m s))
  else None.

(** ** What the further properties speak of *)

(** What can be seen of the explorer from outside: pointers, run mode,
    step count, pending input, output, and what the two stores hold. *)
Definition observe (s : Explorer)
  : Z * Z * RunMode * Z * list Z * list Printed * list Z * list Z :=
  (addrIP s, addrMP s, runMode s, steps s, serialIn s, serialOut s,
   view (memory s), view (program s)).

(** The explorer in the middle of a run: both stores begun, the data
    pointer on a cell of the memory file, the instruction pointer on an
    address that counts as in bounds. *)
Definition midRun (s : Explorer) : Prop :=
  wf (program s) ∧ wf (memory s) ∧
  u32 (addrMP s) < _fileSize (memory s) ∧
  isInBounds (program s) (u32 (addrIP s)) = true.

(** The program object is clean and its file holds [c]. *)
Definition programKept (c : list Z) (s : Explorer) : Prop :=
  _pageChanged (program s) = false ∧ contents (_fp (program s)) = c.

(** One of the eight command characters. *)
Definition isCommand (c : Z) : bool :=
  (c =? ch ">") || (c =? ch "<") || (c =? ch "+") || (c =? ch "-") ||
  (c =? ch ".") || (c =? ch ",") || (c =? ch "[") || (c =? ch "]").

(** How a scan has ended, whichever way it went. *)
Definition landed (s s1 : Explorer) : Prop :=
  (isInBounds (program s1) (u32 (addrIP s1)) = true ∧
   runMode s1 = runMode s ∧ serialOut s1 = serialOut s) ∨
  (isInBounds (program s1) (u32 (addrIP s1)) = false ∧ runMode s1 = IDLE ∧
   (serialOut s1 = serialOut s ++ [PStr "!Instruction pointer past end of file";
                                   PStr (String LF ". ")] ∨
    serialOut s1 = serialOut s ++ [PStr "!Instruction pointer before start";
                                   PStr (String LF ". ")])).

(** The value of a hexadecimal digit character. *)
Definition hexValue (c : Z) : Z :=
  if (ch "0" <=? c) && (c <=? ch "9") then c - ch "0" else c - ch "a" + 10.

(** One of the characters 0-9, a-f. *)
Definition isHexDigit (c : Z) : bool :=
  ((ch "0" <=? c) && (c <=? ch "9")) || ((ch "a" <=? c) && (c <=? ch "f")).

(** The two file positions stand where the two pointers point, inside
    the files. *)
Definition synced (s : FileAccess.State) : Prop :=
  isOpen (FileAccess.fileProg s) = true ∧ isOpen (FileAccess.fileMem s) = true ∧
  curPosition (FileAccess.fileProg s) = FileAccess.addrIP s ∧
  curPosition (FileAccess.fileMem s) = FileAccess.addrMP s ∧
  0 ≤ FileAccess.addrIP s ≤ fileSize (FileAccess.fileProg s) ∧
  fileSize (FileAccess.fileProg s) < 2147483647 ∧
  0 ≤ FileAccess.addrMP s < fileSize (FileAccess.fileMem s) ∧
  fileSize (FileAccess.fileMem s) < 2147483647.

(** The explorer and BF-run in the same situation: at the same place of
    the same program text, with the same data pointer, the same bytes in
    the cells of BF-run's array, the same input to come, and the same
    characters printed so far. *)
Definition agree (prog : list Z) (s : Explorer) (st : BFRun.State) : Prop :=
  progHolds prog s ∧ wf (memory s) ∧ BFRun.MEM_SIZE ≤ _fileSize (memory s) ∧
  runMode s = RUN ∧ listRunning s = false ∧
  addrIP s = BFRun.ip st ∧ addrMP s = BFRun.mp st ∧
  Z.of_nat (length (BFRun.cells st)) = BFRun.MEM_SIZE ∧
  (∀ a : nat, Z.of_nat a < BFRun.MEM_SIZE →
     view (memory s) !! a = BFRun.cells st !! a) ∧
  serialIn s = BFRun.input st ∧
  serialOut s = PChar <$> BFRun.output st.

(** BF-run about to run an instruction it can run: inside its program,
    not on a NUL, its pointer inside the array, and a byte other than NUL
    waiting where the instruction reads one. *)
Definition canStep (prog : list Z) (st : BFRun.State) : Prop :=
  0 ≤ BFRun.ip st ∧ 0 ≤ BFRun.mp st < BFRun.MEM_SIZE ∧
  ∃ b, prog !! Z.to_nat (BFRun.ip st) = Some b ∧ b ≠ 0 ∧
       (b = ch "," → ∃ c rest, BFRun.input st = c :: rest ∧ u8 c ≠ 0).

(* ================================================================== *)
(** * Properties *)

(** ** Integers *)

Lemma u32_small z : 0 ≤ z < 4294967296 → u32 z = z.
Proof. intros. unfold u32. apply Z.mod_small. lia. Qed.

Lemma u16_small z : 0 ≤ z < 65536 → u16 z = z.
Proof. intros. unfold u16. apply Z.mod_small. lia. Qed.

Lemma s32_small z : -2147483648 ≤ z < 2147483648 → s32 z = z.
Proof. intros. unfold s32. rewrite Z.mod_small; lia. Qed.

Lemma u32_le z : 0 ≤ z → 0 ≤ u32 z ≤ z.
Proof.
  intros. unfold u32. split; [apply Z.mod_pos_bound; lia|].
  apply Z.mod_le; lia.
Qed.

(** ** Files *)

Lemma overwrite_length l p buf :
  (p ≤ length l)%nat →
  length (overwrite l p buf) = (length l `max` (p + length buf))%nat.
Proof.
  intros. unfold overwrite.
  rewrite !length_app, length_take, length_drop. lia.
Qed.

Lemma overwrite_lookup_lt l p buf i :
  (i < p ≤ length l)%nat → overwrite l p buf !! i = l !! i.
Proof.
  intros. unfold overwrite.
  rewrite lookup_app_l by (rewrite length_take; lia).
  apply lookup_take_lt. lia.
Qed.

Lemma overwrite_lookup_in l p buf i :
  (p ≤ length l)%nat → (p ≤ i < p + length buf)%nat →
  overwrite l p buf !! i = buf !! (i - p)%nat.
Proof.
  intros. unfold overwrite.
  rewrite lookup_app_r by (rewrite length_take; lia).
  rewrite length_take, Nat.min_l by lia.
  apply lookup_app_l. lia.
Qed.

Lemma overwrite_lookup_ge l p buf i :
  (p ≤ length l)%nat → (p + length buf ≤ i)%nat →
  overwrite l p buf !! i = l !! i.
Proof.
  intros. unfold overwrite.
  rewrite lookup_app_r by (rewrite length_take; lia).
  rewrite length_take, Nat.min_l by lia.
  rewrite lookup_app_r by lia.
  rewrite lookup_drop. f_equal. lia.
Qed.

(** ** Paging *)

Lemma within_range m addr :
  wf m → within m addr → 0 ≤ addr ≤ _fileSize m ∧ addr < 4294967296.
Proof.
  intros Hwf [H0 Hb]. unfold isInBounds in Hb.
  apply Z.leb_le in Hb. pose proof (wf_u32 m Hwf). lia.
Qed.

Lemma pageBase_range addr ps :
  0 ≤ addr < 4294967296 → 0 < ps →
  let base := u32 (u32 (addr / ps) * ps) in
  0 ≤ base ≤ addr ∧ addr < base + ps.
Proof.
  intros Ha Hps.
  assert (Hq : 0 ≤ addr / ps ≤ addr).
  { split; [apply Z.div_pos; lia|]. apply Z.div_le_upper_bound; nia. }
  pose proof (Z.mul_div_le addr ps Hps).
  pose proof (Z.mul_succ_div_gt addr ps Hps).
  cbn zeta. rewrite (u32_small (addr / ps)) by lia.
  rewrite u32_small by lia. lia.
Qed.

(** Saving puts the logical contents into the file. *)
Lemma savePage_spec m :
  wf m →
  let m' := savePage m (_pageBaseAddr m) in
  isOpen (_fp m') = true ∧ contents (_fp m') = view m ∧
  _pageData m' = _pageData m ∧ _pageSize m' = _pageSize m ∧
  _fileSize m' = _fileSize m.
Proof.
  intros Hwf. destruct Hwf as [Ho Hps Hbuf Hbase Hfs Hu Hcl].
  unfold savePage, view. destruct (_pageChanged m); [|by cbn].
  unfold seekSet, write, fileSize. rewrite Ho. cbn [andb].
  destruct (Z.leb_spec (_pageBaseAddr m) (Z.of_nat (length (contents (_fp m)))));
    [|lia].
  cbn. rewrite take_ge by lia. done.
Qed.

(** Loading makes the buffer agree with the file on the page. *)
Lemma loadPage_spec m addr :
  isOpen (_fp m) = true → 0 < _pageSize m →
  Z.of_nat (length (_pageData m)) = _pageSize m →
  0 ≤ addr ≤ Z.of_nat (length (contents (_fp m))) →
  let m' := loadPage m addr in
  isOpen (_fp m') = true ∧ contents (_fp m') = contents (_fp m) ∧
  Z.of_nat (length (_pageData m')) = _pageSize m ∧
  _pageBaseAddr m' = addr ∧ _pageSize m' = _pageSize m ∧
  _fileSize m' = _fileSize m ∧ _pageChanged m' = false ∧
  (∀ i : nat, Z.of_nat i < _pageSize m →
     (Z.to_nat addr + i < length (contents (_fp m)))%nat →
     _pageData m' !! i = contents (_fp m) !! (Z.to_nat addr + i)%nat).
Proof.
  intros Ho Hps Hbuf Haddr. unfold loadPage, seekSet, read, fileSize.
  rewrite Ho. cbn [andb].
  destruct (Z.leb_spec addr (Z.of_nat (length (contents (_fp m))))); [|lia].
  cbn. repeat split; try done.
  - rewrite length_app, length_drop, length_take, length_drop. lia.
  - intros i Hi Hlt.
    rewrite lookup_app_l by (rewrite length_take, length_drop; lia).
    rewrite lookup_take_lt by lia. by rewrite lookup_drop.
Qed.

(** After the swap the page of [addr] is resident, and the memory holds
    what it held. *)
Lemma swapIn_spec m addr :
  wf m → within m addr →
  let m' := swapIn m addr in
  wf m' ∧ view m' = view m ∧ _fileSize m' = _fileSize m ∧
  _pageSize m' = _pageSize m ∧
  _pageBaseAddr m' ≤ addr < _pageBaseAddr m' + _pageSize m'.
Proof.
  intros Hwf Hin. destruct (within_range m addr Hwf Hin) as [Ha Hlt].
  unfold swapIn. destruct (pageMiss m addr) eqn:Hmiss; cbn zeta.
  - destruct (savePage_spec m Hwf) as (Ho & Hc & Hd & Hp & Hf).
    set (m1 := savePage m (_pageBaseAddr m)) in *.
    pose proof (wf_pageSize m Hwf) as Hps.
    pose proof (wf_fileSize m Hwf) as Hfs.
    pose proof (wf_buffer m Hwf) as Hbuf.
    assert (Hlen : (length (contents (_fp m)) ≤ length (view m))%nat).
    { unfold view. destruct (_pageChanged m); [|lia].
      pose proof (wf_base m Hwf). rewrite overwrite_length; lia. }
    rewrite Hp.
    destruct (pageBase_range addr (_pageSize m)) as [Hb1 Hb2]; [lia..|].
    set (base := u32 (u32 (addr / _pageSize m) * _pageSize m)) in *.
    destruct (loadPage_spec m1 base) as (Ho' & Hc' & Hl' & Hb' & Hp' & Hf' & Hch' & Hag');
      [done | lia | by rewrite Hd, Hp | rewrite Hc; lia |].
    set (m2 := loadPage m1 base) in *.
    assert (Hview : view m2 = view m) by (unfold view; rewrite Hch', Hc'; done).
    split; [|rewrite Hb', Hp', Hf', Hp; repeat split; (done || lia)].
    constructor.
    + done.
    + by rewrite Hp', Hp.
    + by rewrite Hl', Hp'.
    + rewrite Hb', Hc', Hc. lia.
    + rewrite Hf', Hf, Hc', Hc. lia.
    + rewrite Hf', Hf. apply (wf_u32 m Hwf).
    + intros _ i Hi Hlti. rewrite Hb', Hc' in *. rewrite Hp' in Hi.
      by apply Hag'.
  - unfold pageMiss in Hmiss. apply orb_false_elim in Hmiss as [H1 H2].
    apply Z.ltb_ge in H1. apply Z.leb_gt in H2.
    pose proof (wf_pageSize m Hwf). pose proof (wf_base m Hwf).
    assert (0 ≤ u32 (_pageBaseAddr m + _pageSize m)
            ≤ _pageBaseAddr m + _pageSize m) by (apply u32_le; lia).
    split_and!; (done || lia).
Qed.

Lemma view_outside m (j : nat) :
  wf m →
  (j < Z.to_nat (_pageBaseAddr m) ∨
   Z.to_nat (_pageBaseAddr m) + length (_pageData m) ≤ j)%nat →
  view m !! j = contents (_fp m) !! j.
Proof.
  intros Hwf Hj. pose proof (wf_base m Hwf). unfold view.
  destruct (_pageChanged m); [|done].
  destruct Hj; [apply overwrite_lookup_lt | apply overwrite_lookup_ge]; lia.
Qed.

Lemma view_inside m (j : nat) :
  wf m →
  (Z.to_nat (_pageBaseAddr m) ≤ j < Z.to_nat (_pageBaseAddr m) + length (_pageData m))%nat →
  (j < length (view m))%nat →
  view m !! j = _pageData m !! (j - Z.to_nat (_pageBaseAddr m))%nat.
Proof.
  intros Hwf Hj Hlen. pose proof (wf_base m Hwf). pose proof (wf_buffer m Hwf).
  unfold view in *. destruct (_pageChanged m) eqn:Hch.
  - apply overwrite_lookup_in; lia.
  - rewrite (wf_clean m Hwf Hch (j - Z.to_nat (_pageBaseAddr m))%nat) by lia.
    f_equal. lia.
Qed.

Lemma view_length m :
  wf m → (length (contents (_fp m)) ≤ length (view m))%nat.
Proof.
  intros Hwf. pose proof (wf_base m Hwf). unfold view.
  destruct (_pageChanged m); [|lia]. rewrite overwrite_length; lia.
Qed.

(** [get] returns the byte the memory holds at [addr] and changes nothing
    of what the memory holds. *)
Lemma get_spec m addr :
  wf m → within m addr →
  wf (snd (get m addr)) ∧ view (snd (get m addr)) = view m ∧
  _fileSize (snd (get m addr)) = _fileSize m ∧
  _pageSize (snd (get m addr)) = _pageSize m ∧
  (∀ b, view m !! Z.to_nat addr = Some b → fst (get m addr) = b).
Proof.
  intros Hwf Hin.
  destruct (swapIn_spec m addr Hwf Hin) as (Hwf' & Hv & Hf & Hp & Hr).
  unfold get. cbn [fst snd]. split_and!; try done.
  intros b Hb. set (m' := swapIn m addr) in *.
  pose proof (wf_pageSize m' Hwf'). pose proof (wf_base m' Hwf').
  pose proof (wf_buffer m' Hwf').
  rewrite <- Hv in Hb. pose proof (lookup_lt_Some _ _ _ Hb).
  rewrite view_inside in Hb by (done || lia).
  unfold zget. rewrite u32_small by lia.
  replace (Z.to_nat (addr - _pageBaseAddr m'))
    with (Z.to_nat addr - Z.to_nat (_pageBaseAddr m'))%nat by lia.
  by rewrite Hb.
Qed.

(** [set] makes the memory hold [value] at [addr] and leaves every other
    address as it was. *)
Lemma set_spec m addr value :
  wf m → within m addr →
  wf (set m addr value) ∧
  _fileSize (set m addr value) = _fileSize m ∧
  _pageSize (set m addr value) = _pageSize m ∧
  view (set m addr value) !! Z.to_nat addr = Some value ∧
  (∀ (j : nat) b, j ≠ Z.to_nat addr →
     view m !! j = Some b → view (set m addr value) !! j = Some b).
Proof.
  intros Hwf Hin.
  destruct (swapIn_spec m addr Hwf Hin) as (Hwf' & Hv & Hf & Hp & Hr).
  unfold set. set (m' := swapIn m addr) in *.
  pose proof (wf_pageSize m' Hwf') as Hps. pose proof (wf_base m' Hwf') as Hbase.
  pose proof (wf_buffer m' Hwf') as Hbuf.
  assert (Hidx : Z.to_nat (u32 (addr - _pageBaseAddr m'))
                 = (Z.to_nat addr - Z.to_nat (_pageBaseAddr m'))%nat)
    by (rewrite u32_small; lia).
  split_and!; try done.
  - destruct Hwf'. constructor; cbn; try done.
    unfold zput. by rewrite length_insert.
  - unfold view. cbn. unfold zput. rewrite Hidx.
    rewrite overwrite_lookup_in by (rewrite ?length_insert; lia).
    apply list_lookup_insert_eq. lia.
  - intros j b Hj Hb. rewrite <- Hv in Hb.
    pose proof (lookup_lt_Some _ _ _ Hb) as Hlt.
    unfold view at 1. cbn. unfold zput. rewrite Hidx.
    destruct (decide (Z.to_nat (_pageBaseAddr m') ≤ j
                      < Z.to_nat (_pageBaseAddr m') + length (_pageData m'))%nat)
      as [Hinside|Hout].
    + rewrite overwrite_lookup_in by (rewrite ?length_insert; lia).
      rewrite list_lookup_insert_ne by lia.
      by rewrite <- view_inside.
    + rewrite <- Hb, view_outside by (done || lia).
      destruct (decide (j < Z.to_nat (_pageBaseAddr m'))%nat).
      * apply overwrite_lookup_lt. lia.
      * apply overwrite_lookup_ge; rewrite ?length_insert; lia.
Qed.

Lemma begin_wf m data :
  0 < _pageSize m < 65536 →
  Z.of_nat (length (_pageData m)) = _pageSize m →
  Z.of_nat (length data) < 4294967296 →
  wf (snd (begin m (Some data))) ∧
  _fileSize (snd (begin m (Some data))) = Z.of_nat (length data) ∧
  view (snd (begin m (Some data))) = data ∧
  _pageSize (snd (begin m (Some data))) = _pageSize m ∧
  fst (begin m (Some data)) = true.
Proof.
  intros Hps Hbuf Hlen. unfold begin. cbn [fst snd].
  set (m1 := mkVM _ _ _ _ _ _).
  destruct (loadPage_spec m1 0) as (Ho & Hc & Hl & Hb & Hp & Hf & Hch & Hag);
    [done | cbn; lia | done | cbn; lia |].
  split_and!; try done.
  - constructor; rewrite ?Hp, ?Hb, ?Hc, ?Hf; cbn; unfold fileSize; cbn;
      try (done || lia).
  - unfold view. by rewrite Hch, Hc.
Qed.

Lemma perform_spec m addr a :
  wf m → 0 ≤ addr → leaves m addr a →
  wf (perform m a) ∧ _fileSize (perform m a) = _fileSize m ∧
  (∀ b, view m !! Z.to_nat addr = Some b →
        view (perform m a) !! Z.to_nat addr = Some b).
Proof.
  intros Hwf Haddr Ha. destruct a as [b|b w]; cbn [perform leaves] in *.
  - destruct (get_spec m b Hwf Ha) as (? & Hv & ? & ? & _).
    split_and!; try done. by rewrite Hv.
  - destruct Ha as [Hb Hne].
    destruct (set_spec m b w Hwf Hb) as (? & ? & ? & _ & Hother).
    split_and!; try done. intros c Hc.
    destruct Hb as [Hb0 _]. apply Hother; [lia | done].
Qed.

(** C2. Read after write on a paged memory: for every address within the
    store and every byte, [set] followed by [get] at that address returns
    the byte, whatever in-bounds accesses to other cells (reads anywhere,
    writes elsewhere, page evictions included) come in between. *)
Theorem set_get_across_evictions m addr value ops :
  wf m → within m addr → Forall (leaves m addr) ops →
  fst (get (performAll (set m addr value) ops) addr) = value.
Proof.
  intros Hwf Hin Hops.
  destruct (set_spec m addr value Hwf Hin) as (Hwf1 & Hf1 & _ & Hv1 & _).
  assert (Hinv : wf (performAll (set m addr value) ops) ∧
                 _fileSize (performAll (set m addr value) ops) = _fileSize m ∧
                 view (performAll (set m addr value) ops) !! Z.to_nat addr
                 = Some value).
  { unfold performAll. revert Hwf1 Hf1 Hv1.
    generalize (set m addr value) as m1.
    induction Hops as [|a ops Ha Hops IH]; intros m1 Hwf1 Hf1 Hv1; [done|].
    cbn [foldl].
    assert (Ha' : leaves m1 addr a).
    { destruct a; unfold leaves, within, isInBounds in *; by rewrite Hf1. }
    destruct (perform_spec m1 addr a Hwf1 (proj1 Hin) Ha') as (Hwf2 & Hf2 & Hv2).
    apply IH; [done | congruence | by apply Hv2]. }
  destruct Hinv as (Hwf2 & Hf2 & Hv2).
  apply get_spec; [done | | done].
  unfold within, isInBounds in *. by rewrite Hf2.
Qed.

Lemma set_get_across_evictions_witness :
  fst (get (performAll
              (set (snd (begin (unopened 100 (replicate 100 0))
                               (Some (replicate 250 7)))) 249 42)
              [DoGet 0; DoSet 120 9; DoGet 249; DoSet 250 1; DoGet 30])
           249) = 42.
Proof.
  destruct (begin_wf (unopened 100 (replicate 100 0)) (replicate 250 7))
    as (Hwf & _); [cbn; lia | reflexivity | cbn; lia |].
  apply set_get_across_evictions.
  - exact Hwf.
  - split; [lia | reflexivity].
  - repeat constructor; cbn; lia.
Defined.

(** C4. [isInBounds(addr)] holds exactly when [addr <= _fileSize]; the
    address equal to the size of the store is in bounds. *)
Theorem isInBounds_inclusive m addr :
  (isInBounds m addr = true ↔ addr ≤ _fileSize m) ∧
  isInBounds m (_fileSize m) = true.
Proof.
  unfold isInBounds. split; [apply Z.leb_le | apply Z.leb_refl].
Qed.

(** ** The pass of [loop], case by case *)

Lemma swapIn_fileSize m addr : _fileSize (swapIn m addr) = _fileSize m.
Proof.
  unfold swapIn. destruct (pageMiss m addr); [|done].
  unfold loadPage, savePage. destruct (_pageChanged m); cbn.
  - by destruct (read _ _).
  - by destruct (read _ _).
Qed.

Lemma get_fileSize m addr : _fileSize (snd (get m addr)) = _fileSize m.
Proof. apply swapIn_fileSize. Qed.

Lemma set_fileSize m addr v : _fileSize (set m addr v) = _fileSize m.
Proof. apply swapIn_fileSize. Qed.

Ltac fields :=
  cbn [program memory addrIP addrMP listRunning runMode steps card serialIn
       serialOut executed with_program with_memory with_addrIP with_addrMP
       with_listRunning with_runMode with_steps with_serialIn with_serialOut
       with_executed print setIdle afterFetch] in *.

Lemma interpret_inside s :
  runMode s ≠ IDLE → isInBounds (program s) (u32 (addrIP s)) = true →
  interpret s = execute (fetched s) (cell s) (afterFetch s).
Proof.
  intros Hrun Hin. unfold interpret, fetched, cell, afterFetch.
  destruct (get (memory s) (u32 (addrMP s))) as [mem m].
  destruct (get (program s) (u32 (addrIP s))) as [opcode p] eqn:Hp.
  fields. cbn [fst snd].
  assert (Hin' : isInBounds p (u32 (addrIP s)) = true).
  { unfold isInBounds in *.
    replace p with (snd (get (program s) (u32 (addrIP s)))) by (by rewrite Hp).
    by rewrite get_fileSize. }
  rewrite Hin'. fields. by destruct (runMode s).
Qed.

Lemma interpret_outside s :
  isInBounds (program s) (u32 (addrIP s)) = false →
  interpret s = Some (setIdle (afterFetch s)).
Proof.
  intros Hout. unfold interpret, afterFetch.
  destruct (get (memory s) (u32 (addrMP s))) as [mem m].
  destruct (get (program s) (u32 (addrIP s))) as [opcode p] eqn:Hp.
  fields. cbn [fst snd].
  assert (Hout' : isInBounds p (u32 (addrIP s)) = false).
  { unfold isInBounds in *.
    replace p with (snd (get (program s) (u32 (addrIP s)))) by (by rewrite Hp).
    by rewrite get_fileSize. }
  by rewrite Hout'.
Qed.

Lemma traceBefore_frame opcode mem s :
  program (traceBefore opcode mem s) = program s ∧
  memory (traceBefore opcode mem s) = memory s ∧
  addrIP (traceBefore opcode mem s) = addrIP s ∧
  addrMP (traceBefore opcode mem s) = addrMP s ∧
  runMode (traceBefore opcode mem s) = runMode s ∧
  steps (traceBefore opcode mem s) = steps s ∧
  serialIn (traceBefore opcode mem s) = serialIn s ∧
  executed (traceBefore opcode mem s) = executed s ∧
  listRunning (traceBefore opcode mem s) = listRunning s.
Proof. unfold traceBefore. by destruct (listRunning s) eqn:E. Qed.

Lemma traceAfter_frame mem s :
  program (traceAfter mem s) = program s ∧
  memory (traceAfter mem s) = memory s ∧
  addrIP (traceAfter mem s) = addrIP s ∧
  addrMP (traceAfter mem s) = addrMP s ∧
  runMode (traceAfter mem s) = runMode s ∧
  steps (traceAfter mem s) = steps s ∧
  serialIn (traceAfter mem s) = serialIn s ∧
  executed (traceAfter mem s) = executed s ∧
  listRunning (traceAfter mem s) = listRunning s.
Proof. unfold traceAfter. by destruct (listRunning s) eqn:E. Qed.

Lemma countdown_frame s :
  program (countdown s) = program s ∧ memory (countdown s) = memory s ∧
  addrIP (countdown s) = addrIP s ∧ addrMP (countdown s) = addrMP s ∧
  serialIn (countdown s) = serialIn s ∧ executed (countdown s) = executed s ∧
  listRunning (countdown s) = listRunning s.
Proof.
  unfold countdown. destruct (runMode s); try done.
  fields. by destruct (u16 (steps s - 1) =? 0).
Qed.

(** What a pass makes of the explorer when the dispatch comes back with
    [(mem', s1)]. *)
Lemma loop_inside s mem' s1 :
  runMode s ≠ IDLE → isInBounds (program s) (u32 (addrIP s)) = true →
  dispatch (fetched s) (cell s)
           (with_executed (S (executed (afterFetch s)))
              (traceBefore (fetched s) (cell s) (afterFetch s))) = Some (mem', s1) →
  loop s = Some (countdown (traceAfter mem' (with_addrIP (s32 (addrIP s1 + 1)) s1))).
Proof.
  intros Hrun Hin Hd. unfold loop.
  rewrite interpret_inside by done.
  unfold execute.
  destruct (traceBefore_frame (fetched s) (cell s) (afterFetch s))
    as (_ & _ & _ & _ & _ & _ & _ & He & _).
  rewrite He, Hd. cbn. by destruct (runMode s).
Qed.

(** ** Cell arithmetic *)

Lemma get_after_set m addr value :
  wf m → within m addr → fst (get (set m addr value) addr) = value.
Proof.
  intros Hwf Hin.
  destruct (set_spec m addr value Hwf Hin) as (Hwf' & Hf & _ & Hv & _).
  apply get_spec; [done | | done].
  unfold within, isInBounds in *. by rewrite Hf.
Qed.

Lemma loadPage_buffer m addr :
  Z.of_nat (length (_pageData m)) = _pageSize m →
  Z.of_nat (length (_pageData (loadPage m addr))) = _pageSize m ∧
  _pageBaseAddr (loadPage m addr) = addr ∧
  _pageSize (loadPage m addr) = _pageSize m.
Proof.
  intros Hbuf. unfold loadPage, read.
  destruct (isOpen (seekSet (_fp m) addr)); cbn [_pageData _pageBaseAddr _pageSize].
  - split_and!; [|done..].
    rewrite length_app, length_drop, length_take. lia.
  - split_and!; [|done..]. by rewrite drop_0.
Qed.

Lemma savePage_buffer m addr :
  _pageData (savePage m addr) = _pageData m ∧
  _pageBaseAddr (savePage m addr) = _pageBaseAddr m ∧
  _pageSize (savePage m addr) = _pageSize m.
Proof. unfold savePage. by destruct (_pageChanged m). Qed.

Lemma swapIn_fits m addr :
  pageFits m addr →
  pageFits (swapIn m addr) addr ∧ pageMiss (swapIn m addr) addr = false.
Proof.
  intros (Hps & Hbuf & Hbase & Ha & Hfit). unfold swapIn.
  destruct (pageMiss m addr) eqn:Hmiss; [|by split].
  destruct (savePage_buffer m (_pageBaseAddr m)) as (Hd & Hb & Hs).
  rewrite Hs.
  destruct (loadPage_buffer (savePage m (_pageBaseAddr m))
              (u32 (u32 (addr / _pageSize m) * _pageSize m)))
    as (Hd' & Hb' & Hs'); [by rewrite Hd, Hs|].
  rewrite Hs in Hd', Hs'.
  assert (H0 : 0 ≤ addr / _pageSize m) by (apply Z.div_pos; lia).
  pose proof (Z.mul_div_le addr (_pageSize m) ltac:(lia)) as Hle.
  pose proof (Z.mod_pos_bound addr (_pageSize m) ltac:(lia)) as Hmod.
  pose proof (Z.div_mod addr (_pageSize m) ltac:(lia)) as Hdm.
  assert (Hq : u32 (u32 (addr / _pageSize m) * _pageSize m)
               = addr / _pageSize m * _pageSize m).
  { rewrite (u32_small (addr / _pageSize m)) by nia. apply u32_small. nia. }
  rewrite Hq in *.
  split.
  - unfold pageFits. rewrite Hd', Hb', Hs'. split_and!; try done; try lia; nia.
  - unfold pageMiss. rewrite Hb', Hs'.
    rewrite u32_small by nia.
    apply orb_false_iff. split; [apply Z.ltb_ge; nia | apply Z.leb_gt; nia].
Qed.

Lemma hit_index m addr :
  pageFits m addr → pageMiss m addr = false →
  0 ≤ addr - _pageBaseAddr m < _pageSize m ∧
  u32 (addr - _pageBaseAddr m) = addr - _pageBaseAddr m.
Proof.
  intros (Hps & Hbuf & Hbase & Ha & Hfit) Hmiss.
  unfold pageMiss in Hmiss. apply orb_false_iff in Hmiss as [H1 H2].
  apply Z.ltb_ge in H1. apply Z.leb_gt in H2.
  assert (u32 (_pageBaseAddr m + _pageSize m) ≤ _pageBaseAddr m + _pageSize m).
  { unfold u32. apply Z.mod_le; lia. }
  split; [lia|]. apply u32_small. lia.
Qed.

Lemma swapIn_hit m addr : pageMiss m addr = false → swapIn m addr = m.
Proof. intros Hmiss. unfold swapIn. by rewrite Hmiss. Qed.

(** Once the page of [addr] is in, a further [get] there changes nothing
    and returns the same byte. *)
Lemma get_again_fits m addr :
  pageFits m addr →
  pageFits (snd (get m addr)) addr ∧
  get (snd (get m addr)) addr = get m addr.
Proof.
  intros Hfit. destruct (swapIn_fits m addr Hfit) as (Hfit' & Hmiss).
  unfold get. cbn [snd]. split; [done|].
  by rewrite (swapIn_hit _ _ Hmiss).
Qed.

Lemma get_after_set_fits m addr value :
  pageFits m addr → fst (get (set m addr value) addr) = value.
Proof.
  intros Hfit. destruct (swapIn_fits m addr Hfit) as (Hfit' & Hmiss).
  destruct (hit_index _ _ Hfit' Hmiss) as (Hidx & Hu).
  destruct Hfit' as (_ & Hbuf & _).
  unfold get, set. cbn [fst].
  set (m1 := swapIn m addr) in *.
  assert (Hm : pageMiss (mkVM (_fp m1) (_fileSize m1)
                 (zput (_pageData m1) (u32 (addr - _pageBaseAddr m1)) value)
                 (_pageBaseAddr m1) (_pageSize m1) true) addr = false) by exact Hmiss.
  rewrite (swapIn_hit _ _ Hm). cbn [_pageData _pageBaseAddr].
  unfold zget, zput. rewrite Hu, list_lookup_insert_eq by lia. done.
Qed.

Lemma explorer_add_stored s (d : Z) (opcode : Z) :
  (opcode = ch "+" ∧ d = 1) ∨ (opcode = ch "-" ∧ d = -1) →
  runMode s ≠ IDLE → isInBounds (program s) (u32 (addrIP s)) = true →
  (∀ v, fst (get (set (snd (get (memory s) (u32 (addrMP s)))) (u32 (addrMP s)) v)
                 (u32 (addrMP s))) = v) →
  fetched s = opcode →
  ∃ s', loop s = Some s' ∧ addrMP s' = addrMP s ∧ cell s' = (cell s + d) mod 256.
Proof.
  intros Hop Hrun Hin Hstore Hf.
  destruct (traceBefore_frame (fetched s) (cell s) (afterFetch s))
    as (_ & Hm & _ & Ha & _).
  set (x := with_executed (S (executed (afterFetch s)))
              (traceBefore (fetched s) (cell s) (afterFetch s))).
  assert (Hd : dispatch (fetched s) (cell s) x
               = Some (u8 (cell s + d),
                       with_memory (set (memory x) (u32 (addrMP x))
                                        (u8 (cell s + d))) x)).
  { rewrite Hf. destruct Hop as [[-> ->]|[-> ->]]; reflexivity. }
  eexists. split; [by apply loop_inside|].
  match goal with |- context [countdown ?y] =>
    destruct (countdown_frame y) as (_ & Hc1 & _ & Hc2 & _) end.
  match goal with |- context [traceAfter ?v ?y] =>
    destruct (traceAfter_frame v y) as (_ & Ht1 & _ & Ht2 & _) end.
  split; [rewrite Hc2, Ht2; subst x; fields; by rewrite Ha|].
  generalize dependent (cell s). intros c Hm Ha x Hd Hc1 Hc2 Ht1 Ht2.
  unfold cell. rewrite Hc1, Hc2, Ht1, Ht2. subst x. fields.
  rewrite Hm, Ha. fields. apply Hstore.
Qed.

Lemma holdsCell_stores m addr v :
  holdsCell m addr → fst (get (set (snd (get m addr)) addr v) addr) = v.
Proof.
  intros [[Hwf Hin]|Hfit].
  - destruct (get_spec _ _ Hwf Hin) as (Hwf1 & _ & Hfs1 & _ & _).
    apply get_after_set; [done|].
    unfold within, isInBounds in *. by rewrite Hfs1.
  - apply get_after_set_fits. by apply get_again_fits.
Qed.

Lemma bfrun_add prog st v (d : Z) (opcode : Z) :
  (opcode = ch "+" ∧ d = 1) ∨ (opcode = ch "-" ∧ d = -1) →
  BFRun.pgm_read_byte prog (BFRun.ip st) = Some opcode →
  BFRun.deref st = Some v →
  ∃ st', BFRun.loop prog st = Some st' ∧ BFRun.mp st' = BFRun.mp st ∧
         BFRun.deref st' = Some ((v + d) mod 256).
Proof.
  intros Hop Hrd Hv. unfold BFRun.loop. rewrite Hrd. cbn [mbind option_bind].
  unfold BFRun.deref in Hv.
  destruct ((0 <=? BFRun.mp st) && (BFRun.mp st <? BFRun.MEM_SIZE)) eqn:Hrange;
    [|done].
  pose proof (lookup_lt_Some _ _ _ Hv) as Hlen.
  assert (Hlen' : (BFRun.mp st <? Z.of_nat (length (BFRun.cells st))) = true).
  { apply Z.ltb_lt. apply andb_true_iff in Hrange as [H0 _].
    apply Z.leb_le in H0. lia. }
  assert (Hd : BFRun.dispatch prog opcode st
               = Some (BFRun.mkState (BFRun.ip st)
                         (zput (BFRun.cells st) (BFRun.mp st) (u8 (v + d)))
                         (BFRun.mp st) (BFRun.input st) (BFRun.output st))).
  { destruct Hop as [[-> ->]|[-> ->]]; unfold BFRun.dispatch; cbn [Z.eqb ch];
      change (ch "+" =? ch ">") with false; cbn;
      unfold BFRun.deref, BFRun.assign; rewrite Hrange, Hv; cbn;
      by rewrite Hlen'. }
  rewrite Hd. cbn [mbind option_bind].
  eexists. split; [reflexivity|].
  assert ((opcode =? 0) = false) as -> by (by destruct Hop as [[-> _]|[-> _]]).
  cbn. split; [done|].
  unfold BFRun.deref. cbn. rewrite Hrange. unfold zput, u8.
  by rewrite list_lookup_insert_eq.
Qed.

Lemma explorerOn_memory_wf prog mem mode :
  Z.of_nat (length mem) < 4294967296 →
  wf (memory (explorerOn prog mem mode)) ∧
  _fileSize (memory (explorerOn prog mem mode)) = Z.of_nat (length mem) ∧
  view (memory (explorerOn prog mem mode)) = mem.
Proof.
  intros Hlen. unfold explorerOn. cbn [memory].
  destruct (begin_wf (unopened 100 (replicate 100 0)) mem) as (? & ? & ? & _);
    (done || cbn; lia).
Qed.

(** C7, as the code has it.  Cell arithmetic is modulo 256 wherever the
    data pointer stands on a cell of the memory file, and more widely on
    every address whose page ends below 2^32 (with the page of 100 bytes:
    every data pointer but -96 .. -1); in BF-run, wherever the pointer is
    inside the array.  There a pass over [+] leaves (c + 1) mod 256 in the
    current cell and a pass over [-] leaves (c - 1) mod 256, where c is
    what the cell held: 255 becomes 0 under [+] and 0 becomes 255 under
    [-].  The data pointer stays where it is. *)
Theorem cell_arithmetic_mod_256 (s : Explorer) (prog : list Z) (st : BFRun.State) (v : Z) :
  runMode s ≠ IDLE → isInBounds (program s) (u32 (addrIP s)) = true →
  holdsCell (memory s) (u32 (addrMP s)) →
  BFRun.deref st = Some v →
  (fetched s = ch "+" →
     ∃ s', loop s = Some s' ∧ addrMP s' = addrMP s ∧
           cell s' = (cell s + 1) mod 256 ∧ (cell s = 255 → cell s' = 0)) ∧
  (fetched s = ch "-" →
     ∃ s', loop s = Some s' ∧ addrMP s' = addrMP s ∧
           cell s' = (cell s - 1) mod 256 ∧ (cell s = 0 → cell s' = 255)) ∧
  (BFRun.pgm_read_byte prog (BFRun.ip st) = Some (ch "+") →
     ∃ st', BFRun.loop prog st = Some st' ∧ BFRun.mp st' = BFRun.mp st ∧
            BFRun.deref st' = Some ((v + 1) mod 256) ∧
            (v = 255 → BFRun.deref st' = Some 0)) ∧
  (BFRun.pgm_read_byte prog (BFRun.ip st) = Some (ch "-") →
     ∃ st', BFRun.loop prog st = Some st' ∧ BFRun.mp st' = BFRun.mp st ∧
            BFRun.deref st' = Some ((v - 1) mod 256) ∧
            (v = 0 → BFRun.deref st' = Some 255)).
Proof.
  intros Hrun Hin Hmp Hv.
  pose proof (λ w, holdsCell_stores _ _ w Hmp) as Hstore.
  split_and!.
  - intros Hf.
    destruct (explorer_add_stored s 1 (ch "+")) as (s' & Hl & Ha & Hc); [by left|done..|].
    exists s'. split_and!; try done. intros H255. by rewrite Hc, H255.
  - intros Hf.
    destruct (explorer_add_stored s (-1) (ch "-")) as (s' & Hl & Ha & Hc);
      [by right|done..|].
    exists s'. split_and!; try done. intros H0. by rewrite Hc, H0.
  - intros Hf.
    destruct (bfrun_add prog st v 1 (ch "+")) as (st' & Hl & Ha & Hc); [by left|done..|].
    exists st'. split_and!; try done. intros ->. by rewrite Hc.
  - intros Hf.
    destruct (bfrun_add prog st v (-1) (ch "-")) as (st' & Hl & Ha & Hc); [by right|done..|].
    exists st'. split_and!; try done. intros ->. by rewrite Hc.
Qed.

(** Two passes of the explorer: a cell of the file, and an address past
    the end of the file. *)
Lemma cell_arithmetic_mod_256_witness :
  (∃ s', loop (explorerOn (bytes "+") (255 :: replicate 299 0) RUN) = Some s' ∧
         cell s' = 0) ∧
  (∃ s', loop (with_addrMP 3150 (explorerOn (bytes "-") (replicate 300 0) RUN))
         = Some s' ∧ cell s' = 255) ∧
  (∃ st', BFRun.loop (bytes "-") BFRun.start = Some st' ∧
          BFRun.deref st' = Some 255).
Proof.
  split_and!.
  - destruct (cell_arithmetic_mod_256
                (explorerOn (bytes "+") (255 :: replicate 299 0) RUN)
                (bytes "-") BFRun.start 0) as (Hplus & _).
    + discriminate.
    + reflexivity.
    + left. split; [apply explorerOn_memory_wf; cbn; lia|].
      split; [by vm_compute | reflexivity].
    + reflexivity.
    + destruct (Hplus eq_refl) as (s' & Hl & _ & _ & Hw).
      exists s'. split; [exact Hl | apply Hw; reflexivity].
  - destruct (cell_arithmetic_mod_256
                (with_addrMP 3150 (explorerOn (bytes "-") (replicate 300 0) RUN))
                (bytes "-") BFRun.start 0) as (_ & Hminus & _).
    + discriminate.
    + reflexivity.
    + right. unfold pageFits. repeat split; by vm_compute.
    + reflexivity.
    + destruct (Hminus eq_refl) as (s' & Hl & _ & _ & Hw).
      exists s'. split; [exact Hl | apply Hw; reflexivity].
  - destruct (cell_arithmetic_mod_256
                (explorerOn (bytes "+") (255 :: replicate 299 0) RUN)
                (bytes "-") BFRun.start 0) as (_ & _ & _ & Hminus).
    + discriminate.
    + reflexivity.
    + left. split; [apply explorerOn_memory_wf; cbn; lia|].
      split; [by vm_compute | reflexivity].
    + reflexivity.
    + destruct (Hminus eq_refl) as (st' & Hl & _ & _ & Hw).
      exists st'. split; [exact Hl | apply Hw; reflexivity].
Defined.

(** Below cell 0 the arithmetic is lost.  One [<] from the start puts the
    data pointer at -1, whose page would end beyond 2^32: every access
    there misses the page and reads the next 100 bytes of the file.  The
    pass over [+] finds 255 in the cell, and the cell reads 7 afterwards,
    not 0. *)
Lemma arithmetic_is_lost_below_cell_0 :
  let data := replicate 100 0 ++ replicate 100 255 ++ replicate 300 7 in
  ∃ s1 s2,
    loop (explorerOn (bytes "<+") data RUN) = Some s1 ∧
    addrMP s1 = -1 ∧ fetched s1 = ch "+" ∧ cell s1 = 255 ∧
    loop s1 = Some s2 ∧ addrMP s2 = -1 ∧ cell s2 = 7 ∧
    cell s2 ≠ (cell s1 + 1) mod 256.
Proof.
  intros data. eexists. eexists.
  split; [by vm_compute|].
  split; [reflexivity|]. split; [reflexivity|]. split; [by vm_compute|].
  split; [by vm_compute|].
  split; [reflexivity|]. split; [by vm_compute|]. by vm_compute.
Qed.

(** ** The memory dump *)

Section Dump.

Variables (addr a b : Z) (V : list Z) (F : Z).
Hypothesis Ha : a = u32 (addr + 1).
Hypothesis Hb : V !! Z.to_nat a = Some b.

(** What holds of the memory all along the dump. *)
Let holds (m : cVirtualMemory) : Prop :=
  wf m ∧ within m a ∧ view m = V ∧ _fileSize m = F.

Lemma holds_get m :
  holds m → get m a = (b, snd (get m a)) ∧ holds (snd (get m a)) ∧
            resident (snd (get m a)) a.
Proof.
  intros (Hwf & Hin & Hv & Hf).
  destruct (get_spec m a Hwf Hin) as (Hwf' & Hv' & Hf' & _ & Hget).
  destruct (swapIn_spec m a Hwf Hin) as (_ & _ & _ & _ & Hres).
  split_and!.
  - rewrite <- (Hget b) at 1 by (by rewrite Hv). by destruct (get m a).
  - unfold holds, within, isInBounds in *. rewrite Hf', Hv'.
    split_and!; try done. apply Hin. apply Hin.
  - exact Hres.
Qed.

Lemma dumpHex_known n : ∀ m sz pos,
  holds m →
  ∃ m', dumpHex n addr m sz pos
        = (m', fst (hexInto n (htoa (Z.shiftr b 4)) (htoa (Z.land b 15)) sz pos),
           snd (hexInto n (htoa (Z.shiftr b 4)) (htoa (Z.land b 15)) sz pos)) ∧
        holds m' ∧ (n ≠ O → resident m' a).
Proof.
  induction n as [|n IH]; intros m sz pos Hm.
  - exists m. by split_and!.
  - destruct (holds_get m Hm) as (Hg & Hm1 & Hres).
    cbn [dumpHex hexInto]. rewrite <- Ha, Hg.
    destruct (IH (snd (get m a))
                 (zput (zput sz pos (htoa (Z.shiftr b 4))) (u8 (pos + 1))
                       (htoa (Z.land b 15)))
                 (u8 (u8 (u8 (pos + 1) + 1) + 1)) Hm1) as (m' & He & Hm' & Hr').
    exists m'. split_and!; [done | done |].
    intros _. destruct n; [|by apply Hr'].
    cbn in He. by injection He as <-.
Qed.

Lemma dumpAscii_known n : ∀ m sz pos,
  holds m →
  ∃ m', dumpAscii n addr m sz pos
        = (m', fst (asciiInto n (if b <=? 10 then ch "." else b) sz pos),
           snd (asciiInto n (if b <=? 10 then ch "." else b) sz pos)) ∧
        holds m' ∧ (n ≠ O → resident m' a).
Proof.
  induction n as [|n IH]; intros m sz pos Hm.
  - exists m. by split_and!.
  - destruct (holds_get m Hm) as (Hg & Hm1 & Hres).
    cbn [dumpAscii asciiInto]. rewrite <- Ha, Hg.
    destruct (IH (snd (get m a))
                 (zput sz pos (if b <=? 10 then ch "." else b))
                 (u8 (pos + 1)) Hm1) as (m' & He & Hm' & Hr').
    exists m'. split_and!; [done | done |].
    intros _. destruct n; [|by apply Hr'].
    cbn in He. by injection He as <-.
Qed.

Lemma dumpLine_known m :
  holds m →
  fst (dumpLine addr m) = oneByteLine b ∧
  holds (snd (dumpLine addr m)) ∧ resident (snd (dumpLine addr m)) a.
Proof.
  intros Hm. unfold dumpLine.
  destruct (dumpHex_known (Z.to_nat DUMP_SIZE) m
              (<[(Z.to_nat (DUMP_SIZE * 3 + 2 + DUMP_SIZE + 1) - 1)%nat := 0]>
                 (replicate (Z.to_nat (DUMP_SIZE * 3 + 2 + DUMP_SIZE + 1)) (ch " ")))
              0 Hm) as (m1 & -> & Hm1 & _).
  match goal with |- context [dumpAscii ?n addr m1 ?sz ?pos] =>
    destruct (dumpAscii_known n m1 sz pos Hm1) as (m2 & -> & Hm2 & Hres) end.
  cbn [fst snd]. split_and!; [|done|by apply Hres].
  unfold oneByteLine.
  generalize (htoa (Z.shiftr b 4)) (htoa (Z.land b 15))
             (if b <=? 10 then ch "." else b).
  intros hi lo c. reflexivity.
Qed.

End Dump.

Lemma htoa_hexDigit n : 0 ≤ n ≤ 15 → htoa n = hexDigit n.
Proof.
  intros Hn. rewrite <- (Z2Nat.id n) by lia.
  assert (Hk : (Z.to_nat n < 16)%nat) by lia.
  revert Hk. generalize (Z.to_nat n). intros k Hk.
  do 16 (destruct k as [|k]; [reflexivity|]). lia.
Qed.

Lemma oneByteLine_shown b : 0 ≤ b < 256 → oneByteLine b = shownLine b.
Proof.
  intros Hb. unfold oneByteLine, shownLine.
  rewrite Z.shiftr_div_pow2 by lia. change (2 ^ 4) with 16.
  change 15 with (Z.ones 4). rewrite Z.land_ones by lia. change (2 ^ 4) with 16.
  pose proof (Z.mod_pos_bound b 16 ltac:(lia)).
  assert (0 ≤ b / 16) by (apply Z.div_pos; lia).
  assert (b / 16 < 16) by (apply Z.div_lt_upper_bound; lia).
  by rewrite !htoa_hexDigit by lia.
Qed.

(** The accesses of the dump to the memory. *)
Lemma dumpHex_accesses n : ∀ addr m sz pos,
  fst (fst (dumpHex n addr m sz pos))
  = performAll m (replicate n (DoGet (u32 (addr + 1)))).
Proof.
  induction n as [|n IH]; intros addr m sz pos; [done|].
  cbn [dumpHex replicate]. unfold performAll. cbn [foldl perform].
  destruct (get m (u32 (addr + 1))) as [b m1]. cbn [snd]. apply IH.
Qed.

Lemma dumpAscii_accesses n : ∀ addr m sz pos,
  fst (fst (dumpAscii n addr m sz pos))
  = performAll m (replicate n (DoGet (u32 (addr + 1)))).
Proof.
  induction n as [|n IH]; intros addr m sz pos; [done|].
  cbn [dumpAscii replicate]. unfold performAll. cbn [foldl perform].
  destruct (get m (u32 (addr + 1))) as [b m1]. cbn [snd]. apply IH.
Qed.

Lemma dumpLine_accesses addr m :
  snd (dumpLine addr m) = performAll m (replicate 16 (DoGet (u32 (addr + 1)))).
Proof.
  unfold dumpLine.
  match goal with |- context [dumpHex ?n addr m ?sz ?pos] =>
    pose proof (dumpHex_accesses n addr m sz pos) as H1;
    destruct (dumpHex n addr m sz pos) as [[m1 sz1] pos1] end.
  match goal with |- context [dumpAscii ?n addr m1 ?sz ?pos] =>
    pose proof (dumpAscii_accesses n addr m1 sz pos) as H2;
    destruct (dumpAscii n addr m1 sz pos) as [[m2 sz2] pos2] end.
  cbn [fst snd] in *. subst m1 m2.
  change 16%nat with (Z.to_nat DUMP_SIZE + Z.to_nat DUMP_SIZE)%nat.
  rewrite replicate_add. unfold performAll. by rewrite foldl_app.
Qed.

(** The line of a dump all of whose reads return [b]. *)
Lemma dumpLine_same (P : cVirtualMemory → Prop) addr a b :
  a = u32 (addr + 1) →
  (∀ m, P m → get m a = (b, snd (get m a)) ∧ P (snd (get m a))) →
  ∀ m, P m → fst (dumpLine addr m) = oneByteLine b.
Proof.
  intros Ha Hget.
  assert (Hhex : ∀ n m sz pos, P m →
            ∃ m', dumpHex n addr m sz pos
                  = (m', fst (hexInto n (htoa (Z.shiftr b 4)) (htoa (Z.land b 15)) sz pos),
                     snd (hexInto n (htoa (Z.shiftr b 4)) (htoa (Z.land b 15)) sz pos))
                  ∧ P m').
  { induction n as [|n IH]; intros m sz pos Hm.
    - exists m. by split.
    - destruct (Hget m Hm) as (Hg & Hm1).
      cbn [dumpHex hexInto]. rewrite <- Ha, Hg. by apply IH. }
  assert (Hasc : ∀ n m sz pos, P m →
            ∃ m', dumpAscii n addr m sz pos
                  = (m', fst (asciiInto n (if b <=? 10 then ch "." else b) sz pos),
                     snd (asciiInto n (if b <=? 10 then ch "." else b) sz pos))
                  ∧ P m').
  { induction n as [|n IH]; intros m sz pos Hm.
    - exists m. by split.
    - destruct (Hget m Hm) as (Hg & Hm1).
      cbn [dumpAscii asciiInto]. rewrite <- Ha, Hg. by apply IH. }
  intros m Hm. unfold dumpLine.
  destruct (Hhex (Z.to_nat DUMP_SIZE) m
              (<[(Z.to_nat (DUMP_SIZE * 3 + 2 + DUMP_SIZE + 1) - 1)%nat := 0]>
                 (replicate (Z.to_nat (DUMP_SIZE * 3 + 2 + DUMP_SIZE + 1)) (ch " ")))
              0 Hm) as (m1 & -> & Hm1).
  match goal with |- context [dumpAscii ?n addr m1 ?sz ?pos] =>
    destruct (Hasc n m1 sz pos Hm1) as (m2 & -> & Hm2) end.
  cbn [fst snd]. unfold oneByteLine.
  generalize (htoa (Z.shiftr b 4)) (htoa (Z.land b 15))
             (if b <=? 10 then ch "." else b).
  intros hi lo c. reflexivity.
Qed.

Lemma dumpLine_fits addr m :
  pageFits m (u32 (addr + 1)) →
  fst (dumpLine addr m) = oneByteLine (fst (get m (u32 (addr + 1)))).
Proof.
  intros Hfit.
  apply (dumpLine_same
           (λ m', pageFits m' (u32 (addr + 1)) ∧
                  fst (get m' (u32 (addr + 1))) = fst (get m (u32 (addr + 1))))
           addr (u32 (addr + 1))); [done | | done].
  intros m' (Hfit' & Hb).
  destruct (get_again_fits m' _ Hfit') as (Hfit2 & Hagain).
  split_and!; [|done|by rewrite Hagain].
  rewrite <- Hb. by destruct (get m' (u32 (addr + 1))).
Qed.

Lemma handlerD_prints p s :
  serialOut (handlerD p s)
  = serialOut s ++ [PStr "dump "; PNum (u32 (number p)); PStr (String LF "");
                    PBuf (fst (dumpLine (u32 (number p)) (memory s)));
                    PStr (String LF ". ")] ∧
  memory (handlerD p s) = snd (dumpLine (u32 (number p)) (memory s)).
Proof.
  unfold handlerD. fields.
  destruct (dumpLine (u32 (number p)) (memory s)) as [sz m].
  cbn [fst snd]. fields. split; [|done]. by rewrite <- !app_assoc.
Qed.

(** C10, as the code has it.  The memory dump asks the memory for one
    address only: its accesses are sixteen [get]s of base+1.  When base+1
    is an address of the store holding the byte [b], the line printed
    shows [b] in all eight hex places and in all eight character places,
    the memory holds afterwards what it held before, and the resident
    page is the page of base+1.  The eight places also agree on every
    other address whose page ends below 2^32, where they show the byte
    [get] returns. *)
Theorem dump_shows_cell_base_plus_1 (s : Explorer) (p : Param) (b : Z) :
  0 ≤ b < 256 →
  (wf (memory s) → within (memory s) (u32 (u32 (number p) + 1)) →
   view (memory s) !! Z.to_nat (u32 (u32 (number p) + 1)) = Some b →
   serialOut (handlerD p s)
   = serialOut s ++ [PStr "dump "; PNum (u32 (number p)); PStr (String LF "");
                     PBuf (shownLine b); PStr (String LF ". ")] ∧
   view (memory (handlerD p s)) = view (memory s) ∧
   resident (memory (handlerD p s)) (u32 (u32 (number p) + 1))) ∧
  (pageFits (memory s) (u32 (u32 (number p) + 1)) →
   fst (get (memory s) (u32 (u32 (number p) + 1))) = b →
   serialOut (handlerD p s)
   = serialOut s ++ [PStr "dump "; PNum (u32 (number p)); PStr (String LF "");
                     PBuf (shownLine b); PStr (String LF ". ")]) ∧
  memory (handlerD p s)
  = performAll (memory s) (replicate 16 (DoGet (u32 (u32 (number p) + 1)))).
Proof.
  intros Hbyte. destruct (handlerD_prints p s) as (Hout & Hmem).
  split_and!.
  - intros Hwf Hin Hb.
    destruct (dumpLine_known (u32 (number p)) (u32 (u32 (number p) + 1)) b
                (view (memory s)) (_fileSize (memory s)) eq_refl Hb (memory s))
      as (Hline & (_ & _ & Hv & _) & Hres); [by split_and!|].
    rewrite Hout, Hmem, Hline, oneByteLine_shown by done. by split_and!.
  - intros Hfit Hb.
    by rewrite Hout, dumpLine_fits, Hb, oneByteLine_shown.
  - rewrite Hmem. apply dumpLine_accesses.
Qed.

Lemma dump_shows_cell_base_plus_1_witness :
  serialOut (handlerD (mkParam "5" 5)
               (explorerOn [] (Z.of_nat <$> seq 60 150) IDLE))
  = [PStr "dump "; PNum 5; PStr (String LF "");
     PBuf (bytes "42 42 42 42 42 42 42 42   BBBBBBBB" ++ [0]); PStr (String LF ". ")] ∧
  serialOut (handlerD (mkParam "3149" 3149)
               (explorerOn [] (replicate 300 171) IDLE))
  = [PStr "dump "; PNum 3149; PStr (String LF "");
     PBuf (bytes "ab ab ab ab ab ab ab ab   " ++ replicate 8 171 ++ [0]);
     PStr (String LF ". ")].
Proof.
  split.
  - destruct (explorerOn_memory_wf [] (Z.of_nat <$> seq 60 150) IDLE) as (Hwf & _);
      [by vm_compute|].
    destruct (dump_shows_cell_base_plus_1
                (explorerOn [] (Z.of_nat <$> seq 60 150) IDLE) (mkParam "5" 5) 66)
      as (Hin & _); [lia|].
    destruct Hin as (Hout & _).
    + exact Hwf.
    + split; [by vm_compute | reflexivity].
    + reflexivity.
    + exact Hout.
  - destruct (dump_shows_cell_base_plus_1
                (explorerOn [] (replicate 300 171) IDLE) (mkParam "3149" 3149) 171)
      as (_ & Hfit & _); [lia|].
    apply Hfit.
    + unfold pageFits. repeat split; by vm_compute.
    + by vm_compute.
Defined.

(** The eight places do not agree for every base.  At base 4294967294
    the page of base+1 would end beyond 2^32, every [get] misses the page
    and reads the next 100 bytes of the file: over a file whose pages
    hold the letters A, B, C, ... the dump shows eight different bytes in
    the hex column and eight others in the character column. *)
Lemma dump_at_the_top_shows_eight_bytes :
  let data := (λ k : nat, 65 + Z.of_nat (k / 100)) <$> seq 0 1800 in
  serialOut (handlerD (mkParam "4294967294" 4294967294) (explorerOn [] data IDLE))
  = [PStr "dump "; PNum 4294967294; PStr (String LF "");
     PBuf (bytes "42 43 44 45 46 47 48 49   JKLMNOPQ" ++ [0]); PStr (String LF ". ")].
Proof. by vm_compute. Qed.

(** ** The input opcode *)

(** C3. The case for [','] of the explorer has no [break] and runs on
    into the case for ['[']: when the byte read is 0 the forward scan
    starts.  On the program [,+]] with the input byte 0 the pass of the
    explorer ends with the instruction pointer at 3, beyond the [+] it has
    skipped; on the program [,] alone the scan leaves the program, reports
    and idles.  The file-access variant does the same.  BF-run, whose case
    has its [break], ends the same pass over [,+]] with the instruction
    pointer at 1. *)
Theorem comma_runs_into_bracket_scan :
  (addrIP <$> loop (with_serialIn [0]
                      (explorerOn (bytes ",+]") (replicate 300 0) RUN))) = Some 3 ∧
  (addrIP <$> loop (with_serialIn [65]
                      (explorerOn (bytes ",+]") (replicate 300 0) RUN))) = Some 1 ∧
  ((λ s, (runMode s, serialOut s))
     <$> loop (with_serialIn [0] (explorerOn (bytes ",") (replicate 300 0) RUN)))
  = Some (IDLE, [PStr "!Instruction pointer past end of file"; PStr (String LF ". ")]) ∧
  (FileAccess.addrIP
     <$> FileAccess.loop (FileAccess.with_serialIn [0]
                            (FileAccess.running (bytes ",+]") (replicate 300 0))))
  = Some 3 ∧
  (BFRun.ip <$> BFRun.loop (bytes ",+]")
                  (BFRun.mkState 0 (replicate 400 0) 0 [0] [])) = Some 1.
Proof. split_and!; by vm_compute. Qed.

(** ** Clearing the memory *)

Lemma clearCells_spec n : ∀ i m,
  wf m → 0 ≤ i → i + Z.of_nat n ≤ _fileSize m →
  wf (clearCells n i m) ∧ _fileSize (clearCells n i m) = _fileSize m ∧
  (∀ j, i ≤ j < i + Z.of_nat n →
        view (clearCells n i m) !! Z.to_nat j = Some 0) ∧
  (∀ (j : nat) b, Z.of_nat j < i → view m !! j = Some b →
        view (clearCells n i m) !! j = Some b).
Proof.
  induction n as [|n IH]; intros i m Hwf Hi Hn; cbn [clearCells].
  - split_and!; try done. lia.
  - pose proof (wf_u32 m Hwf).
    assert (Hin : within m i)
      by (split; [done | apply Z.leb_le; lia]).
    destruct (set_spec m i 0 Hwf Hin) as (Hwf1 & Hf1 & _ & Hv1 & Hother).
    rewrite u32_small by lia.
    destruct (IH (i + 1) (set m i 0) Hwf1) as (Hwf2 & Hf2 & Hz & Hkeep);
      [lia | lia |].
    split_and!; [done | congruence | |].
    + intros j Hj. destruct (decide (j = i)) as [->|Hne].
      * apply Hkeep; [lia | done].
      * apply Hz. lia.
    + intros j b Hj Hb. apply Hkeep; [lia|]. apply Hother; [lia | done].
Qed.

(** After [clearMemory] every one of the [MEMORY_SIZE] cells reads 0. *)
Lemma clearMemory_zero s :
  wf (memory s) → MEMORY_SIZE ≤ _fileSize (memory s) →
  wf (memory (clearMemory s)) ∧
  _fileSize (memory (clearMemory s)) = _fileSize (memory s) ∧
  ∀ a, 0 ≤ a < MEMORY_SIZE → fst (get (memory (clearMemory s)) a) = 0.
Proof.
  intros Hwf Hsize. unfold clearMemory. fields.
  destruct (clearCells_spec (Z.to_nat MEMORY_SIZE) 0 (memory s) Hwf)
    as (Hwf' & Hf & Hz & _); [lia | unfold MEMORY_SIZE in *; lia |].
  split_and!; [done..|].
  intros a Ha. apply get_spec; [done | | apply Hz; unfold MEMORY_SIZE in *; lia].
  split; [lia|]. unfold isInBounds. rewrite Hf. apply Z.leb_le. lia.
Qed.

Lemma clearMemory_frame s :
  program (clearMemory s) = program s ∧ addrIP (clearMemory s) = addrIP s ∧
  addrMP (clearMemory s) = addrMP s ∧ runMode (clearMemory s) = runMode s ∧
  steps (clearMemory s) = steps s.
Proof. done. Qed.

(** [clearMemory] goes through [set] for every address from 0 on. *)
Lemma clearCells_sets n : ∀ i m,
  0 ≤ i → i + Z.of_nat n ≤ 4294967296 →
  clearCells n i m
  = foldl (λ m j, set m j 0) m ((λ k, i + Z.of_nat k) <$> seq 0 n).
Proof.
  induction n as [|n IH]; intros i m Hi Hn; [done|].
  cbn [clearCells seq fmap list_fmap foldl].
  replace (i + Z.of_nat 0) with i by lia.
  destruct n as [|n]; [done|].
  rewrite u32_small by lia. rewrite IH by lia.
  f_equal. rewrite <- !seq_shift, <- !list_fmap_compose.
  apply list_fmap_ext. intros _ k _. cbn. lia.
Qed.

(** ** Loading and running *)

Lemma booted_memory_wf files :
  wf (memory (booted files)) ∧ _fileSize (memory (booted files)) = MEMORY_SIZE.
Proof.
  unfold booted. cbn [memory].
  destruct (begin_wf (unopened 100 (replicate 100 0))
                     (replicate (Z.to_nat MEMORY_SIZE) 0)) as (? & Hf & _);
    [by cbn | done | by vm_compute |].
  split; [done|]. rewrite Hf. by vm_compute.
Qed.

(** C9. [handlerR] does not clear the memory: it leaves the memory object
    and both pointers as they are and only changes the run mode.  Take the
    explorer with the program [+] loaded, the memory zeroed and both
    pointers at 0, as a load leaves it.  After [r] and three passes the
    run is over: cell 0 holds 1, the instruction pointer is 2, two
    instructions have been executed.  A second [r] starts a run with cell
    0 still holding 1 and the instruction pointer still at 2, and the next
    pass idles without having executed anything. *)
Theorem run_leaves_memory_as_it_is :
  (∀ s, memory (handlerR s) = memory s ∧ addrIP (handlerR s) = addrIP s ∧
        addrMP (handlerR s) = addrMP s) ∧
  (let s0 := handlerR (explorerOn (bytes "+")
                         (replicate (Z.to_nat MEMORY_SIZE) 0) IDLE) in
   (λ s, ((runMode s, cell s, addrIP s, executed s),
          (runMode (handlerR s), cell (handlerR s), addrIP (handlerR s)),
          (λ t, (runMode t, cell t, executed t)) <$> loop (handlerR s)))
     <$> loops 3 s0
   = Some ((IDLE, 1, 2, 2%nat), (RUN, 1, 2), Some (IDLE, 1, 2%nat))).
Proof.
  split.
  - intros s. unfold handlerR. destruct (runMode s); try done.
    fields. by destruct (isLoaded (program s)).
  - by vm_compute.
Qed.

Lemma handlerL_busy p s :
  runMode s ≠ IDLE →
  program (handlerL p s) = program s ∧ memory (handlerL p s) = memory s ∧
  addrIP (handlerL p s) = addrIP s ∧ addrMP (handlerL p s) = addrMP s ∧
  steps (handlerL p s) = steps s ∧ runMode (handlerL p s) = IDLE ∧
  serialOut (handlerL p s)
  = serialOut s ++ [PStr "load '"; PStr (text p); PStr "'"; PStr (String LF ". ")].
Proof.
  intros Hrun. unfold handlerL. fields.
  destruct (runMode s); [done|..]; fields; by rewrite <- !app_assoc.
Qed.

Lemma inSession_memory files mode :
  wf (memory (inSession files mode)) ∧
  _fileSize (memory (inSession files mode)) = MEMORY_SIZE.
Proof.
  unfold inSession. cbn [memory].
  destruct (begin_wf (unopened 100 (replicate 100 0))
                     (replicate (Z.to_nat MEMORY_SIZE) 9)) as (? & Hf & _);
    [by cbn | done | by vm_compute |].
  split; [done|]. rewrite Hf. by vm_compute.
Qed.

Lemma handlerL_idle p s data :
  runMode s = IDLE →
  openOnCard (card s) (text p) = Some data →
  fst (begin (program s) (Some data)) = true →
  handlerL p s
  = setIdle (with_addrIP 0 (with_addrMP 0 (clearMemory
      (with_program (snd (begin (program s) (Some data)))
         (print (PStr "'") (print (PStr (text p)) (print (PStr "load '") s))))))).
Proof.
  intros Hidle Hfile Hok. unfold handlerL. fields. rewrite Hidle, Hfile.
  destruct (begin (program s) (Some data)) as [ok q]. cbn [fst snd] in *.
  by rewrite Hok.
Qed.

Lemma handlerL_idle_prints p s data :
  runMode s = IDLE →
  openOnCard (card s) (text p) = Some data →
  fst (begin (program s) (Some data)) = true →
  serialOut (handlerL p s)
  = serialOut s ++ [PStr "load '"; PStr (text p); PStr "'";
                    PStr (String LF "Memory cleared."); PStr (String LF ". ")].
Proof.
  intros Hidle Hfile Hok. rewrite (handlerL_idle p s data Hidle Hfile Hok).
  generalize (snd (begin (program s) (Some data))). intros q.
  unfold clearMemory. generalize (clearCells (Z.to_nat MEMORY_SIZE) 0). intros f.
  fields. by rewrite <- !app_assoc.
Qed.

(** C8, as the code has it.  A load asked for while the explorer is
    running or stepping loads nothing: the program, the data memory, both
    pointers and the step count stay as they are, and nothing is printed
    but the echo of the command and the prompt.  A load asked for in IDLE
    of a file that is on the card makes that file the program, leaves 0
    in every one of the MEMORY_SIZE data cells, sets both pointers to 0,
    reports the memory cleared and leaves the explorer in IDLE. *)
Theorem load_takes_effect_from_idle_only (s : Explorer) (p : Param) (data : list Z) :
  (runMode s ≠ IDLE →
     program (handlerL p s) = program s ∧ memory (handlerL p s) = memory s ∧
     addrIP (handlerL p s) = addrIP s ∧ addrMP (handlerL p s) = addrMP s ∧
     steps (handlerL p s) = steps s ∧
     serialOut (handlerL p s)
     = serialOut s ++ [PStr "load '"; PStr (text p); PStr "'"; PStr (String LF ". ")]) ∧
  (runMode s = IDLE →
   wf (memory s) → MEMORY_SIZE ≤ _fileSize (memory s) →
   0 < _pageSize (program s) < 65536 →
   Z.of_nat (length (_pageData (program s))) = _pageSize (program s) →
   openOnCard (card s) (text p) = Some data →
   Z.of_nat (length data) < 4294967296 →
     runMode (handlerL p s) = IDLE ∧
     addrIP (handlerL p s) = 0 ∧ addrMP (handlerL p s) = 0 ∧
     isLoaded (program (handlerL p s)) = true ∧
     view (program (handlerL p s)) = data ∧
     (∀ a, 0 ≤ a < MEMORY_SIZE → fst (get (memory (handlerL p s)) a) = 0) ∧
     serialOut (handlerL p s)
     = serialOut s ++ [PStr "load '"; PStr (text p); PStr "'";
                       PStr (String LF "Memory cleared."); PStr (String LF ". ")]).
Proof.
  split.
  - intros Hrun. destruct (handlerL_busy p s Hrun) as (? & ? & ? & ? & ? & _ & ?).
    by split_and!.
  - intros Hidle Hwf Hsize Hps Hbuf Hfile Hlen.
    destruct (begin_wf (program s) data Hps Hbuf Hlen) as (Hwfp & _ & Hv & _ & Hok).
    pose proof (handlerL_idle_prints p s data Hidle Hfile Hok) as Hout.
    enough (runMode (handlerL p s) = IDLE ∧
            addrIP (handlerL p s) = 0 ∧ addrMP (handlerL p s) = 0 ∧
            isLoaded (program (handlerL p s)) = true ∧
            view (program (handlerL p s)) = data ∧
            (∀ a, 0 ≤ a < MEMORY_SIZE → fst (get (memory (handlerL p s)) a) = 0))
      as (? & ? & ? & ? & ? & ?) by (by split_and!).
    clear Hout.
    rewrite (handlerL_idle p s data Hidle Hfile Hok).
    match goal with |- context [clearMemory ?x] =>
      destruct (clearMemory_zero x) as (_ & _ & Hz); [by fields..|];
      destruct (clearMemory_frame x) as (Hp & _)
    end.
    fields. rewrite Hp. fields. by split_and!.
Qed.

Lemma load_takes_effect_from_idle_only_witness :
  let files := [("plus.bf"%string, bytes "+")] in
  let p := mkParam "plus.bf" 0 in
  (view (program (handlerL p (inSession files RUN))) = bytes "-[>-]" ∧
   addrIP (handlerL p (inSession files RUN)) = 3 ∧
   addrMP (handlerL p (inSession files RUN)) = 7 ∧
   serialOut (handlerL p (inSession files RUN))
   = [PStr "load '"; PStr "plus.bf"; PStr "'"; PStr (String LF ". ")]) ∧
  (fst (get (memory (inSession files IDLE)) 29999) = 9 ∧
   view (program (handlerL p (inSession files IDLE))) = bytes "+" ∧
   addrIP (handlerL p (inSession files IDLE)) = 0 ∧
   addrMP (handlerL p (inSession files IDLE)) = 0 ∧
   fst (get (memory (handlerL p (inSession files IDLE))) 29999) = 0 ∧
   runMode (handlerL p (inSession files IDLE)) = IDLE).
Proof.
  intros files p. split.
  - destruct (load_takes_effect_from_idle_only (inSession files RUN) p [])
      as (Hbusy & _).
    destruct Hbusy as (Hp & _ & Hi & Hm & _ & Ho); [discriminate|].
    rewrite Hp. split_and!; [reflexivity | exact Hi | exact Hm | exact Ho].
  - destruct (inSession_memory files IDLE) as (Hwf & Hf).
    destruct (load_takes_effect_from_idle_only (inSession files IDLE) p (bytes "+"))
      as (_ & Hidle).
    destruct Hidle as (Hm & Hi & Hd & _ & Hv & Hz & _).
    + reflexivity.
    + exact Hwf.
    + rewrite Hf. reflexivity.
    + split; by vm_compute.
    + reflexivity.
    + reflexivity.
    + cbn. lia.
    + split_and!; [by vm_compute | exact Hv | exact Hi | exact Hd
                   | apply Hz; unfold MEMORY_SIZE; lia | exact Hm].
Defined.

(** A load asked for during a run does not leave the run mode as it was:
    the explorer was running and is in IDLE afterwards. *)
Lemma load_while_running_changes_mode :
  let s := with_runMode RUN (booted [("plus.bf"%string, bytes "+")]) in
  runMode s = RUN ∧
  runMode (handlerL (mkParam "plus.bf" 0) s) = IDLE ∧
  runMode (handlerL (mkParam "plus.bf" 0) s) ≠ runMode s.
Proof. split_and!; [reflexivity | reflexivity | discriminate]. Qed.

(** ** The file-access variant *)

Lemma overwrite_next l p x buf :
  (p ≤ length l)%nat →
  overwrite (overwrite l p [x]) (S p) buf = overwrite l p (x :: buf).
Proof.
  intros Hp. apply list_eq. intros i.
  assert (Hlen : (S p ≤ length (overwrite l p [x]))%nat)
    by (rewrite overwrite_length by done; cbn; lia).
  destruct (decide (i < p)%nat); [|destruct (decide (i = p));
    [|destruct (decide (i < S p + length buf)%nat)]].
  - rewrite !overwrite_lookup_lt by lia. done.
  - subst i. rewrite overwrite_lookup_lt by lia.
    rewrite !overwrite_lookup_in by (cbn; lia). by rewrite Nat.sub_diag.
  - rewrite !overwrite_lookup_in by (cbn [length]; lia).
    replace (i - p)%nat with (S (i - S p)) by lia. done.
  - rewrite !overwrite_lookup_ge by (cbn [length]; lia). done.
Qed.

Lemma writeZeros_spec n : ∀ f,
  isOpen f = true → 0 ≤ curPosition f ≤ Z.of_nat (length (contents f)) →
  isOpen (FileAccess.writeZeros n f) = true ∧
  contents (FileAccess.writeZeros n f)
  = overwrite (contents f) (Z.to_nat (curPosition f)) (replicate n 0).
Proof.
  induction n as [|n IH]; intros f Ho Hp; cbn [FileAccess.writeZeros replicate].
  - split; [done|]. unfold overwrite. cbn [length app].
    by rewrite Nat.add_0_r, take_drop.
  - assert (Hw : isOpen (write f [0]) = true ∧
                 contents (write f [0])
                 = overwrite (contents f) (Z.to_nat (curPosition f)) [0] ∧
                 curPosition (write f [0]) = curPosition f + 1)
      by (unfold write; by rewrite Ho).
    destruct Hw as (Ho1 & Hc1 & Hp1).
    destruct (IH (write f [0])) as [Ho' Hc']; [done | |].
    + rewrite Hp1, Hc1, overwrite_length by lia. cbn [length]. lia.
    + split; [done|]. rewrite Hc', Hc1, Hp1.
      replace (Z.to_nat (curPosition f + 1))
        with (S (Z.to_nat (curPosition f))) by lia.
      apply overwrite_next. lia.
Qed.

(** X26. In the file-access variant [r] does zero the memory and reset
    both pointers before the run begins. *)
Lemma file_access_run_resets s :
  FileAccess.runMode s = IDLE → isOpen (FileAccess.fileProg s) = true →
  isOpen (FileAccess.fileMem s) = true →
  FileAccess.runMode (FileAccess.handlerR s) = RUN ∧
  FileAccess.addrIP (FileAccess.handlerR s) = 0 ∧
  FileAccess.addrMP (FileAccess.handlerR s) = 0 ∧
  ∀ i : nat, Z.of_nat i < MEMORY_SIZE →
    contents (FileAccess.fileMem (FileAccess.handlerR s)) !! i = Some 0.
Proof.
  intros Hidle Hprog Hmem. unfold FileAccess.handlerR.
  cbn [FileAccess.runMode FileAccess.print FileAccess.fileProg]. rewrite Hidle, Hprog.
  cbn [negb]. split_and!; [done..|].
  intros i Hi.
  cbn [FileAccess.fileMem FileAccess.print FileAccess.with_runMode
       FileAccess.with_addrIP FileAccess.with_fileProg FileAccess.initializeMemory
       FileAccess.with_addrMP FileAccess.with_fileMem].
  assert (Hrw : ∀ f, contents (FileAccess.rewind f) = contents f ∧
                     isOpen (FileAccess.rewind f) = isOpen f ∧
                     (isOpen f = true → curPosition (FileAccess.rewind f) = 0)).
  { intros f. unfold FileAccess.rewind, seekSet.
    destruct (isOpen f) eqn:Ho; [|done]. cbn [andb].
    destruct (0 <=? fileSize f) eqn:Hz; [done|].
    unfold fileSize in Hz. apply Z.leb_gt in Hz. lia. }
  destruct (Hrw (FileAccess.fileMem s)) as (Hc0 & Ho0 & Hp0).
  destruct (writeZeros_spec (Z.to_nat MEMORY_SIZE)
              (FileAccess.rewind (FileAccess.fileMem s))) as [_ Hc];
    [by rewrite Ho0 | rewrite Hp0 by done; lia |].
  destruct (Hrw (FileAccess.writeZeros (Z.to_nat MEMORY_SIZE)
                   (FileAccess.rewind (FileAccess.fileMem s)))) as (-> & _).
  rewrite Hc, Hp0 by done.
  rewrite overwrite_lookup_in by (rewrite ?length_replicate; lia).
  apply lookup_replicate_2. lia.
Qed.

(** ** The trace flag does not steer the interpreter *)

Lemma quiet_idem s : quiet (quiet s) = quiet s.
Proof. done. Qed.

Lemma scanForward_quiet fuel : ∀ count s,
  quiet <$> scanForward fuel count s = quiet <$> scanForward fuel count (quiet s).
Proof.
  induction fuel as [|fuel IH]; intros count s; cbn [scanForward];
    destruct (count =? 0); try done.
  fields. change (program (quiet s)) with (program s).
  change (addrIP (quiet s)) with (addrIP s).
  destruct (isInBounds (program s) (u32 (s32 (addrIP s + 1)))); cbn [negb]; [|done].
  destruct (get (program s) (u32 (s32 (addrIP s + 1)))) as [opcode p].
  rewrite IH. symmetry. rewrite IH. done.
Qed.

Lemma scanBackward_quiet fuel : ∀ count s,
  quiet <$> scanBackward fuel count s = quiet <$> scanBackward fuel count (quiet s).
Proof.
  induction fuel as [|fuel IH]; intros count s; cbn [scanBackward];
    destruct (count =? 0); try done.
  fields. change (program (quiet s)) with (program s).
  change (addrIP (quiet s)) with (addrIP s).
  destruct (isInBounds (program s) (u32 (s32 (addrIP s - 1)))); cbn [negb]; [|done].
  destruct (get (program s) (u32 (s32 (addrIP s - 1)))) as [opcode p].
  rewrite IH. symmetry. rewrite IH. done.
Qed.

Lemma caseOpen_quiet mem s :
  quiet2 <$> caseOpen mem s = quiet2 <$> caseOpen mem (quiet s).
Proof.
  unfold caseOpen. destruct (mem =? 0); [|done].
  change (scanFuel (quiet s)) with (scanFuel s).
  pose proof (scanForward_quiet (scanFuel s) 1 s) as H.
  destruct (scanForward (scanFuel s) 1 s), (scanForward (scanFuel s) 1 (quiet s));
    cbn [fmap option_fmap option_map mbind option_bind] in *;
    unfold quiet2; cbn [fst snd]; congruence.
Qed.

Lemma caseClose_quiet mem s :
  quiet2 <$> caseClose mem s = quiet2 <$> caseClose mem (quiet s).
Proof.
  unfold caseClose. destruct (mem =? 0); [done|].
  change (scanFuel (quiet s)) with (scanFuel s).
  pose proof (scanBackward_quiet (scanFuel s) 1 s) as H.
  destruct (scanBackward (scanFuel s) 1 s), (scanBackward (scanFuel s) 1 (quiet s));
    cbn [fmap option_fmap option_map mbind option_bind] in *;
    unfold quiet2; cbn [fst snd]; congruence.
Qed.

Lemma dispatch_quiet opcode mem s :
  quiet2 <$> dispatch opcode mem s = quiet2 <$> dispatch opcode mem (quiet s).
Proof.
  unfold dispatch.
  repeat match goal with |- context [if ?c =? ?d then _ else _] =>
    destruct (c =? d); [try done|] end; try done.
  - unfold getChar. change (serialIn (quiet s)) with (serialIn s).
    destruct (serialIn s) as [|c rest]; [done|].
    cbn [mbind option_bind]. rewrite caseOpen_quiet. symmetry.
    by rewrite caseOpen_quiet.
  - apply caseOpen_quiet.
  - apply caseClose_quiet.
Qed.

Lemma execute_quiet opcode mem s :
  quiet <$> execute opcode mem s = quiet <$> execute opcode mem (quiet s).
Proof.
  unfold execute.
  assert (H : ∀ t, quiet t = quiet s →
            quiet2 <$> dispatch opcode mem (with_executed (S (executed t)) t)
            = quiet2 <$> dispatch opcode mem (with_executed (S (executed s)) (quiet s))).
  { intros t Ht. rewrite dispatch_quiet.
    replace (quiet (with_executed (S (executed t)) t))
      with (with_executed (S (executed s)) (quiet s)); [done|].
    change (with_executed (S (executed s)) (quiet s))
      with (with_executed (S (executed (quiet s))) (quiet s)).
    rewrite <- Ht. done. }
  assert (Ht : ∀ m t, quiet (traceAfter m t) = quiet t)
    by (intros m t; unfold traceAfter; by destruct (listRunning t)).
  assert (Hb : ∀ t, quiet (traceBefore opcode mem t) = quiet t)
    by (intros t; unfold traceBefore; by destruct (listRunning t)).
  pose proof (H (traceBefore opcode mem s) (Hb s)) as H1.
  pose proof (H (traceBefore opcode mem (quiet s)) (Hb (quiet s))) as H2.
  change (executed (quiet s)) with (executed s) in H2.
  rewrite <- H2 in H1. clear H2 H.
  destruct (dispatch opcode mem (with_executed _ (traceBefore opcode mem s)))
    as [[m1 s1]|],
    (dispatch opcode mem (with_executed _ (traceBefore opcode mem (quiet s))))
    as [[m2 s2]|];
    cbn [fmap option_fmap option_map mbind option_bind] in *;
    unfold quiet2 in H1; cbn [fst snd] in H1; try done.
  assert (m1 = m2 ∧ quiet s1 = quiet s2) as [-> Hs] by (split; congruence).
  rewrite !Ht. f_equal.
  change (quiet (with_addrIP (s32 (addrIP s1 + 1)) s1))
    with (with_addrIP (s32 (addrIP (quiet s1) + 1)) (quiet s1)).
  by rewrite Hs.
Qed.

Lemma countdown_quiet s : quiet (countdown s) = quiet (countdown (quiet s)).
Proof.
  unfold countdown. change (runMode (quiet s)) with (runMode s).
  destruct (runMode s); try done. fields.
  change (steps (quiet s)) with (steps s).
  by destruct (u16 (steps s - 1) =? 0).
Qed.

Lemma interpret_quiet s :
  quiet <$> interpret s = quiet <$> interpret (quiet s).
Proof.
  unfold interpret.
  change (memory (quiet s)) with (memory s).
  change (program (quiet s)) with (program s).
  change (addrMP (quiet s)) with (addrMP s).
  change (addrIP (quiet s)) with (addrIP s).
  destruct (get (memory s) (u32 (addrMP s))) as [mem m].
  destruct (get (program s) (u32 (addrIP s))) as [opcode p].
  fields. change (addrIP (quiet s)) with (addrIP s).
  destruct (isInBounds p (u32 (addrIP s))); fields.
  - change (runMode (quiet s)) with (runMode s).
    destruct (runMode s); [reflexivity|..];
      rewrite execute_quiet; symmetry; by rewrite execute_quiet.
  - reflexivity.
Qed.

(** One pass, and any number of passes, do the same to everything but
    the output whether the trace is on or off. *)
Lemma loop_quiet s : quiet <$> loop s = quiet <$> loop (quiet s).
Proof.
  unfold loop. change (runMode (quiet s)) with (runMode s).
  pose proof (interpret_quiet s) as H.
  destruct (runMode s); try done;
    destruct (interpret s) as [s1|], (interpret (quiet s)) as [s2|];
    cbn [fmap option_fmap option_map mbind option_bind] in *; try done;
    assert (quiet s1 = quiet s2) as Hs by congruence;
    cbn [fmap option_fmap option_map];
    by rewrite (countdown_quiet s1), (countdown_quiet s2), Hs.
Qed.

Lemma loops_quiet n : ∀ s, quiet <$> loops n s = quiet <$> loops n (quiet s).
Proof.
  induction n as [|n IH]; intros s; [done|]. cbn [loops].
  pose proof (loop_quiet s) as H.
  destruct (loop s) as [s1|], (loop (quiet s)) as [s2|];
    cbn [fmap option_fmap option_map mbind option_bind] in *; try done.
  assert (quiet s1 = quiet s2) as Hs by congruence.
  rewrite IH. symmetry. rewrite IH. by rewrite Hs.
Qed.

(** ** Stepping *)

Lemma scanForward_steps fuel : ∀ count s s',
  scanForward fuel count s = Some s' →
  steps s' = steps s ∧ executed s' = executed s.
Proof.
  induction fuel as [|fuel IH]; intros count s s'; cbn [scanForward];
    destruct (count =? 0); try (intros [= <-]; done); try done.
  fields.
  destruct (isInBounds (program s) (u32 (s32 (addrIP s + 1)))); cbn [negb].
  - destruct (get (program s) (u32 (s32 (addrIP s + 1)))) as [opcode p].
    intros H. by apply IH in H.
  - by intros [= <-].
Qed.

Lemma scanBackward_steps fuel : ∀ count s s',
  scanBackward fuel count s = Some s' →
  steps s' = steps s ∧ executed s' = executed s.
Proof.
  induction fuel as [|fuel IH]; intros count s s'; cbn [scanBackward];
    destruct (count =? 0); try (intros [= <-]; done); try done.
  fields.
  destruct (isInBounds (program s) (u32 (s32 (addrIP s - 1)))); cbn [negb].
  - destruct (get (program s) (u32 (s32 (addrIP s - 1)))) as [opcode p].
    intros H. by apply IH in H.
  - by intros [= <-].
Qed.

Lemma caseOpen_steps mem s mem' s' :
  caseOpen mem s = Some (mem', s') →
  steps s' = steps s ∧ executed s' = executed s.
Proof.
  unfold caseOpen. destruct (mem =? 0); [|by intros [= _ <-]].
  destruct (scanForward (scanFuel s) 1 s) as [s1|] eqn:Hs; [|done].
  intros [= _ <-]. by apply scanForward_steps in Hs.
Qed.

Lemma caseClose_steps mem s mem' s' :
  caseClose mem s = Some (mem', s') →
  steps s' = steps s ∧ executed s' = executed s.
Proof.
  unfold caseClose. destruct (mem =? 0); [by intros [= _ <-]|].
  destruct (scanBackward (scanFuel s) 1 s) as [s1|] eqn:Hs; [|done].
  intros [= _ <-]. by apply scanBackward_steps in Hs.
Qed.

Lemma dispatch_steps opcode mem s mem' s' :
  dispatch opcode mem s = Some (mem', s') →
  steps s' = steps s ∧ executed s' = executed s.
Proof.
  unfold dispatch.
  repeat match goal with |- context [if ?c =? ?d then _ else _] =>
    destruct (c =? d); [try (by intros [= _ <-])|] end;
    try (by intros [= _ <-]).
  - unfold getChar. destruct (serialIn s) as [|c rest]; [done|].
    cbn [mbind option_bind]. intros H. by apply caseOpen_steps in H.
  - apply caseOpen_steps.
  - apply caseClose_steps.
Qed.

Lemma execute_steps opcode mem s s' :
  execute opcode mem s = Some s' →
  steps s' = steps s ∧ executed s' = S (executed s).
Proof.
  unfold execute.
  destruct (traceBefore_frame opcode mem s)
    as (_ & _ & _ & _ & _ & Hst & _ & Hex & _).
  destruct (dispatch opcode mem _) as [[m1 s1]|] eqn:Hd; [|done].
  cbn [mbind option_bind]. intros [= <-].
  apply dispatch_steps in Hd as [H1 H2]. fields.
  destruct (traceAfter_frame m1 (with_addrIP (s32 (addrIP s1 + 1)) s1))
    as (_ & _ & _ & _ & _ & -> & _ & -> & _).
  fields. by rewrite H1, H2, Hst, Hex.
Qed.

Lemma interpret_steps s s' :
  interpret s = Some s' → runMode s' ≠ IDLE →
  steps s' = steps s ∧ executed s' = S (executed s).
Proof.
  destruct (isInBounds (program s) (u32 (addrIP s))) eqn:Hin.
  - destruct (decide (runMode s = IDLE)) as [Hidle|Hrun].
    + unfold interpret.
      destruct (get (memory s) _) as [mem m], (get (program s) _) as [opcode p].
      fields. destruct (isInBounds p (u32 (addrIP s))); fields; rewrite ?Hidle;
        by intros [= <-].
    + rewrite interpret_inside by done. intros H _.
      by apply execute_steps in H.
  - rewrite interpret_outside by done. by intros [= <-].
Qed.

Lemma uninterrupted_le n : ∀ k s,
  (k ≤ n)%nat → uninterrupted n s = true → uninterrupted k s = true.
Proof.
  induction n as [|n IH]; intros [|k] s Hk; try done; [lia|].
  cbn [uninterrupted]. destruct (interpret s) as [s1|]; [|done].
  intros [-> H]%andb_true_iff. apply (IH k) in H; [done | lia].
Qed.

(** [k] uninterrupted passes in STEP mode with at least [k] steps left. *)
Lemma stepping_passes k : ∀ s,
  runMode s = STEP → 1 ≤ steps s ≤ 65535 → Z.of_nat k ≤ steps s →
  uninterrupted k s = true →
  ∃ s', loops k s = Some s' ∧ steps s' = steps s - Z.of_nat k ∧
        executed s' = (executed s + k)%nat ∧
        runMode s' = (if steps s =? Z.of_nat k then IDLE else STEP).
Proof.
  induction k as [|k IH]; intros s Hmode Hsteps Hk Hrun.
  - exists s. split_and!; [done | lia | lia |].
    by destruct (Z.eqb_spec (steps s) (Z.of_nat 0)); [lia|].
  - cbn [uninterrupted] in Hrun.
    destruct (interpret s) as [s1|] eqn:Hi; [|done].
    apply andb_true_iff in Hrun as [Hm1 Hrun].
    assert (Hmode1 : runMode s1 = STEP) by (by destruct (runMode s1)).
    destruct (interpret_steps s s1 Hi) as [Hst Hex]; [by rewrite Hmode1|].
    cbn [loops]. unfold loop. rewrite Hmode, Hi. cbn [mbind option_bind].
    assert (Hcd : steps (countdown s1) = steps s - 1 ∧
                  executed (countdown s1) = S (executed s) ∧
                  runMode (countdown s1)
                  = (if steps s =? 1 then IDLE else STEP)).
    { destruct (countdown_frame s1) as (_ & _ & _ & _ & _ & -> & _).
      unfold countdown. rewrite Hmode1. fields. rewrite Hst.
      rewrite u16_small by lia.
      destruct (Z.eqb_spec (steps s - 1) 0), (Z.eqb_spec (steps s) 1);
        try lia; fields; by rewrite ?Hmode1. }
    destruct Hcd as (Hst' & Hex' & Hmode').
    destruct (Z.eqb_spec (steps s) 1) as [H1|H1].
    + assert (k = O) as -> by lia. cbn [loops].
      exists (countdown s1). split_and!; [done | lia | lia |].
      by destruct (Z.eqb_spec (steps s) (Z.of_nat 1)); [|lia].
    + destruct (IH (countdown s1)) as (s' & Hl & Hs' & He' & Hm');
        [done | lia | lia | done |].
      exists s'. split_and!; [done | lia | lia |].
      rewrite Hm', Hst'.
      destruct (Z.eqb_spec (steps s - 1) (Z.of_nat k)),
               (Z.eqb_spec (steps s) (Z.of_nat (S k))); (done || lia).
Qed.

(** C6, as the code has it.  For 1 <= n <= 65535, [step n] (n = 1 when the
    parameter is empty) puts the explorer in STEP with the count n.  If the
    interpreter does not idle by itself during the next n passes, every
    one of these passes executes one instruction and takes 1 off the
    count: after k < n passes the explorer is still in STEP with n - k
    steps left, after the n-th it is in IDLE with the count at 0, having
    executed exactly n instructions.  After any number of passes the
    explorer is, but for its output, the same whether the trace was on or
    off. *)
Theorem stepping_executes_n (s : Explorer) (p : Param) (n : Z) :
  1 ≤ n ≤ 65535 →
  (text p = ""%string → n = 1) →
  (text p ≠ ""%string → number p = n) →
  uninterrupted (Z.to_nat n) (handlerS p s) = true →
  runMode (handlerS p s) = STEP ∧ steps (handlerS p s) = n ∧
  (∀ k : nat, (k < Z.to_nat n)%nat →
     ∃ sk, loops k (handlerS p s) = Some sk ∧ runMode sk = STEP ∧
           steps sk = n - Z.of_nat k ∧ executed sk = (executed s + k)%nat) ∧
  (∃ sn, loops (Z.to_nat n) (handlerS p s) = Some sn ∧ runMode sn = IDLE ∧
         steps sn = 0 ∧ executed sn = (executed s + Z.to_nat n)%nat) ∧
  (∀ (b : bool) (k : nat),
     quiet <$> loops k (handlerS p (with_listRunning b s))
     = quiet <$> loops k (handlerS p s)).
Proof.
  intros Hn Hempty Hgiven Hrun.
  assert (Hmode : runMode (handlerS p s) = STEP).
  { unfold handlerS. by destruct (String.eqb (text p) ""). }
  assert (Hsteps : steps (handlerS p s) = n).
  { unfold handlerS. destruct (String.eqb_spec (text p) "") as [He|He]; fields.
    - by rewrite Hempty.
    - rewrite Hgiven by done. apply u16_small. lia. }
  assert (Hex : executed (handlerS p s) = executed s).
  { unfold handlerS. by destruct (String.eqb (text p) ""). }
  split_and!; [done | done | | |].
  - intros k Hk.
    destruct (stepping_passes k (handlerS p s)) as (sk & Hl & Hs & He & Hm);
      [done | lia | lia | by apply (uninterrupted_le (Z.to_nat n)); [lia|] |].
    exists sk. split_and!; [done | | lia | lia].
    rewrite Hm. by destruct (Z.eqb_spec (steps (handlerS p s)) (Z.of_nat k)); [lia|].
  - destruct (stepping_passes (Z.to_nat n) (handlerS p s))
      as (sn & Hl & Hs & He & Hm); [done | lia | lia | done |].
    exists sn. split_and!; [done | | lia | lia].
    rewrite Hm.
    by destruct (Z.eqb_spec (steps (handlerS p s)) (Z.of_nat (Z.to_nat n))); [|lia].
  - intros b k. rewrite loops_quiet. symmetry. rewrite loops_quiet.
    f_equal. f_equal. unfold handlerS.
    by destruct (String.eqb (text p) "").
Qed.

Lemma stepping_executes_n_witness :
  ∃ sn, loops 2 (handlerS (mkParam "2" 2)
                   (explorerOn (bytes "+++") (replicate 300 0) IDLE)) = Some sn ∧
        runMode sn = IDLE ∧ steps sn = 0 ∧ executed sn = 2%nat.
Proof.
  destruct (stepping_executes_n
              (explorerOn (bytes "+++") (replicate 300 0) IDLE) (mkParam "2" 2) 2)
    as (_ & _ & _ & Hn & _).
  - lia.
  - discriminate.
  - reflexivity.
  - by vm_compute.
  - exact Hn.
Defined.

(** Stepping does not always execute as many instructions as asked for:
    the count is a 16-bit number, so [step 65537] is one step; and on the
    one-byte program [+] a [step 5] ends in IDLE after two instructions,
    with three steps left, because the instruction pointer has left the
    program. *)
Lemma stepping_may_execute_fewer :
  let s := explorerOn (bytes "+++") (replicate 300 0) IDLE in
  let t := explorerOn (bytes "+") (replicate 300 0) IDLE in
  steps (handlerS (mkParam "65537" 65537) s) = 1 ∧
  ((λ x, (runMode x, executed x)) <$> loops 1 (handlerS (mkParam "65537" 65537) s))
  = Some (IDLE, 1%nat) ∧
  ((λ x, (runMode x, steps x, executed x)) <$> loops 3 (handlerS (mkParam "5" 5) t))
  = Some (IDLE, 3, 2%nat) ∧
  ((λ x, (runMode x, steps x, executed x)) <$> loops 5 (handlerS (mkParam "5" 5) t))
  = Some (IDLE, 3, 2%nat).
Proof. split_and!; by vm_compute. Qed.

(** ** Bracket scans over a nested stretch of program text *)

Lemma bump_other up down b count : b ≠ up → b ≠ down → bump up down b count = count.
Proof.
  intros H1 H2. unfold bump.
  destruct (Z.eqb_spec b up), (Z.eqb_spec b down); done.
Qed.

Lemma bump_up up down count :
  up ≠ down → 0 ≤ count < 65535 → bump up down up count = count + 1.
Proof.
  intros H1 H2. unfold bump. rewrite Z.eqb_refl.
  destruct (Z.eqb_spec up down); [done|]. apply u16_small. lia.
Qed.

Lemma bump_down up down count :
  up ≠ down → 1 ≤ count ≤ 65535 → bump up down down count = count - 1.
Proof.
  intros H1 H2. unfold bump.
  destruct (Z.eqb_spec down up); [done|]. rewrite Z.eqb_refl.
  apply u16_small. lia.
Qed.

Section ScanOver.

(** A scanner of any kind: a state with a position in the text [prog], kept
    in a condition [ok], that moves by [dir] each round. *)
Variables (St : Type) (pos : St → Z) (ok : St → Prop) (prog : list Z).
Variable scan : nat → Z → St → option St.
Variables up down dir : Z.

Hypothesis scan_round : ∀ fuel count s b,
  ok s → count ≠ 0 → 0 ≤ pos s + dir →
  prog !! Z.to_nat (pos s + dir) = Some b →
  ∃ s1, ok s1 ∧ pos s1 = pos s + dir ∧
        scan (S fuel) count s = scan fuel (bump up down b count) s1.

(** Forward over a nested stretch lying right after the position: the
    counter comes back to what it was. *)
Lemma scan_over_forward d l :
  nested d l → dir = 1 → up = ch "[" → down = ch "]" →
  ∀ count fuel s,
    ok s → 1 ≤ count → count + Z.of_nat d ≤ 65535 → 0 ≤ pos s + 1 →
    (∀ i : nat, (i < length l)%nat →
       prog !! (Z.to_nat (pos s + 1) + i)%nat = l !! i) →
    ∃ s', ok s' ∧ pos s' = pos s + Z.of_nat (length l) ∧
          scan (length l + fuel) count s = scan fuel count s'.
Proof.
  intros Hn -> -> ->.
  induction Hn as [d|d c l Hc1 Hc2 Hn IH|d l1 l2 Hn1 IH1 Hn2 IH2];
    intros count fuel s Hok Hc Hd Hp Htext.
  - exists s. split_and!; [done | cbn; lia | done].
  - destruct (scan_round (length l + fuel) count s c) as (s1 & Hok1 & Hp1 & Hs1);
      [done | lia | done | |].
    { trans ((c :: l) !! 0%nat); [|done].
      rewrite <- Htext by (cbn; lia). f_equal. lia. }
    destruct (IH count fuel s1) as (s' & Hok' & Hp' & Hs'); [done..|lia| |].
    { intros i Hi. trans ((c :: l) !! S i); [|done].
      rewrite <- Htext by (cbn; lia). f_equal. lia. }
    exists s'. split_and!; [done | cbn [length]; lia |].
    cbn [length Nat.add]. rewrite Hs1, bump_other by done. exact Hs'.
  - rewrite length_cons, length_app, length_cons in *.
    destruct (scan_round (length l1 + S (length l2 + fuel)) count s (ch "["))
      as (s1 & Hok1 & Hp1 & Hs1); [done | lia | done | |].
    { trans ((ch "[" :: l1 ++ ch "]" :: l2) !! 0%nat); [|done].
      rewrite <- Htext by lia. f_equal. lia. }
    rewrite bump_up in Hs1 by (done || lia).
    destruct (IH1 (count + 1) (S (length l2 + fuel)) s1)
      as (s2 & Hok2 & Hp2 & Hs2); [done | lia | lia | lia | |].
    { intros i Hi. trans ((ch "[" :: l1 ++ ch "]" :: l2) !! S i).
      - rewrite <- Htext by lia. f_equal. lia.
      - rewrite lookup_cons_ne_0 by lia. cbn [pred]. by rewrite lookup_app_l by lia. }
    destruct (scan_round (length l2 + fuel) (count + 1) s2 (ch "]"))
      as (s3 & Hok3 & Hp3 & Hs3); [done | lia | lia | |].
    { replace (Z.to_nat (pos s2 + 1))
        with (Z.to_nat (pos s + 1) + S (length l1))%nat by lia.
      rewrite Htext by lia. rewrite lookup_cons_ne_0 by lia. cbn [pred].
      rewrite lookup_app_r by lia. by rewrite Nat.sub_diag. }
    rewrite bump_down in Hs3 by (done || lia).
    replace (count + 1 - 1) with count in Hs3 by lia.
    destruct (IH2 count fuel s3) as (s4 & Hok4 & Hp4 & Hs4);
      [done | lia | lia | lia | |].
    { intros i Hi.
      replace (Z.to_nat (pos s3 + 1) + i)%nat
        with (Z.to_nat (pos s + 1) + S (length l1 + S i))%nat by lia.
      rewrite Htext by lia. rewrite lookup_cons_ne_0 by lia. cbn [pred].
      rewrite lookup_app_r by lia.
      replace (length l1 + S i - length l1)%nat with (S i) by lia. done. }
    exists s4. split_and!; [done | lia |].
    replace (S (length l1 + S (length l2)) + fuel)%nat
      with (S (length l1 + S (length l2 + fuel))) by lia.
    by rewrite Hs1, Hs2, Hs3.
Qed.

(** Backward over a nested stretch lying right before the position. *)
Lemma scan_over_backward d l :
  nested d l → dir = -1 → up = ch "]" → down = ch "[" →
  ∀ count fuel s,
    ok s → 1 ≤ count → count + Z.of_nat d ≤ 65535 →
    0 ≤ pos s - Z.of_nat (length l) →
    (∀ i : nat, (i < length l)%nat →
       prog !! (Z.to_nat (pos s - Z.of_nat (length l)) + i)%nat = l !! i) →
    ∃ s', ok s' ∧ pos s' = pos s - Z.of_nat (length l) ∧
          scan (length l + fuel) count s = scan fuel count s'.
Proof.
  intros Hn -> -> ->.
  induction Hn as [d|d c l Hc1 Hc2 Hn IH|d l1 l2 Hn1 IH1 Hn2 IH2];
    intros count fuel s Hok Hc Hd Hp Htext.
  - exists s. split_and!; [done | cbn; lia | done].
  - rewrite length_cons in *.
    destruct (IH count (S fuel) s) as (s1 & Hok1 & Hp1 & Hs1); [done..|lia| |].
    { intros i Hi.
      replace (Z.to_nat (pos s - Z.of_nat (length l)) + i)%nat
        with (Z.to_nat (pos s - Z.of_nat (S (length l))) + S i)%nat by lia.
      by rewrite Htext by lia. }
    destruct (scan_round fuel count s1 c) as (s2 & Hok2 & Hp2 & Hs2);
      [done | lia | lia | |].
    { replace (Z.to_nat (pos s1 + -1))
        with (Z.to_nat (pos s - Z.of_nat (S (length l))) + 0)%nat by lia.
      by rewrite Htext by lia. }
    exists s2. split_and!; [done | lia |].
    replace (S (length l) + fuel)%nat with (length l + S fuel)%nat by lia.
    by rewrite Hs1, Hs2, bump_other.
  - rewrite length_cons, length_app, length_cons in *.
    set (base := Z.to_nat (pos s - Z.of_nat (S (length l1 + S (length l2))))) in *.
    destruct (IH2 count (S (length l1 + S fuel)) s)
      as (s1 & Hok1 & Hp1 & Hs1); [done | lia | lia | lia | |].
    { intros i Hi.
      replace (Z.to_nat (pos s - Z.of_nat (length l2)) + i)%nat
        with (base + S (length l1 + S i))%nat by lia.
      rewrite Htext by lia. rewrite lookup_cons_ne_0 by lia. cbn [pred].
      rewrite lookup_app_r by lia.
      replace (length l1 + S i - length l1)%nat with (S i) by lia. done. }
    destruct (scan_round (length l1 + S fuel) count s1 (ch "]"))
      as (s2 & Hok2 & Hp2 & Hs2); [done | lia | lia | |].
    { replace (Z.to_nat (pos s1 + -1)) with (base + S (length l1))%nat by lia.
      rewrite Htext by lia. rewrite lookup_cons_ne_0 by lia. cbn [pred].
      rewrite lookup_app_r by lia. by rewrite Nat.sub_diag. }
    rewrite bump_up in Hs2 by (done || lia).
    destruct (IH1 (count + 1) (S fuel) s2)
      as (s3 & Hok3 & Hp3 & Hs3); [done | lia | lia | lia | |].
    { intros i Hi.
      replace (Z.to_nat (pos s2 - Z.of_nat (length l1)) + i)%nat
        with (base + S i)%nat by lia.
      rewrite Htext by lia. rewrite lookup_cons_ne_0 by lia. cbn [pred].
      by rewrite lookup_app_l by lia. }
    destruct (scan_round fuel (count + 1) s3 (ch "["))
      as (s4 & Hok4 & Hp4 & Hs4); [done | lia | lia | |].
    { replace (Z.to_nat (pos s3 + -1)) with (base + 0)%nat by lia.
      by rewrite Htext by lia. }
    rewrite bump_down in Hs4 by (done || lia).
    replace (count + 1 - 1) with count in Hs4 by lia.
    exists s4. split_and!; [done | lia |].
    replace (S (length l1 + S (length l2)) + fuel)%nat
      with (length l2 + S (length l1 + S fuel))%nat by lia.
    by rewrite Hs1, Hs2, Hs3, Hs4.
Qed.

End ScanOver.

(** ** The scans of the explorer *)

Lemma progHolds_get prog s addr b :
  progHolds prog s → 0 ≤ addr → prog !! Z.to_nat addr = Some b →
  isInBounds (program s) (u32 addr) = true ∧
  fst (get (program s) (u32 addr)) = b ∧
  ∀ s', program s' = snd (get (program s) (u32 addr)) → progHolds prog s'.
Proof.
  intros (Hwf & Hv & Hf & Hlen) Ha Hb.
  pose proof (lookup_lt_Some _ _ _ Hb).
  rewrite u32_small by lia.
  assert (Hin : within (program s) addr).
  { split; [done|]. unfold isInBounds. apply Z.leb_le. lia. }
  destruct (get_spec _ _ Hwf Hin) as (Hwf' & Hv' & Hf' & _ & Hget).
  split_and!.
  - apply Hin.
  - apply Hget. by rewrite Hv.
  - intros s' Hs'. unfold progHolds. rewrite Hs', Hv', Hf'. by split_and!.
Qed.

Lemma scanForward_round prog fuel count s b :
  progHolds prog s → count ≠ 0 → 0 ≤ addrIP s + 1 →
  prog !! Z.to_nat (addrIP s + 1) = Some b →
  ∃ s1, progHolds prog s1 ∧ addrIP s1 = addrIP s + 1 ∧
        scanForward (S fuel) count s
        = scanForward fuel (bump (ch "[") (ch "]") b count) s1.
Proof.
  intros Hok Hc Ha Hb. pose proof (lookup_lt_Some _ _ _ Hb).
  destruct Hok as (Hwf & Hv & Hf & Hlen).
  destruct (progHolds_get prog s (addrIP s + 1) b) as (Hin & Hget & Hnext);
    [done..|].
  exists (with_program (snd (get (program s) (u32 (addrIP s + 1))))
                       (with_addrIP (addrIP s + 1) s)).
  split_and!; [by apply Hnext | done |].
  cbn [scanForward]. destruct (Z.eqb_spec count 0); [done|]. fields.
  rewrite s32_small by lia. rewrite Hin. cbn [negb].
  destruct (get (program s) (u32 (addrIP s + 1))) as [opcode p].
  cbn [fst snd] in *. by subst opcode.
Qed.

Lemma scanBackward_round prog fuel count s b :
  progHolds prog s → count ≠ 0 → 0 ≤ addrIP s + -1 →
  prog !! Z.to_nat (addrIP s + -1) = Some b →
  ∃ s1, progHolds prog s1 ∧ addrIP s1 = addrIP s + -1 ∧
        scanBackward (S fuel) count s
        = scanBackward fuel (bump (ch "]") (ch "[") b count) s1.
Proof.
  intros Hok Hc Ha Hb. pose proof (lookup_lt_Some _ _ _ Hb).
  destruct Hok as (Hwf & Hv & Hf & Hlen).
  destruct (progHolds_get prog s (addrIP s + -1) b) as (Hin & Hget & Hnext);
    [done..|].
  exists (with_program (snd (get (program s) (u32 (addrIP s + -1))))
                       (with_addrIP (addrIP s + -1) s)).
  split_and!; [by apply Hnext | done |].
  cbn [scanBackward]. destruct (Z.eqb_spec count 0); [done|]. fields.
  replace (addrIP s - 1) with (addrIP s + -1) by lia.
  rewrite s32_small by lia. rewrite Hin. cbn [negb].
  destruct (get (program s) (u32 (addrIP s + -1))) as [opcode p].
  cbn [fst snd] in *. by subst opcode.
Qed.

Lemma scanForward_done fuel s : scanForward fuel 0 s = Some s.
Proof. by destruct fuel. Qed.

Lemma scanBackward_done fuel s : scanBackward fuel 0 s = Some s.
Proof. by destruct fuel. Qed.

(** The text around one loop: [pre], the loop with its [body], [post]. *)
Lemma loop_text_lookup (pre body post : list Z) :
  let prog := pre ++ ch "[" :: body ++ ch "]" :: post in
  prog !! length pre = Some (ch "[") ∧
  prog !! (length pre + S (length body))%nat = Some (ch "]") ∧
  (∀ i : nat, (i < length body)%nat →
     prog !! (length pre + 1 + i)%nat = body !! i) ∧
  length prog = (length pre + S (length body + S (length post)))%nat.
Proof.
  cbn zeta. split_and!.
  - rewrite lookup_app_r by lia. by rewrite Nat.sub_diag.
  - rewrite lookup_app_r by lia.
    replace (length pre + S (length body) - length pre)%nat
      with (S (length body)) by lia.
    rewrite lookup_cons_ne_0 by lia. cbn [pred].
    rewrite lookup_app_r by lia. by rewrite Nat.sub_diag.
  - intros i Hi. rewrite lookup_app_r by lia.
    replace (length pre + 1 + i - length pre)%nat with (S i) by lia.
    rewrite lookup_cons_ne_0 by lia. cbn [pred]. by rewrite lookup_app_l by lia.
  - rewrite length_app, length_cons, length_app, length_cons. lia.
Qed.

Lemma afterFetch_progHolds prog s b opcode mem :
  progHolds prog s → 0 ≤ addrIP s → prog !! Z.to_nat (addrIP s) = Some b →
  isInBounds (program s) (u32 (addrIP s)) = true ∧ fetched s = b ∧
  progHolds prog (with_executed (S (executed (afterFetch s)))
                    (traceBefore opcode mem (afterFetch s))) ∧
  addrIP (with_executed (S (executed (afterFetch s)))
            (traceBefore opcode mem (afterFetch s))) = addrIP s ∧
  scanFuel (with_executed (S (executed (afterFetch s)))
              (traceBefore opcode mem (afterFetch s)))
  = S (S (length prog)).
Proof.
  intros Hok Ha Hb.
  destruct (progHolds_get prog s (addrIP s) b Hok Ha Hb) as (Hin & Hget & Hnext).
  destruct (traceBefore_frame opcode mem (afterFetch s)) as (Hp & _ & Hi & _).
  assert (Hprog : progHolds prog (with_executed (S (executed (afterFetch s)))
                                    (traceBefore opcode mem (afterFetch s))))
    by (apply Hnext; fields; by rewrite Hp).
  split_and!; [done | done | done | fields; by rewrite Hi |].
  unfold scanFuel. destruct Hprog as (_ & _ & -> & _). lia.
Qed.

Lemma explorer_jump_forward pre body post d s :
  nested d body → Z.of_nat d < 65535 →
  progHolds (pre ++ ch "[" :: body ++ ch "]" :: post) s →
  runMode s ≠ IDLE → addrIP s = Z.of_nat (length pre) → cell s = 0 →
  ∃ s', loop s = Some s' ∧
        addrIP s' = Z.of_nat (length pre) + Z.of_nat (length body) + 2.
Proof.
  intros Hn Hd Hok Hrun Hip Hcell.
  set (prog := pre ++ ch "[" :: body ++ ch "]" :: post) in *.
  destruct (loop_text_lookup pre body post) as (Hopen & Hclose & Hbody & Hlen).
  fold prog in Hopen, Hclose, Hbody, Hlen.
  assert (Hlt : Z.of_nat (length prog) < 2147483648) by apply Hok.
  destruct (afterFetch_progHolds prog s (ch "[") (fetched s) (cell s))
    as (Hin & Hf & Hok0 & Hip0 & Hfuel); [done | lia | by rewrite Hip, Nat2Z.id |].
  set (x := with_executed _ _) in *.
  destruct (scan_over_forward Explorer addrIP (progHolds prog) prog scanForward
              (ch "[") (ch "]") 1 (scanForward_round prog) d body Hn
              eq_refl eq_refl eq_refl 1
              (S (length pre + length post + 3)) x)
    as (s1 & Hok1 & Hip1 & Hs1); [done | lia | lia | lia | |].
  { intros i Hi. rewrite <- Hbody by done. f_equal. lia. }
  destruct (scanForward_round prog (length pre + length post + 3) 1 s1 (ch "]"))
    as (s2 & Hok2 & Hip2 & Hs2); [done | lia | lia | |].
  { rewrite <- Hclose. f_equal. lia. }
  assert (Hd0 : dispatch (fetched s) (cell s) x = Some (0, s2)).
  { rewrite Hf, Hcell.
    change (dispatch (ch "[") 0 x) with (caseOpen 0 x).
    unfold caseOpen. cbn [Z.eqb]. rewrite Hfuel.
    replace (S (S (length prog)))
      with (length body + S (length pre + length post + 3))%nat by lia.
    rewrite Hs1, Hs2. rewrite bump_down by (done || lia).
    by rewrite scanForward_done. }
  eexists. split; [by apply loop_inside|].
  match goal with |- addrIP (countdown ?y) = _ =>
    destruct (countdown_frame y) as (_ & _ & -> & _) end.
  match goal with |- addrIP (traceAfter ?v ?y) = _ =>
    destruct (traceAfter_frame v y) as (_ & _ & -> & _) end.
  fields. rewrite s32_small; lia.
Qed.

Lemma explorer_jump_backward pre body post d s :
  nested d body → Z.of_nat d < 65535 →
  progHolds (pre ++ ch "[" :: body ++ ch "]" :: post) s →
  runMode s ≠ IDLE →
  addrIP s = Z.of_nat (length pre) + Z.of_nat (length body) + 1 →
  cell s ≠ 0 →
  ∃ s', loop s = Some s' ∧ addrIP s' = Z.of_nat (length pre) + 1.
Proof.
  intros Hn Hd Hok Hrun Hip Hcell.
  set (prog := pre ++ ch "[" :: body ++ ch "]" :: post) in *.
  destruct (loop_text_lookup pre body post) as (Hopen & Hclose & Hbody & Hlen).
  fold prog in Hopen, Hclose, Hbody, Hlen.
  assert (Hlt : Z.of_nat (length prog) < 2147483648) by apply Hok.
  destruct (afterFetch_progHolds prog s (ch "]") (fetched s) (cell s))
    as (Hin & Hf & Hok0 & Hip0 & Hfuel); [done | lia | |].
  { rewrite <- Hclose. f_equal. lia. }
  set (x := with_executed _ _) in *.
  destruct (scan_over_backward Explorer addrIP (progHolds prog) prog scanBackward
              (ch "]") (ch "[") (-1) (scanBackward_round prog) d body Hn
              eq_refl eq_refl eq_refl 1
              (S (length pre + length post + 3)) x)
    as (s1 & Hok1 & Hip1 & Hs1); [done | lia | lia | lia | |].
  { intros i Hi. rewrite <- Hbody by done. f_equal. lia. }
  destruct (scanBackward_round prog (length pre + length post + 3) 1 s1 (ch "["))
    as (s2 & Hok2 & Hip2 & Hs2); [done | lia | lia | |].
  { rewrite <- Hopen. f_equal. lia. }
  assert (Hd0 : dispatch (fetched s) (cell s) x = Some (cell s, s2)).
  { rewrite Hf.
    change (dispatch (ch "]") (cell s) x) with (caseClose (cell s) x).
    unfold caseClose. destruct (Z.eqb_spec (cell s) 0); [done|]. rewrite Hfuel.
    replace (S (S (length prog)))
      with (length body + S (length pre + length post + 3))%nat by lia.
    rewrite Hs1, Hs2. rewrite bump_down by (done || lia).
    by rewrite scanBackward_done. }
  eexists. split; [by apply loop_inside|].
  match goal with |- addrIP (countdown ?y) = _ =>
    destruct (countdown_frame y) as (_ & _ & -> & _) end.
  match goal with |- addrIP (traceAfter ?v ?y) = _ =>
    destruct (traceAfter_frame v y) as (_ & _ & -> & _) end.
  fields. rewrite s32_small; lia.
Qed.

(** ** The scans of BF-run *)

Lemma bfrun_read prog (i : Z) b :
  prog !! Z.to_nat i = Some b → BFRun.pgm_read_byte prog i = Some b.
Proof.
  intros Hb. unfold BFRun.pgm_read_byte. by apply lookup_app_l_Some.
Qed.

Lemma bfrun_scanForward_round prog fuel count (i : Z) b :
  Z.of_nat (length prog) ≤ 65535 → count ≠ 0 → 0 ≤ i + 1 →
  prog !! Z.to_nat (i + 1) = Some b →
  ∃ i1 : Z, True ∧ i1 = i + 1 ∧
    BFRun.scanForward prog (S fuel) count i
    = BFRun.scanForward prog fuel (bump (ch "[") (ch "]") b count) i1.
Proof.
  intros Hlen Hc Hi Hb. pose proof (lookup_lt_Some _ _ _ Hb).
  exists (i + 1). split_and!; [done..|].
  cbn [BFRun.scanForward]. destruct (Z.eqb_spec count 0); [done|].
  rewrite (u16_small (i + 1)) by lia. by rewrite (bfrun_read prog (i + 1) b).
Qed.

Lemma bfrun_scanBackward_round prog fuel count (i : Z) b :
  Z.of_nat (length prog) ≤ 65535 → count ≠ 0 → 0 ≤ i + -1 →
  prog !! Z.to_nat (i + -1) = Some b →
  ∃ i1 : Z, True ∧ i1 = i + -1 ∧
    BFRun.scanBackward prog (S fuel) count i
    = BFRun.scanBackward prog fuel (bump (ch "]") (ch "[") b count) i1.
Proof.
  intros Hlen Hc Hi Hb. pose proof (lookup_lt_Some _ _ _ Hb).
  exists (i + -1). split_and!; [done..|].
  cbn [BFRun.scanBackward]. destruct (Z.eqb_spec count 0); [done|].
  replace (i - 1) with (i + -1) by lia.
  rewrite (u16_small (i + -1)) by lia. by rewrite (bfrun_read prog (i + -1) b).
Qed.

Lemma bfrun_scanForward_done prog fuel i :
  BFRun.scanForward prog fuel 0 i = Some i.
Proof. by destruct fuel. Qed.

Lemma bfrun_scanBackward_done prog fuel i :
  BFRun.scanBackward prog fuel 0 i = Some i.
Proof. by destruct fuel. Qed.

Lemma bfrun_jump_forward pre body post d st :
  let prog := pre ++ ch "[" :: body ++ ch "]" :: post in
  nested d body → Z.of_nat d < 65535 → Z.of_nat (length prog) ≤ 65535 →
  BFRun.ip st = Z.of_nat (length pre) → BFRun.deref st = Some 0 →
  ∃ st', BFRun.loop prog st = Some st' ∧
         BFRun.ip st' = Z.of_nat (length pre) + Z.of_nat (length body) + 2.
Proof.
  intros prog Hn Hd Hlen Hip Hcell.
  destruct (loop_text_lookup pre body post) as (Hopen & Hclose & Hbody & Hl).
  fold prog in Hopen, Hclose, Hbody, Hl.
  destruct (scan_over_forward Z (λ i, i) (λ _, True) prog (BFRun.scanForward prog)
              (ch "[") (ch "]") 1
              (λ fuel count i b _, bfrun_scanForward_round prog fuel count i b Hlen)
              d body Hn eq_refl eq_refl eq_refl 1
              (S (length pre + length post + 3)) (BFRun.ip st))
    as (i1 & _ & Hi1 & Hs1); [done | lia | lia | lia | |].
  { intros i Hi. rewrite <- Hbody by done. f_equal. lia. }
  destruct (bfrun_scanForward_round prog (length pre + length post + 3) 1 i1 (ch "]"))
    as (i2 & _ & Hi2 & Hs2); [done | lia | lia | |].
  { rewrite <- Hclose. f_equal. lia. }
  unfold BFRun.loop.
  rewrite (bfrun_read prog (BFRun.ip st) (ch "["))
    by (by rewrite Hip, Nat2Z.id).
  cbn [mbind option_bind].
  change (BFRun.dispatch prog (ch "[") st)
    with (v ← BFRun.deref st;
          if v =? 0
          then i ← BFRun.scanForward prog (BFRun.scanFuel prog) 1 (BFRun.ip st);
               Some (BFRun.with_ip i st)
          else Some st).
  rewrite Hcell. cbn [mbind option_bind Z.eqb]. unfold BFRun.scanFuel.
  replace (S (S (length prog)))
    with (length body + S (length pre + length post + 3))%nat by lia.
  rewrite Hs1, Hs2. rewrite bump_down by (done || lia).
  rewrite bfrun_scanForward_done. cbn [mbind option_bind].
  eexists. split; [reflexivity|].
  change (ch "[" =? 0) with false. cbn [BFRun.ip BFRun.with_ip].
  rewrite u16_small; lia.
Qed.

Lemma bfrun_jump_backward pre body post d st v :
  let prog := pre ++ ch "[" :: body ++ ch "]" :: post in
  nested d body → Z.of_nat d < 65535 → Z.of_nat (length prog) ≤ 65535 →
  BFRun.ip st = Z.of_nat (length pre) + Z.of_nat (length body) + 1 →
  BFRun.deref st = Some v → v ≠ 0 →
  ∃ st', BFRun.loop prog st = Some st' ∧
         BFRun.ip st' = Z.of_nat (length pre) + 1.
Proof.
  intros prog Hn Hd Hlen Hip Hcell Hv.
  destruct (loop_text_lookup pre body post) as (Hopen & Hclose & Hbody & Hl).
  fold prog in Hopen, Hclose, Hbody, Hl.
  destruct (scan_over_backward Z (λ i, i) (λ _, True) prog (BFRun.scanBackward prog)
              (ch "]") (ch "[") (-1)
              (λ fuel count i b _, bfrun_scanBackward_round prog fuel count i b Hlen)
              d body Hn eq_refl eq_refl eq_refl 1
              (S (length pre + length post + 3)) (BFRun.ip st))
    as (i1 & _ & Hi1 & Hs1); [done | lia | lia | lia | |].
  { intros i Hi. rewrite <- Hbody by done. f_equal. lia. }
  destruct (bfrun_scanBackward_round prog (length pre + length post + 3) 1 i1 (ch "["))
    as (i2 & _ & Hi2 & Hs2); [done | lia | lia | |].
  { rewrite <- Hopen. f_equal. lia. }
  unfold BFRun.loop.
  rewrite (bfrun_read prog (BFRun.ip st) (ch "]"))
    by (rewrite <- Hclose; f_equal; lia).
  cbn [mbind option_bind].
  change (BFRun.dispatch prog (ch "]") st)
    with (v ← BFRun.deref st;
          if v =? 0
          then Some st
          else i ← BFRun.scanBackward prog (BFRun.scanFuel prog) 1 (BFRun.ip st);
               Some (BFRun.with_ip i st)).
  rewrite Hcell. cbn [mbind option_bind].
  destruct (Z.eqb_spec v 0); [done|]. unfold BFRun.scanFuel.
  replace (S (S (length prog)))
    with (length body + S (length pre + length post + 3))%nat by lia.
  rewrite Hs1, Hs2. rewrite bump_down by (done || lia).
  rewrite bfrun_scanBackward_done. cbn [mbind option_bind].
  eexists. split; [reflexivity|].
  change (ch "]" =? 0) with false. cbn [BFRun.ip BFRun.with_ip].
  rewrite u16_small; lia.
Qed.

Lemma explorerOn_progHolds prog mem mode a :
  Z.of_nat (length prog) < 2147483648 →
  progHolds prog (with_addrIP a (explorerOn prog mem mode)).
Proof.
  intros Hlen. unfold progHolds, explorerOn. fields.
  destruct (begin_wf (unopened 200 (replicate 200 0)) prog) as (? & ? & ? & _);
    [by cbn | done | lia |].
  by split_and!.
Qed.

Lemma nested_replicate n :
  nested n (replicate n (ch "[") ++ replicate n (ch "]")).
Proof.
  induction n as [|n IH]; [constructor|].
  rewrite replicate_S, (replicate_S_end n (ch "]")).
  rewrite app_assoc. cbn [app].
  change (nested (S n) (ch "[" :: (replicate n (ch "[") ++ replicate n (ch "]"))
                          ++ ch "]" :: [])).
  apply nested_loop; [done | constructor].
Qed.

(** C1, as the code has it.  Let the program be [pre], a loop [[ body ]]
    and [post], where the brackets of [body] are balanced and nest less
    than 65535 deep (the counter of the scan is a 16-bit number).  A pass
    of the explorer over the opening bracket with the current cell at zero
    ends with the instruction pointer one past the matching closing
    bracket; a pass over the closing bracket with the cell not zero ends
    with it one past the matching opening bracket.  The same holds of
    BF-run for a program of at most 65535 characters. *)
Theorem bracket_jumps_land_past_the_match
    (pre body post : list Z) (d : nat) (s : Explorer) (st : BFRun.State) (v : Z) :
  nested d body → Z.of_nat d < 65535 →
  progHolds (pre ++ ch "[" :: body ++ ch "]" :: post) s →
  runMode s ≠ IDLE →
  (addrIP s = Z.of_nat (length pre) → cell s = 0 →
     ∃ s', loop s = Some s' ∧
           addrIP s' = Z.of_nat (length pre) + Z.of_nat (length body) + 2) ∧
  (addrIP s = Z.of_nat (length pre) + Z.of_nat (length body) + 1 → cell s ≠ 0 →
     ∃ s', loop s = Some s' ∧ addrIP s' = Z.of_nat (length pre) + 1) ∧
  (Z.of_nat (length (pre ++ ch "[" :: body ++ ch "]" :: post)) ≤ 65535 →
   BFRun.ip st = Z.of_nat (length pre) → BFRun.deref st = Some 0 →
     ∃ st', BFRun.loop (pre ++ ch "[" :: body ++ ch "]" :: post) st = Some st' ∧
            BFRun.ip st' = Z.of_nat (length pre) + Z.of_nat (length body) + 2) ∧
  (Z.of_nat (length (pre ++ ch "[" :: body ++ ch "]" :: post)) ≤ 65535 →
   BFRun.ip st = Z.of_nat (length pre) + Z.of_nat (length body) + 1 →
   BFRun.deref st = Some v → v ≠ 0 →
     ∃ st', BFRun.loop (pre ++ ch "[" :: body ++ ch "]" :: post) st = Some st' ∧
            BFRun.ip st' = Z.of_nat (length pre) + 1).
Proof.
  intros Hn Hd Hok Hrun. split_and!.
  - intros Hip Hcell. by apply (explorer_jump_forward pre body post d).
  - intros Hip Hcell. by apply (explorer_jump_backward pre body post d).
  - intros Hlen Hip Hcell. by apply (bfrun_jump_forward pre body post d).
  - intros Hlen Hip Hcell Hv. by apply (bfrun_jump_backward pre body post d st v).
Qed.

Lemma bracket_jumps_land_past_the_match_witness :
  (∃ s', loop (with_addrIP 1 (explorerOn (bytes "+[-[+]>].") (replicate 300 0) RUN))
         = Some s' ∧ addrIP s' = 8) ∧
  (∃ st', BFRun.loop (bytes "+[-[+]>].")
            (BFRun.mkState 7 (<[0%nat := 3]> (replicate 400 0)) 0 [] []) = Some st' ∧
          BFRun.ip st' = 2).
Proof.
  destruct (bracket_jumps_land_past_the_match
              (bytes "+") (bytes "-[+]>") (bytes ".") 1
              (with_addrIP 1 (explorerOn (bytes "+[-[+]>].") (replicate 300 0) RUN))
              (BFRun.mkState 7 (<[0%nat := 3]> (replicate 400 0)) 0 [] []) 3)
    as (Hfwd & _ & _ & Hbwd).
  - apply nested_char; [discriminate | discriminate |].
    apply (nested_loop 0 (bytes "+") (bytes ">")).
    + apply nested_char; [discriminate | discriminate | apply nested_nil].
    + apply nested_char; [discriminate | discriminate | apply nested_nil].
  - lia.
  - apply (explorerOn_progHolds (bytes "+[-[+]>].")). cbn. lia.
  - discriminate.
  - split.
    + apply Hfwd; reflexivity.
    + apply Hbwd; [cbn; lia | reflexivity | reflexivity | discriminate].
Defined.

(** Forward over [k] opening brackets in a row: the counter goes up by
    [k], wrapping at 65536. *)
Lemma scanForward_up_run prog k : ∀ count fuel s,
  progHolds prog s → 1 ≤ count ≤ 65535 → count + Z.of_nat k ≤ 65536 →
  0 ≤ addrIP s + 1 →
  (∀ i : nat, (i < k)%nat →
     prog !! (Z.to_nat (addrIP s + 1) + i)%nat = Some (ch "[")) →
  ∃ s', progHolds prog s' ∧ addrIP s' = addrIP s + Z.of_nat k ∧
        scanForward (k + fuel) count s
        = scanForward fuel (u16 (count + Z.of_nat k)) s'.
Proof.
  induction k as [|k IH]; intros count fuel s Hok Hc Hk Hip Htext.
  - exists s. split_and!; [done | lia |].
    rewrite u16_small by lia. f_equal. lia.
  - destruct (scanForward_round prog (k + fuel) count s (ch "["))
      as (s1 & Hok1 & Hip1 & Hs1); [done | lia | done | |].
    { rewrite <- (Htext 0%nat) by lia. f_equal. lia. }
    cbn [Nat.add]. rewrite Hs1.
    destruct (decide (count = 65535)) as [->|Hne].
    + assert (k = O) as -> by lia. exists s1. split_and!; [done | lia | done].
    + rewrite bump_up by (done || lia).
      destruct (IH (count + 1) fuel s1) as (s' & Hok' & Hip' & Hs');
        [done | lia | lia | lia | |].
      { intros i Hi. rewrite <- (Htext (S i)) by lia. f_equal. lia. }
      exists s'. split_and!; [done | lia |].
      rewrite Hs'. do 2 f_equal. lia.
Qed.

(** Without the bound on the depth the jump can miss: on 65536 opening
    brackets followed by 65536 closing ones, balanced as they are, the
    pass over the first bracket with the cell at zero ends with the
    instruction pointer at 65536, in the middle of the program, not at
    131072 one past the matching bracket. *)
Lemma deep_nesting_wraps_the_counter :
  let body := replicate (Z.to_nat 65535) (ch "[")
              ++ replicate (Z.to_nat 65535) (ch "]") in
  balanced body ∧
  (addrIP <$> loop (explorerOn (ch "[" :: body ++ [ch "]"]) (replicate 300 0) RUN))
  = Some 65536 ∧
  65536 ≠ 0 + Z.of_nat (length body) + 2.
Proof.
  intros body.
  assert (Hbal : balanced body)
    by (exists (Z.to_nat 65535); apply nested_replicate).
  assert (Hbody : Z.of_nat (length body) = 131070)
    by (unfold body; rewrite length_app, !length_replicate; lia).
  assert (Hopen : ∀ i : nat, Z.of_nat i < 65535 → body !! i = Some (ch "[")).
  { intros i Hi. unfold body.
    rewrite lookup_app_l by (rewrite length_replicate; lia).
    apply lookup_replicate_2. lia. }
  clearbody body. split_and!; [done | | lia].
  set (prog := ch "[" :: body ++ [ch "]"]).
  assert (Hlen : Z.of_nat (length prog) = 131072).
  { unfold prog. rewrite length_cons, length_app, length_cons, length_nil. lia. }
  set (s := explorerOn prog (replicate 300 0) RUN).
  assert (Hok : progHolds prog s).
  { apply (explorerOn_progHolds prog (replicate 300 0) RUN 0). lia. }
  destruct (afterFetch_progHolds prog s (ch "[") (fetched s) (cell s))
    as (Hin & Hf & Hok0 & Hip0 & Hfuel); [exact Hok | reflexivity | reflexivity |].
  set (x := with_executed _ _) in *.
  change (addrIP s) with 0 in Hip0.
  destruct (scanForward_up_run prog (Z.to_nat 65535) 1
              (S (S (length prog)) - Z.to_nat 65535) x)
    as (s1 & Hok1 & Hip1 & Hs1); [exact Hok0 | lia | lia | lia | |].
  { intros i Hi. rewrite Hip0. change (Z.to_nat (0 + 1)) with 1%nat.
    unfold prog. rewrite lookup_cons_ne_0 by lia.
    replace (pred (1 + i)) with i by lia.
    rewrite lookup_app_l by lia. apply Hopen. lia. }
  assert (Hd0 : dispatch (fetched s) (cell s) x = Some (0, s1)).
  { rewrite Hf. change (cell s) with 0.
    change (dispatch (ch "[") 0 x) with (caseOpen 0 x).
    unfold caseOpen. cbn [Z.eqb]. rewrite Hfuel.
    replace (S (S (length prog)))
      with (Z.to_nat 65535 + (S (S (length prog)) - Z.to_nat 65535))%nat by lia.
    rewrite Hs1.
    replace (u16 (1 + Z.of_nat (Z.to_nat 65535))) with 0
      by (rewrite Z2Nat.id by lia; reflexivity).
    by rewrite scanForward_done. }
  rewrite (loop_inside s 0 s1); [| discriminate | exact Hin | exact Hd0].
  cbn [fmap option_fmap option_map]. f_equal.
  match goal with |- addrIP (countdown ?y) = _ =>
    destruct (countdown_frame y) as (_ & _ & -> & _) end.
  match goal with |- addrIP (traceAfter ?v ?y) = _ =>
    destruct (traceAfter_frame v y) as (_ & _ & -> & _) end.
  fields. rewrite Hip1, Hip0. rewrite Z2Nat.id by lia. reflexivity.
Qed.

(** ** The scans come to an end *)

Lemma u32_s32 z : u32 (s32 z) = u32 z.
Proof.
  unfold u32, s32. rewrite Zminus_mod_idemp_l. f_equal. lia.
Qed.

Lemma u32_range z : 0 ≤ u32 z < 4294967296.
Proof. unfold u32. apply Z.mod_pos_bound. lia. Qed.

Lemma u32_succ z : u32 z < 4294967295 → u32 (z + 1) = u32 z + 1.
Proof.
  intros H. pose proof (u32_range z). unfold u32 in *.
  rewrite <- Zplus_mod_idemp_l. apply Z.mod_small. lia.
Qed.

Lemma u32_pred z :
  u32 (z - 1) = if u32 z =? 0 then 4294967295 else u32 z - 1.
Proof.
  pose proof (u32_range z). unfold u32 in *.
  rewrite <- Zminus_mod_idemp_l.
  destruct (Z.eqb_spec (z mod 4294967296) 0) as [->|Hne]; [done|].
  apply Z.mod_small. lia.
Qed.

(** With the rounds [loop] allows it, the forward scan always ends: by
    finding its bracket or by leaving the bounds. *)
Lemma scanForward_ends fuel : ∀ count s,
  _fileSize (program s) < 4294967295 →
  u32 (addrIP s) ≤ _fileSize (program s) →
  _fileSize (program s) - u32 (addrIP s) < Z.of_nat fuel →
  is_Some (scanForward fuel count s).
Proof.
  induction fuel as [|fuel IH]; intros count s Hsize Hin Hfuel;
    cbn [scanForward]; destruct (count =? 0); try done; [lia|].
  fields. pose proof (u32_range (addrIP s)).
  rewrite u32_s32, u32_succ by lia.
  unfold isInBounds. destruct (Z.leb_spec (u32 (addrIP s) + 1) (_fileSize (program s)));
    cbn [negb]; [|done].
  destruct (get (program s) (u32 (addrIP s) + 1)) as [opcode p] eqn:Hg.
  assert (Hp : _fileSize p = _fileSize (program s)).
  { replace p with (snd (get (program s) (u32 (addrIP s) + 1))) by (by rewrite Hg).
    apply get_fileSize. }
  apply IH; fields; rewrite ?Hp, ?u32_s32, ?u32_succ by lia; lia.
Qed.

Lemma scanBackward_ends fuel : ∀ count s,
  _fileSize (program s) < 4294967295 →
  u32 (addrIP s) ≤ _fileSize (program s) →
  u32 (addrIP s) + 1 < Z.of_nat fuel →
  is_Some (scanBackward fuel count s).
Proof.
  induction fuel as [|fuel IH]; intros count s Hsize Hin Hfuel;
    pose proof (u32_range (addrIP s));
    cbn [scanBackward]; destruct (count =? 0); try done; [lia|].
  fields.
  rewrite u32_s32, u32_pred.
  unfold isInBounds. destruct (Z.eqb_spec (u32 (addrIP s)) 0) as [H0|H0].
  - destruct (Z.leb_spec 4294967295 (_fileSize (program s))); [lia|done].
  - destruct (Z.leb_spec (u32 (addrIP s) - 1) (_fileSize (program s)));
      cbn [negb]; [|done].
    destruct (get (program s) (u32 (addrIP s) - 1)) as [opcode p] eqn:Hg.
    assert (Hp : _fileSize p = _fileSize (program s)).
    { replace p with (snd (get (program s) (u32 (addrIP s) - 1))) by (by rewrite Hg).
      apply get_fileSize. }
    apply IH; fields; rewrite ?Hp, ?u32_s32, ?u32_pred;
      destruct (Z.eqb_spec (u32 (addrIP s)) 0); lia.
Qed.

Lemma caseOpen_ends mem s :
  0 ≤ _fileSize (program s) < 4294967295 →
  isInBounds (program s) (u32 (addrIP s)) = true →
  is_Some (caseOpen mem s).
Proof.
  intros Hsize Hin%Z.leb_le. unfold caseOpen. destruct (mem =? 0); [|done].
  pose proof (u32_range (addrIP s)).
  destruct (scanForward_ends (scanFuel s) 1 s) as [s' ->];
    [lia | done | unfold scanFuel; lia | done].
Qed.

Lemma caseClose_ends mem s :
  0 ≤ _fileSize (program s) < 4294967295 →
  isInBounds (program s) (u32 (addrIP s)) = true →
  is_Some (caseClose mem s).
Proof.
  intros Hsize Hin%Z.leb_le. unfold caseClose. destruct (mem =? 0); [done|].
  pose proof (u32_range (addrIP s)).
  destruct (scanBackward_ends (scanFuel s) 1 s) as [s' ->];
    [lia | done | unfold scanFuel; lia | done].
Qed.

Lemma dispatch_ends opcode mem s :
  0 ≤ _fileSize (program s) < 4294967295 →
  isInBounds (program s) (u32 (addrIP s)) = true →
  serialIn s ≠ [] →
  is_Some (dispatch opcode mem s).
Proof.
  intros Hsize Hin Hinput. unfold dispatch.
  repeat match goal with |- context [if ?c =? ?d then _ else _] =>
    destruct (c =? d); [try done|] end; try done.
  - unfold getChar. destruct (serialIn s) as [|c rest]; [done|].
    cbn [mbind option_bind]. by apply caseOpen_ends.
  - by apply caseOpen_ends.
  - by apply caseClose_ends.
Qed.

(** X27. A pass of [loop] comes to an end whenever there is input for a
    [,] to read: the rounds given to the scans always suffice. *)
Lemma loop_ends s :
  0 ≤ _fileSize (program s) < 4294967295 → serialIn s ≠ [] →
  is_Some (loop s).
Proof.
  intros Hsize Hinput. unfold loop.
  destruct (decide (runMode s = IDLE)) as [->|Hrun]; [done|].
  assert (is_Some (interpret s)) as [s' ->]; [|by destruct (runMode s)].
  destruct (isInBounds (program s) (u32 (addrIP s))) eqn:Hin;
    [|rewrite interpret_outside by done; eauto].
  rewrite interpret_inside by done. unfold execute.
  destruct (traceBefore_frame (fetched s) (cell s) (afterFetch s))
    as (Hp & _ & Hip & _ & _ & _ & Hsi & _).
  destruct (dispatch_ends (fetched s) (cell s)
              (with_executed (S (executed (traceBefore (fetched s) (cell s) (afterFetch s))))
                 (traceBefore (fetched s) (cell s) (afterFetch s))))
    as [[mem' s1] Hd].
  - fields. rewrite Hp. fields. by rewrite get_fileSize.
  - unfold isInBounds in *. fields. rewrite Hp, Hip. fields.
    by rewrite get_fileSize.
  - fields. by rewrite Hsi.
  - rewrite Hd. cbn [mbind option_bind]. eauto.
Qed.

(** ** Scans that leave the program *)

(** A forward scan ends in one of two ways: at an address that counts as
    in bounds, having printed nothing and left the run mode alone; or
    beyond the bounds, having printed the error and the prompt, in IDLE. *)
Lemma scanForward_lands_or_reports fuel : ∀ count s s',
  isInBounds (program s) (u32 (addrIP s)) = true →
  scanForward fuel count s = Some s' →
  (isInBounds (program s') (u32 (addrIP s')) = true ∧
   runMode s' = runMode s ∧ serialOut s' = serialOut s) ∨
  (isInBounds (program s') (u32 (addrIP s')) = false ∧ runMode s' = IDLE ∧
   serialOut s' = serialOut s ++ [PStr "!Instruction pointer past end of file";
                                  PStr (String LF ". ")]).
Proof.
  induction fuel as [|fuel IH]; intros count s s' Hin; cbn [scanForward];
    destruct (count =? 0); try (intros [= <-]; by left); try done.
  fields.
  destruct (isInBounds (program s) (u32 (s32 (addrIP s + 1)))) eqn:Hin1;
    cbn [negb].
  - destruct (get (program s) (u32 (s32 (addrIP s + 1)))) as [opcode p] eqn:Hg.
    intros Hs. apply IH in Hs; [done|]. fields. unfold isInBounds in *.
    replace p with (snd (get (program s) (u32 (s32 (addrIP s + 1)))))
      by (by rewrite Hg).
    by rewrite get_fileSize.
  - intros [= <-]. right. fields. split_and!; [done | done |].
    by rewrite <- app_assoc.
Qed.

Lemma scanBackward_lands_or_reports fuel : ∀ count s s',
  isInBounds (program s) (u32 (addrIP s)) = true →
  scanBackward fuel count s = Some s' →
  (isInBounds (program s') (u32 (addrIP s')) = true ∧
   runMode s' = runMode s ∧ serialOut s' = serialOut s) ∨
  (isInBounds (program s') (u32 (addrIP s')) = false ∧ runMode s' = IDLE ∧
   serialOut s' = serialOut s ++ [PStr "!Instruction pointer before start";
                                  PStr (String LF ". ")]).
Proof.
  induction fuel as [|fuel IH]; intros count s s' Hin; cbn [scanBackward];
    destruct (count =? 0); try (intros [= <-]; by left); try done.
  fields.
  destruct (isInBounds (program s) (u32 (s32 (addrIP s - 1)))) eqn:Hin1;
    cbn [negb].
  - destruct (get (program s) (u32 (s32 (addrIP s - 1)))) as [opcode p] eqn:Hg.
    intros Hs. apply IH in Hs; [done|]. fields. unfold isInBounds in *.
    replace p with (snd (get (program s) (u32 (s32 (addrIP s - 1)))))
      by (by rewrite Hg).
    by rewrite get_fileSize.
  - intros [= <-]. right. fields. split_and!; [done | done |].
    by rewrite <- app_assoc.
Qed.

(** C5. A forward scan that runs past the end of the program is not always
    reported.  The program below is 201 bytes long: a stray closing bracket
    at address 1, blanks, and at address 200 an opening bracket that
    nothing closes.  When the pass at 200 scans forward with the cell at
    zero, address 201 (the size of the file) still counts as in bounds, and
    the byte read there is what the page buffer kept from address 1 of the
    page before: a closing bracket.  The scan ends there, no error is
    printed (after 200 passes the explorer is at 200, after one more at
    202 and still running), and the explorer only idles one pass later,
    silently, at the plain bounds check.  With a blank at address 1 the
    same scan from 200 reports and idles; so does a backward scan that
    runs before the start, and so do both scans of the file-access
    variant, whose forward scan goes on to MEMORY_SIZE. *)
Theorem unterminated_bracket_goes_unreported :
  let prog := ch " " :: ch "]" :: replicate 198 (ch " ") ++ [ch "["] in
  let blank := replicate 200 (ch " ") ++ [ch "["] in
  Z.of_nat (length prog) = 201 ∧
  isInBounds (program (explorerOn prog (replicate 300 0) RUN)) 201 = true ∧
  ((λ s, ((runMode s, addrIP s, serialOut s),
          (λ t, (runMode t, addrIP t, serialOut t)) <$> loop s,
          (λ t, (runMode t, serialOut t)) <$> (loop s ≫= loop)))
     <$> loops 200 (explorerOn prog (replicate 300 0) RUN))
  = Some ((RUN, 200, []), Some (RUN, 202, []), Some (IDLE, [PStr (String LF ". ")])) ∧
  ((λ s, (runMode s, serialOut s))
     <$> loop (with_addrIP 200 (explorerOn blank (replicate 300 0) RUN)))
  = Some (IDLE, [PStr "!Instruction pointer past end of file"; PStr (String LF ". ")]) ∧
  ((λ s, (runMode s, addrIP s, serialOut s))
     <$> loops 2 (explorerOn (bytes "+]") (replicate 300 0) RUN))
  = Some (IDLE, 0, [PStr "!Instruction pointer before start"; PStr (String LF ". ")]) ∧
  ((λ s, (FileAccess.runMode s, FileAccess.serialOut s))
     <$> FileAccess.loop (FileAccess.running (bytes "[") (replicate 300 0)))
  = Some (IDLE, [PStr "!Memory address exceeded"; PStr (String LF ". ")]) ∧
  ((λ s, (FileAccess.runMode s, FileAccess.addrIP s, FileAccess.serialOut s))
     <$> FileAccess.loops 2 (FileAccess.running (bytes "+]") (replicate 300 0)))
  = Some (IDLE, 0, [PStr "!Memory address before start"; PStr (String LF ". ")]).
Proof. split_and!; by vm_compute. Qed.

(** ** Reads through the page *)

Lemma begin_reads_inv m (addrs : list Z) V F :
  wf m → view m = V → _fileSize m = F →
  Forall (λ x, 0 ≤ x ≤ F) addrs →
  wf (performAll m (DoGet <$> addrs)) ∧
  view (performAll m (DoGet <$> addrs)) = V ∧
  _fileSize (performAll m (DoGet <$> addrs)) = F.
Proof.
  intros Hwf Hv Hf Hall. unfold performAll. revert m Hwf Hv Hf.
  induction Hall as [|a addrs Ha Hall IH]; intros m Hwf Hv Hf; [done|].
  cbn [fmap list_fmap foldl perform].
  assert (Hin : within m a).
  { split; [lia|]. unfold isInBounds. apply Z.leb_le. lia. }
  destruct (get_spec m a Hwf Hin) as (Hwf' & Hv' & Hf' & _).
  apply IH; [done | congruence | congruence].
Qed.

(** X1. Reading through the page.  Once [begin] has opened a file it
    reports success, and after any sequence of reads at addresses up to
    the size of the file, whatever pages they swap in, a [get] returns the
    byte the file holds at the address asked for. *)
Theorem paged_reads_return_the_file m data (addrs : list Z) (a : Z) (b : Z) :
  0 < _pageSize m < 65536 →
  Z.of_nat (length (_pageData m)) = _pageSize m →
  Z.of_nat (length data) < 4294967296 →
  Forall (λ x, 0 ≤ x ≤ Z.of_nat (length data)) addrs →
  0 ≤ a → data !! Z.to_nat a = Some b →
  fst (begin m (Some data)) = true ∧
  fst (get (performAll (snd (begin m (Some data))) (DoGet <$> addrs)) a) = b.
Proof.
  intros Hps Hbuf Hlen Hall Ha Hb.
  destruct (begin_wf m data Hps Hbuf Hlen) as (Hwf & Hf & Hv & _ & Hok).
  split; [done|].
  destruct (begin_reads_inv _ addrs data (Z.of_nat (length data)) Hwf Hv Hf Hall)
    as (Hwf' & Hv' & Hf').
  pose proof (lookup_lt_Some _ _ _ Hb).
  apply get_spec; [done | | by rewrite Hv'].
  split; [done|]. unfold isInBounds. rewrite Hf'. apply Z.leb_le. lia.
Qed.

Lemma paged_reads_return_the_file_witness :
  fst (get (performAll (snd (begin (unopened 100 (replicate 100 9))
                                   (Some (Z.of_nat <$> seq 0 250))))
                       (DoGet <$> [249; 0; 250; 120])) 205) = 205.
Proof.
  apply (paged_reads_return_the_file (unopened 100 (replicate 100 9))
           (Z.of_nat <$> seq 0 250) [249; 0; 250; 120] 205 205).
  - cbn. lia.
  - reflexivity.
  - cbn. lia.
  - repeat constructor; cbn; lia.
  - lia.
  - reflexivity.
Defined.

(** A read never writes. *)
Lemma seekSet_file f pos :
  contents (seekSet f pos) = contents f ∧ isOpen (seekSet f pos) = isOpen f.
Proof. unfold seekSet. by destruct (isOpen f && (pos <=? fileSize f)). Qed.

Lemma read_file f n :
  contents (snd (read f n)) = contents f ∧ isOpen (snd (read f n)) = isOpen f.
Proof. unfold read. by destruct (isOpen f) eqn:Ho. Qed.

Lemma loadPage_file m addr :
  contents (_fp (loadPage m addr)) = contents (_fp m) ∧
  isOpen (_fp (loadPage m addr)) = isOpen (_fp m) ∧
  _pageChanged (loadPage m addr) = false.
Proof.
  unfold loadPage.
  destruct (read_file (seekSet (_fp m) addr) (_pageSize m)) as [Hc Ho].
  destruct (seekSet_file (_fp m) addr) as [Hc' Ho'].
  destruct (read (seekSet (_fp m) addr) (_pageSize m)) as [got f2].
  cbn [fst snd _fp _pageChanged] in *. split_and!; congruence.
Qed.

Lemma swapIn_clean m addr :
  _pageChanged m = false →
  contents (_fp (swapIn m addr)) = contents (_fp m) ∧
  _pageChanged (swapIn m addr) = false ∧
  isOpen (_fp (swapIn m addr)) = isOpen (_fp m).
Proof.
  intros Hc. unfold swapIn. destruct (pageMiss m addr); [|done].
  unfold savePage. rewrite Hc.
  destruct (loadPage_file m (u32 (u32 (addr / _pageSize m) * _pageSize m)))
    as (? & ? & ?).
  done.
Qed.

Lemma get_clean m addr :
  _pageChanged m = false →
  contents (_fp (snd (get m addr))) = contents (_fp m) ∧
  _pageChanged (snd (get m addr)) = false ∧
  isOpen (_fp (snd (get m addr))) = isOpen (_fp m).
Proof. apply swapIn_clean. Qed.

(** X2. A read never writes: on a memory whose page has no unsaved
    change, no sequence of [get]s, in bounds or not, changes a byte of the
    file or marks the page as changed. *)
Theorem reads_never_write_the_file m (addrs : list Z) :
  _pageChanged m = false →
  contents (_fp (performAll m (DoGet <$> addrs))) = contents (_fp m) ∧
  _pageChanged (performAll m (DoGet <$> addrs)) = false.
Proof.
  unfold performAll. revert m.
  induction addrs as [|a addrs IH]; intros m Hc; [done|].
  cbn [fmap list_fmap foldl perform].
  destruct (get_clean m a Hc) as (Hc1 & Hc2 & _).
  destruct (IH _ Hc2) as (-> & ->). done.
Qed.

Lemma reads_never_write_the_file_witness :
  contents (_fp (performAll (snd (begin (unopened 100 (replicate 100 0))
                                        (Some (replicate 250 7))))
                            (DoGet <$> [249; 0; 1000; 120])))
  = replicate 250 7.
Proof.
  destruct (reads_never_write_the_file
              (snd (begin (unopened 100 (replicate 100 0)) (Some (replicate 250 7))))
              [249; 0; 1000; 120] eq_refl) as [Hc _].
  rewrite Hc. reflexivity.
Defined.


(** ** The program file during a run *)

Lemma programKept_get c s addr s' :
  programKept c s → program s' = snd (get (program s) addr) → programKept c s'.
Proof.
  intros [Hc Hf] Hp. unfold programKept. rewrite Hp.
  destruct (get_clean (program s) addr Hc) as (-> & -> & _). done.
Qed.

Lemma scanForward_programKept c fuel : ∀ count s s',
  programKept c s → scanForward fuel count s = Some s' → programKept c s'.
Proof.
  induction fuel as [|fuel IH]; intros count s s' Hk; cbn [scanForward];
    destruct (count =? 0); try (by intros [= <-]); try done.
  fields.
  destruct (isInBounds (program s) (u32 (s32 (addrIP s + 1)))); cbn [negb].
  - destruct (get (program s) (u32 (s32 (addrIP s + 1)))) as [opcode p] eqn:Hg.
    apply IH. apply (programKept_get c s (u32 (s32 (addrIP s + 1)))); [done|].
    fields. by rewrite Hg.
  - by intros [= <-].
Qed.

Lemma scanBackward_programKept c fuel : ∀ count s s',
  programKept c s → scanBackward fuel count s = Some s' → programKept c s'.
Proof.
  induction fuel as [|fuel IH]; intros count s s' Hk; cbn [scanBackward];
    destruct (count =? 0); try (by intros [= <-]); try done.
  fields.
  destruct (isInBounds (program s) (u32 (s32 (addrIP s - 1)))); cbn [negb].
  - destruct (get (program s) (u32 (s32 (addrIP s - 1)))) as [opcode p] eqn:Hg.
    apply IH. apply (programKept_get c s (u32 (s32 (addrIP s - 1)))); [done|].
    fields. by rewrite Hg.
  - by intros [= <-].
Qed.

Lemma dispatch_programKept c opcode mem s mem' s' :
  programKept c s → dispatch opcode mem s = Some (mem', s') → programKept c s'.
Proof.
  intros Hk. unfold dispatch.
  assert (Hopen : ∀ m t, programKept c t → caseOpen m t = Some (mem', s') →
                         programKept c s').
  { intros m t Ht. unfold caseOpen. destruct (m =? 0); [|by intros [= _ <-]].
    destruct (scanForward (scanFuel t) 1 t) as [t1|] eqn:Hs; [|done].
    intros [= _ <-]. by apply (scanForward_programKept c) in Hs. }
  repeat match goal with |- context [if ?a =? ?b then _ else _] =>
    destruct (a =? b); [try (by intros [= _ <-])|] end;
    try (by intros [= _ <-]).
  - unfold getChar. destruct (serialIn s) as [|x rest]; [done|].
    cbn [mbind option_bind]. by apply Hopen.
  - by apply Hopen.
  - unfold caseClose. destruct (mem =? 0); [by intros [= _ <-]|].
    destruct (scanBackward (scanFuel s) 1 s) as [t1|] eqn:Hs; [|done].
    intros [= _ <-]. by apply (scanBackward_programKept c) in Hs.
Qed.

Lemma loop_programKept c s s' :
  programKept c s → loop s = Some s' → programKept c s'.
Proof.
  intros Hk. unfold loop.
  destruct (decide (runMode s = IDLE)) as [->|Hrun]; [by intros [= <-]|].
  assert (Hi : ∀ s1, interpret s = Some s1 → programKept c s1).
  { unfold interpret.
    destruct (get (memory s) (u32 (addrMP s))) as [mem m].
    destruct (get (program s) (u32 (addrIP s))) as [opcode p] eqn:Hg.
    assert (Hp : programKept c (with_program p (with_memory m s))).
    { apply (programKept_get c s (u32 (addrIP s))); [done|]. fields. by rewrite Hg. }
    set (t := with_program p (with_memory m s)) in *.
    assert (Ht : programKept c (if isInBounds (program t) (u32 (addrIP t))
                                then t else setIdle t))
      by (by destruct (isInBounds (program t) (u32 (addrIP t)))).
    intros s1 Hs1.
    change (match runMode (if isInBounds (program t) (u32 (addrIP t))
                           then t else setIdle t) with
            | IDLE => Some (if isInBounds (program t) (u32 (addrIP t))
                            then t else setIdle t)
            | _ => execute opcode mem (if isInBounds (program t) (u32 (addrIP t))
                                       then t else setIdle t)
            end = Some s1) in Hs1.
    revert Ht Hs1.
    generalize (if isInBounds (program t) (u32 (addrIP t)) then t else setIdle t).
    intros t1 Ht Hs1.
    assert (He : runMode t1 = IDLE ∧ s1 = t1 ∨ execute opcode mem t1 = Some s1)
      by (destruct (runMode t1); [left; by injection Hs1 as <- | by right..]).
    destruct He as [[_ ->]|He]; [done|].
    unfold execute in He.
    destruct (traceBefore_frame opcode mem t1) as (Hp1 & _).
    destruct (dispatch opcode mem _) as [[m1 x]|] eqn:Hd; [|done].
    cbn [mbind option_bind] in He. injection He as <-.
    apply dispatch_programKept with (c := c) in Hd.
    - destruct (traceAfter_frame m1 (with_addrIP (s32 (addrIP x + 1)) x)) as (Hp2 & _).
      unfold programKept in *. by rewrite Hp2.
    - unfold programKept in *. fields. by rewrite Hp1. }
  destruct (interpret s) as [s1|]; [|by destruct (runMode s)].
  intros Hs'. assert (s' = countdown s1) as ->
    by (destruct (runMode s); cbn [mbind option_bind] in Hs'; congruence).
  destruct (countdown_frame s1) as (Hp & _).
  unfold programKept. rewrite Hp. by apply Hi.
Qed.

(** X4. Running does not write to the program file: when the program
    object holds no unsaved change, as after [begin], any number of passes
    of [loop], bracket scans included, leave the bytes of the program file
    as they are. *)
Theorem run_never_writes_the_program (n : nat) (s s' : Explorer) :
  _pageChanged (program s) = false → loops n s = Some s' →
  contents (_fp (program s')) = contents (_fp (program s)) ∧
  _pageChanged (program s') = false.
Proof.
  intros Hc Hl.
  assert (Hk : programKept (contents (_fp (program s))) s'); [|by destruct Hk].
  assert (Hk0 : programKept (contents (_fp (program s))) s) by done.
  clear Hc. revert Hk0 Hl. generalize (contents (_fp (program s))) as c. intros c.
  revert s. induction n as [|n IH]; intros s Hk; cbn [loops].
  - by intros [= <-].
  - destruct (loop s) as [s1|] eqn:Hs; [|done]. cbn [mbind option_bind].
    apply IH. by apply (loop_programKept c s).
Qed.

Lemma run_never_writes_the_program_witness :
  ∃ s', loops 12 (explorerOn (bytes "++[>+.<-].") (replicate 300 0) RUN) = Some s' ∧
        contents (_fp (program s')) = bytes "++[>+.<-].".
Proof.
  eexists. split; [by vm_compute|].
  apply (run_never_writes_the_program 12
           (explorerOn (bytes "++[>+.<-].") (replicate 300 0) RUN));
    [reflexivity | by vm_compute].
Defined.


Lemma midRun_within s :
  midRun s → within (memory s) (u32 (addrMP s)) ∧ within (program s) (u32 (addrIP s)).
Proof.
  intros (_ & _ & Hmp & Hip). pose proof (u32_range (addrMP s)).
  pose proof (u32_range (addrIP s)).
  split; (split; [lia|]); [|done]. unfold isInBounds. apply Z.leb_le. lia.
Qed.

Lemma afterFetch_observe s :
  midRun s →
  observe (afterFetch s) = observe s ∧
  wf (memory (afterFetch s)) ∧ wf (program (afterFetch s)) ∧
  _fileSize (memory (afterFetch s)) = _fileSize (memory s) ∧
  _fileSize (program (afterFetch s)) = _fileSize (program s) ∧
  executed (afterFetch s) = executed s ∧
  listRunning (afterFetch s) = listRunning s.
Proof.
  intros Hs. destruct (midRun_within s Hs) as [Hm Hp].
  destruct Hs as (Hwp & Hwm & _).
  destruct (get_spec _ _ Hwm Hm) as (? & Hv1 & ? & _).
  destruct (get_spec _ _ Hwp Hp) as (? & Hv2 & ? & _).
  unfold observe. fields. rewrite Hv1, Hv2. by split_and!.
Qed.

(** A pass in RUN with the trace off, once the switch has come back. *)
Lemma run_pass s mem' s1 :
  runMode s = RUN → listRunning s = false →
  isInBounds (program s) (u32 (addrIP s)) = true →
  dispatch (fetched s) (cell s) (with_executed (S (executed s)) (afterFetch s))
  = Some (mem', s1) →
  runMode s1 ≠ STEP → listRunning s1 = false →
  loop s = Some (with_addrIP (s32 (addrIP s1 + 1)) s1).
Proof.
  intros Hrun Htr Hin Hd Hm1 Ht1.
  rewrite (loop_inside s mem' s1); [|by rewrite Hrun|done|].
  - unfold traceAfter, countdown. fields. rewrite Ht1. fields.
    by destruct (runMode s1).
  - unfold traceBefore. fields. by rewrite Htr.
Qed.

Lemma dispatch_other c mem s :
  isCommand c = false → dispatch c mem s = Some (mem, s).
Proof.
  intros Hc. unfold isCommand in Hc.
  repeat (apply orb_false_elim in Hc as [Hc ?]).
  unfold dispatch.
  repeat match goal with H : (c =? _) = false |- _ => rewrite H; clear H end.
  done.
Qed.

Lemma bfrun_dispatch_other prog c st :
  isCommand c = false → BFRun.dispatch prog c st = Some st.
Proof.
  intros Hc. unfold isCommand in Hc.
  repeat (apply orb_false_elim in Hc as [Hc ?]).
  unfold BFRun.dispatch.
  repeat match goal with H : (c =? _) = false |- _ => rewrite H; clear H end.
  done.
Qed.



(** ** The pointer and output opcodes *)





Lemma explorerOn_midRun prog mem mode :
  Z.of_nat (length prog) < 2147483648 →
  0 < Z.of_nat (length mem) < 4294967296 →
  midRun (explorerOn prog mem mode).
Proof.
  intros Hp Hm.
  destruct (explorerOn_memory_wf prog mem mode) as (Hwm & Hf & _); [lia|].
  destruct (explorerOn_progHolds prog mem mode 0) as (Hwp & _ & Hfp & _); [lia|].
  split_and!; [exact Hwp | exact Hwm | |].
  - rewrite Hf. change (0 < Z.of_nat (length mem)). lia.
  - unfold isInBounds. apply Z.leb_le.
    change (program (explorerOn prog mem mode))
      with (program (with_addrIP 0 (explorerOn prog mem mode))).
    rewrite Hfp. change (0 ≤ Z.of_nat (length prog)). lia.
Qed.



(** ** The input opcode, in general *)

(** X9. [,] takes one byte off the serial input.  With no byte to come
    the pass does not end: [getChar] waits.  In the explorer, with the
    data pointer on a cell of the memory file and the instruction pointer
    in bounds, when the byte read is not zero modulo 256, the pass stores
    it in the current cell, takes it off the input and moves the
    instruction pointer on by one, printing nothing.  BF-run, with its
    pointer inside the array, does so for every byte, zero included. *)
Theorem input_stores_the_byte_read
    (s : Explorer) (prog : list Z) (st : BFRun.State) (c : Z) (rest : list Z) :
  (midRun s → runMode s = RUN → listRunning s = false → fetched s = ch "," →
   (serialIn s = [] → loop s = None) ∧
   (serialIn s = c :: rest → u8 c ≠ 0 →
      ∃ s', loop s = Some s' ∧ cell s' = u8 c ∧ serialIn s' = rest ∧
            addrIP s' = s32 (addrIP s + 1) ∧ addrMP s' = addrMP s ∧
            runMode s' = RUN ∧ serialOut s' = serialOut s)) ∧
  (BFRun.pgm_read_byte prog (BFRun.ip st) = Some (ch ",") →
   (BFRun.input st = [] → BFRun.loop prog st = None) ∧
   (BFRun.input st = c :: rest → is_Some (BFRun.deref st) →
      BFRun.loop prog st
      = Some (BFRun.mkState (u16 (BFRun.ip st + 1))
                (zput (BFRun.cells st) (BFRun.mp st) (u8 c)) (BFRun.mp st)
                rest (BFRun.output st)))).
Proof.
  split.
  - intros Hs Hrun Htr Hf.
    destruct (midRun_within s Hs) as [Hm Hp].
    destruct (afterFetch_observe s Hs) as (Ho & Hwm & _ & Hfm & _ & _ & Hl).
    split.
    + intros Hin. unfold loop. rewrite Hrun, interpret_inside by (by rewrite ?Hrun || apply Hs).
      unfold execute, traceBefore. fields. rewrite Htr, Hf.
      change (dispatch (ch ",") (cell s) ?x)
        with ('(mem, t) ← getChar x;
              caseOpen mem (with_memory (set (memory t) (u32 (addrMP t)) mem) t)).
      unfold getChar. fields. by rewrite Hin.
    + intros Hin Hc.
      set (x := with_executed (S (executed s)) (afterFetch s)).
      set (t := with_memory (set (memory x) (u32 (addrMP x)) (u8 c))
                            (with_serialIn rest x)).
      assert (Hd : dispatch (fetched s) (cell s) x = Some (u8 c, t)).
      { rewrite Hf.
        change (dispatch (ch ",") (cell s) x)
          with ('(mem, t) ← getChar x;
                caseOpen mem (with_memory (set (memory t) (u32 (addrMP t)) mem) t)).
        unfold getChar. subst x. fields. rewrite Hin. cbn [mbind option_bind].
        unfold caseOpen. by destruct (Z.eqb_spec (u8 c) 0). }
      exists (with_addrIP (s32 (addrIP t + 1)) t). split.
      * apply (run_pass s (u8 c)); [done | done | apply Hs | done | |];
          subst t x; fields; by rewrite ?Hrun, <- ?Htr.
      * subst t x. unfold cell. fields.
        split_and!; try done.
        apply get_after_set; [done|].
        destruct Hm as [H0 Hb]. split; [done|].
        unfold isInBounds in *. fields. by rewrite get_fileSize.
  - intros Hrd. unfold BFRun.loop. rewrite Hrd. cbn [mbind option_bind].
    change (BFRun.dispatch prog (ch ",") st)
      with ('(c, s) ← BFRun.getChar st; BFRun.assign c s).
    unfold BFRun.getChar. split.
    + by intros ->.
    + intros -> [v Hv]. cbn [mbind option_bind]. unfold BFRun.assign, BFRun.deref in *.
      cbn [BFRun.mp BFRun.cells BFRun.ip BFRun.input BFRun.output].
      destruct ((0 <=? BFRun.mp st) && (BFRun.mp st <? BFRun.MEM_SIZE)) eqn:Hr; [|done].
      pose proof (lookup_lt_Some _ _ _ Hv) as Hlen.
      apply andb_true_iff in Hr as [H0%Z.leb_le _].
      assert ((BFRun.mp st <? Z.of_nat (length (BFRun.cells st))) = true) as ->
        by (apply Z.ltb_lt; lia).
      done.
Qed.


Lemma input_stores_the_byte_read_witness :
  (loop (explorerOn (bytes ",") (replicate 300 0) RUN) = None) ∧
  (∃ s', loop (with_serialIn [321; 7] (explorerOn (bytes ",") (replicate 300 0) RUN))
         = Some s' ∧ cell s' = 65 ∧ serialIn s' = [7]) ∧
  BFRun.loop (bytes ",") (BFRun.mkState 0 (replicate 400 0) 0 [0; 7] [])
  = Some (BFRun.mkState 1 (replicate 400 0) 0 [7] []).
Proof.
  assert (Hmid : ∀ i, midRun (with_serialIn i
                                (explorerOn (bytes ",") (replicate 300 0) RUN))).
  { intros i. apply (explorerOn_midRun (bytes ",") (replicate 300 0) RUN); cbn; lia. }
  split_and!.
  - destruct (input_stores_the_byte_read
                (explorerOn (bytes ",") (replicate 300 0) RUN) [] BFRun.start 0 [])
      as [He _].
    destruct He as [Hnone _]; [apply (Hmid []) | reflexivity..|].
    apply Hnone. reflexivity.
  - destruct (input_stores_the_byte_read
                (with_serialIn [321; 7] (explorerOn (bytes ",") (replicate 300 0) RUN))
                [] BFRun.start 321 [7]) as [He _].
    destruct He as [_ Hsome]; [apply (Hmid [321; 7]) | reflexivity..|].
    destruct Hsome as (s' & Hl & Hc & Hi & _); [reflexivity | by vm_compute |].
    exists s'. split_and!; [exact Hl | exact Hc | exact Hi].
  - destruct (input_stores_the_byte_read
                (explorerOn (bytes ",") (replicate 300 0) RUN) (bytes ",")
                (BFRun.mkState 0 (replicate 400 0) 0 [0; 7] []) 0 [7]) as [_ Hb].
    destruct Hb as [_ Hsome]; [reflexivity|].
    apply Hsome; [reflexivity | by eexists].
Defined.

(** ** A write changes one cell *)

(** X10. With the data pointer on a cell of the memory file and the
    instruction pointer in bounds, [+] and [-] change the current cell
    only: every other cell of the memory file reads after the pass what it
    read before, and the size of the memory stays. *)
Theorem cell_writes_leave_the_other_cells (s : Explorer) (a : Z) :
  midRun s → runMode s ≠ IDLE →
  fetched s = ch "+" ∨ fetched s = ch "-" →
  0 ≤ a < _fileSize (memory s) → a ≠ u32 (addrMP s) →
  ∃ s', loop s = Some s' ∧
        fst (get (memory s') a) = fst (get (memory s) a) ∧
        _fileSize (memory s') = _fileSize (memory s).
Proof.
  intros Hs Hrun Hop Ha Hne.
  destruct (midRun_within s Hs) as [Hm Hp].
  assert (Hin : isInBounds (program s) (u32 (addrIP s)) = true) by apply Hs.
  destruct Hs as (Hwp & Hwm & Hmp & _).
  destruct (get_spec _ _ Hwm Hm) as (Hwm1 & Hv1 & Hf1 & _ & _).
  destruct (traceBefore_frame (fetched s) (cell s) (afterFetch s))
    as (_ & Hmem & _ & Hadr & _).
  set (x := with_executed (S (executed (afterFetch s)))
              (traceBefore (fetched s) (cell s) (afterFetch s))).
  assert (Hd : ∃ v, dispatch (fetched s) (cell s) x
                    = Some (v, with_memory (set (memory x) (u32 (addrMP x)) v) x)).
  { destruct Hop as [->| ->]; eexists; reflexivity. }
  destruct Hd as [v Hd].
  eexists. split; [by apply loop_inside|].
  match goal with |- context [countdown ?y] =>
    destruct (countdown_frame y) as (_ & -> & _) end.
  match goal with |- context [traceAfter ?w ?y] =>
    destruct (traceAfter_frame w y) as (_ & -> & _) end.
  subst x. fields. rewrite Hmem, Hadr. fields.
  set (m1 := snd (get (memory s) (u32 (addrMP s)))) in *.
  assert (Hm1 : within m1 (u32 (addrMP s))).
  { destruct Hm as [H0 Hb]. split; [done|]. unfold isInBounds in *. by rewrite Hf1. }
  destruct (set_spec m1 (u32 (addrMP s)) v Hwm1 Hm1) as (Hw2 & Hf2 & _ & _ & Hother).
  split; [|congruence].
  pose proof (wf_fileSize _ Hwm). pose proof (view_length _ Hwm).
  destruct (lookup_lt_is_Some_2 (view (memory s)) (Z.to_nat a)) as [b Hb]; [lia|].
  assert (Hwa : ∀ m, _fileSize m = _fileSize (memory s) → within m a).
  { intros m Hfm. split; [lia|]. unfold isInBounds. apply Z.leb_le. lia. }
  destruct (get_spec _ a Hwm (Hwa _ eq_refl)) as (_ & _ & _ & _ & Hget).
  rewrite (Hget b Hb).
  apply get_spec; [done | apply Hwa; congruence |].
  apply Hother; [|by rewrite Hv1].
  pose proof (u32_range (addrMP s)). lia.
Qed.

Lemma cell_writes_leave_the_other_cells_witness :
  ∃ s', loop (explorerOn (bytes "+") (Z.of_nat <$> seq 0 250) RUN) = Some s' ∧
        fst (get (memory s') 249) = 249.
Proof.
  destruct (cell_writes_leave_the_other_cells
              (explorerOn (bytes "+") (Z.of_nat <$> seq 0 250) RUN) 249)
    as (s' & Hl & Hg & _).
  - apply explorerOn_midRun; cbn; lia.
  - discriminate.
  - left. reflexivity.
  - by vm_compute.
  - discriminate.
  - exists s'. split; [exact Hl|]. rewrite Hg. reflexivity.
Defined.

(** ** When a pass executes an instruction *)

(** X11. What a pass does depends on where the instruction pointer is.
    In IDLE the pass does nothing.  Otherwise, at an address that
    [isInBounds] accepts it executes one instruction; at any other address
    it executes none, prints the prompt and leaves the explorer in IDLE
    with both pointers, the step count and the input as they were. *)
Theorem a_pass_executes_iff_in_bounds (s s' : Explorer) :
  loop s = Some s' →
  (runMode s = IDLE → s' = s) ∧
  (runMode s ≠ IDLE → isInBounds (program s) (u32 (addrIP s)) = true →
     executed s' = S (executed s)) ∧
  (runMode s ≠ IDLE → isInBounds (program s) (u32 (addrIP s)) = false →
     executed s' = executed s ∧ runMode s' = IDLE ∧
     addrIP s' = addrIP s ∧ addrMP s' = addrMP s ∧ steps s' = steps s ∧
     serialIn s' = serialIn s ∧ serialOut s' = serialOut s ++ [PStr (String LF ". ")]).
Proof.
  intros Hl. split_and!.
  - intros Hidle. unfold loop in Hl. rewrite Hidle in Hl. by injection Hl.
  - intros Hrun Hin. unfold loop in Hl.
    destruct (interpret s) as [s1|] eqn:Hi; [|by destruct (runMode s)].
    assert (s' = countdown s1) as ->
      by (destruct (runMode s); cbn [mbind option_bind] in Hl; congruence).
    rewrite interpret_inside in Hi by done.
    apply execute_steps in Hi as [_ He].
    destruct (countdown_frame s1) as (_ & _ & _ & _ & _ & -> & _).
    by rewrite He.
  - intros Hrun Hout. unfold loop in Hl.
    rewrite interpret_outside in Hl by done.
    assert (s' = setIdle (afterFetch s)) as ->
      by (destruct (runMode s); [done|..]; cbn [mbind option_bind] in Hl;
          injection Hl as <-; reflexivity).
    by fields.
Qed.


Lemma a_pass_executes_iff_in_bounds_witness :
  (∃ s', loop (with_addrIP 2 (explorerOn (bytes "+") (replicate 300 0) RUN)) = Some s' ∧
         executed s' = 0%nat ∧ runMode s' = IDLE) ∧
  (∃ s', loop (with_addrIP 1 (explorerOn (bytes "+") (replicate 300 0) RUN)) = Some s' ∧
         executed s' = 1%nat).
Proof.
  split.
  - eexists. split; [by vm_compute|].
    match goal with |- executed ?X = _ ∧ _ =>
      assert (Hl : loop (with_addrIP 2 (explorerOn (bytes "+") (replicate 300 0) RUN))
                   = Some X) by (vm_compute; reflexivity) end.
    destruct (a_pass_executes_iff_in_bounds _ _ Hl) as (_ & _ & Hout).
    destruct Hout as (He & Hm & _); [discriminate | reflexivity |].
    split; [exact He | exact Hm].
  - eexists. split; [by vm_compute|].
    match goal with |- executed ?X = _ =>
      assert (Hl : loop (with_addrIP 1 (explorerOn (bytes "+") (replicate 300 0) RUN))
                   = Some X) by (vm_compute; reflexivity) end.
    destruct (a_pass_executes_iff_in_bounds _ _ Hl) as (_ & Hin & _).
    apply Hin; [discriminate | reflexivity].
Defined.

(** ** Stepping by a multiple of 65536 *)

(** X12. Stepping by 0, or by any multiple of 65536, does not stop at
    once.  [handlerS] leaves the count at 0, the first pass takes it to
    65535, and as long as the interpreter does not idle by itself the
    explorer keeps stepping: IDLE is reached with the 65536th
    instruction. *)
Theorem step_zero_runs_65536 (s : Explorer) (p : Param) (k : nat) :
  text p ≠ ""%string → u16 (number p) = 0 →
  (1 ≤ k ≤ Z.to_nat 65536)%nat →
  uninterrupted k (handlerS p s) = true →
  steps (handlerS p s) = 0 ∧
  ∃ sk, loops k (handlerS p s) = Some sk ∧
        executed sk = (executed s + k)%nat ∧
        steps sk = 65536 - Z.of_nat k ∧
        runMode sk = (if Z.of_nat k =? 65536 then IDLE else STEP).
Proof.
  intros Htext Hnum Hk Hrun.
  assert (Hmode : runMode (handlerS p s) = STEP).
  { unfold handlerS. by destruct (String.eqb (text p) ""). }
  assert (Hsteps : steps (handlerS p s) = 0).
  { unfold handlerS. destruct (String.eqb_spec (text p) ""); [done|]. by fields. }
  assert (Hex : executed (handlerS p s) = executed s).
  { unfold handlerS. by destruct (String.eqb (text p) ""). }
  split; [done|].
  destruct k as [|k]; [lia|]. cbn [uninterrupted] in Hrun.
  destruct (interpret (handlerS p s)) as [s1|] eqn:Hi; [|done].
  apply andb_true_iff in Hrun as [Hm1 Hrun].
  assert (Hmode1 : runMode s1 = STEP) by (by destruct (runMode s1)).
  destruct (interpret_steps _ s1 Hi) as [Hst He]; [by rewrite Hmode1|].
  assert (Hcd : steps (countdown s1) = 65535 ∧ runMode (countdown s1) = STEP ∧
                executed (countdown s1) = S (executed s)).
  { destruct (countdown_frame s1) as (_ & _ & _ & _ & _ & -> & _).
    unfold countdown. rewrite Hmode1. fields. rewrite Hst, Hsteps.
    change (u16 (0 - 1) =? 0) with false. fields.
    split_and!; [reflexivity | done | congruence]. }
  destruct Hcd as (Hst' & Hm' & He').
  cbn [loops]. unfold loop at 1. rewrite Hmode, Hi. cbn [mbind option_bind].
  destruct (stepping_passes k (countdown s1)) as (sk & Hl & Hs & Hx & Hmk);
    [done | lia | lia | done |].
  exists sk. split_and!; [done | lia | lia |].
  rewrite Hmk, Hst'.
  destruct (Z.eqb_spec 65535 (Z.of_nat k)), (Z.eqb_spec (Z.of_nat (S k)) 65536);
    (done || lia).
Qed.

Lemma step_zero_runs_65536_witness :
  ∃ sk, loops 3 (handlerS (mkParam "0" 0)
                   (explorerOn (bytes "+++") (replicate 300 0) IDLE)) = Some sk ∧
        executed sk = 3%nat ∧ steps sk = 65533 ∧ runMode sk = STEP.
Proof.
  destruct (step_zero_runs_65536
              (explorerOn (bytes "+++") (replicate 300 0) IDLE) (mkParam "0" 0) 3)
    as (_ & sk & Hl & He & Hs & Hm).
  - discriminate.
  - reflexivity.
  - lia.
  - by vm_compute.
  - exists sk. split_and!; [exact Hl | exact He | exact Hs | exact Hm].
Defined.

(** ** Pause and trace *)

Lemma loops_idle n s : runMode s = IDLE → loops n s = Some s.
Proof.
  intros Hidle. induction n as [|n IH]; [done|].
  cbn [loops]. unfold loop. by rewrite Hidle.
Qed.

(** X13. Pause is a toggle on RUN.  From RUN, [p] idles the explorer, and
    passes then do nothing; a second [p] resumes the run where it was: the
    explorer is as before the pause with one prompt more on the output,
    and the run goes on as it would have.  From STEP and from IDLE, [p]
    sets the explorer running. *)
Theorem pause_then_resume (s : Explorer) (n : nat) :
  (runMode s = RUN →
     runMode (handlerP s) = IDLE ∧
     loops n (handlerP s) = Some (handlerP s) ∧
     handlerP (handlerP s) = print (PStr (String LF ". ")) s ∧
     quiet <$> loops n (handlerP (handlerP s)) = quiet <$> loops n s) ∧
  (runMode s ≠ RUN → handlerP s = with_runMode RUN s).
Proof.
  split.
  - intros Hrun.
    assert (Hp : handlerP s = setIdle s) by (unfold handlerP; by rewrite Hrun).
    assert (Hpp : handlerP (handlerP s) = print (PStr (String LF ". ")) s).
    { rewrite Hp. unfold handlerP. fields. destruct s. cbn in *. by subst. }
    split_and!.
    + by rewrite Hp.
    + apply loops_idle. by rewrite Hp.
    + done.
    + rewrite Hpp, loops_quiet. symmetry. by rewrite loops_quiet.
  - intros Hrun. unfold handlerP. by destruct (runMode s).
Qed.

Lemma pause_then_resume_witness :
  runMode (handlerP (explorerOn (bytes "+") (replicate 300 0) RUN)) = IDLE ∧
  runMode (handlerP (handlerP (explorerOn (bytes "+") (replicate 300 0) RUN))) = RUN ∧
  runMode (handlerP (explorerOn (bytes "+") (replicate 300 0) STEP)) = RUN.
Proof.
  destruct (pause_then_resume (explorerOn (bytes "+") (replicate 300 0) RUN) 0)
    as [Hrun _].
  destruct (pause_then_resume (explorerOn (bytes "+") (replicate 300 0) STEP) 0)
    as [_ Hstep].
  destruct (Hrun eq_refl) as (Hi & _ & Hpp & _).
  split_and!; [exact Hi | by rewrite Hpp | by rewrite Hstep].
Defined.

(** X14. The trace command flips the flag, flips it back the second time,
    never changes the run mode, and changes nothing of a run but what is
    printed. *)
Theorem trace_toggle_changes_the_output_only (s : Explorer) (n : nat) :
  listRunning (handlerT s) = negb (listRunning s) ∧
  listRunning (handlerT (handlerT s)) = listRunning s ∧
  runMode (handlerT s) = runMode s ∧
  quiet <$> loops n (handlerT s) = quiet <$> loops n s.
Proof.
  assert (Hq : quiet (handlerT s) = quiet s).
  { unfold handlerT. fields. destruct (runMode s) eqn:Hm; try done.
    destruct s. cbn in *. by subst. }
  split_and!.
  - destruct s as [? ? ? ? l r ? ? ? ? ?]. by destruct l, r.
  - destruct s as [? ? ? ? l r ? ? ? ? ?]. by destruct l, r.
  - destruct s as [? ? ? ? l r ? ? ? ? ?]. by destruct l, r.
  - rewrite loops_quiet, Hq. symmetry. apply loops_quiet.
Qed.


(** ** Write-back *)



(** ** A load that fails *)

(** X15. A load, asked for in IDLE, of a file that is not on the card
    reports it and leaves no program loaded, also where one was loaded
    before: [begin] closes the file first.  Memory and pointers stay as
    they are, and a run asked for next is refused with its message. *)
Theorem a_failed_load_unloads_the_program (s : Explorer) (p : Param) :
  runMode s = IDLE → openOnCard (card s) (text p) = None →
  isLoaded (program (handlerL p s)) = false ∧
  memory (handlerL p s) = memory s ∧
  addrIP (handlerL p s) = addrIP s ∧ addrMP (handlerL p s) = addrMP s ∧
  runMode (handlerL p s) = IDLE ∧
  serialOut (handlerL p s)
  = serialOut s ++ [PStr "load '"; PStr (text p); PStr "'";
                    PStr (String LF "!File not found"); PStr (String LF ". ")] ∧
  runMode (handlerR (handlerL p s)) = IDLE ∧
  serialOut (handlerR (handlerL p s))
  = serialOut (handlerL p s) ++ [PStr "run"; PStr "!No program loaded"].
Proof.
  intros Hidle Hnone.
  assert (Hb : fst (begin (program s) None) = false ∧
               isOpen (_fp (snd (begin (program s) None))) = false).
  { unfold begin. cbn [fst snd].
    set (f0 := if isOpen (_fp (program s)) then close (_fp (program s))
               else _fp (program s)).
    assert (Hf0 : isOpen f0 = false)
      by (subst f0; by destruct (isOpen (_fp (program s))) eqn:Ho).
    match goal with |- context [loadPage ?x 0] =>
      destruct (loadPage_file x 0) as (_ & Ho & _) end.
    cbn [_fp] in Ho. by rewrite Ho. }
  destruct Hb as [Hok Hclosed].
  assert (Hl : handlerL p s
               = setIdle (print (PStr (String LF "!File not found"))
                   (with_program (snd (begin (program s) None))
                      (print (PStr "'") (print (PStr (text p))
                         (print (PStr "load '") s)))))).
  { unfold handlerL. fields. rewrite Hidle, Hnone.
    destruct (begin (program s) None) as [ok q]. cbn [fst snd] in *. by rewrite Hok. }
  rewrite Hl. unfold handlerR, isLoaded. fields. rewrite Hclosed. cbn [negb]. fields.
  split_and!; try done.
  - by rewrite <- !app_assoc.
  - by rewrite <- !app_assoc.
Qed.

Lemma a_failed_load_unloads_the_program_witness :
  isLoaded (program (explorerOn (bytes "+") (replicate 300 0) IDLE)) = true ∧
  isLoaded (program (handlerL (mkParam "none.bf" 0)
                       (explorerOn (bytes "+") (replicate 300 0) IDLE))) = false.
Proof.
  split; [reflexivity|].
  apply (a_failed_load_unloads_the_program
           (explorerOn (bytes "+") (replicate 300 0) IDLE) (mkParam "none.bf" 0));
    reflexivity.
Defined.

(** ** The digits of the dump *)

Lemma htoa_digit n :
  0 ≤ n ≤ 15 → htoa n = if n <? 10 then n + 48 else n + 87.
Proof.
  intros Hn. unfold htoa, u8. change (ch "0") with 48. change (ch "a") with 97.
  destruct (Z.ltb_spec n 10).
  - apply Z.mod_small. lia.
  - destruct (Z.leb_spec 10 n); [|lia]. destruct (Z.leb_spec n 15); [|lia].
    cbn [andb]. rewrite Z.mod_small; lia.
Qed.

Lemma htoa_hexValue n :
  0 ≤ n ≤ 15 → isHexDigit (htoa n) = true ∧ hexValue (htoa n) = n ∧ htoa n ≠ 0.
Proof.
  intros Hn. rewrite htoa_digit by done. unfold isHexDigit, hexValue.
  change (ch "0") with 48. change (ch "9") with 57.
  change (ch "a") with 97. change (ch "f") with 102.
  destruct (Z.ltb_spec n 10).
  - destruct (Z.leb_spec 48 (n + 48)); [|lia].
    destruct (Z.leb_spec (n + 48) 57); [|lia]. cbn. split_and!; [done | lia | lia].
  - destruct (Z.leb_spec (n + 87) 57); [lia|].
    destruct (Z.leb_spec 97 (n + 87)); [|lia].
    destruct (Z.leb_spec (n + 87) 102); [|lia].
    rewrite andb_false_r. cbn. split_and!; [done | lia | lia].
Qed.

Lemma byte_nibbles b :
  0 ≤ b < 256 →
  0 ≤ Z.shiftr b 4 ≤ 15 ∧ 0 ≤ Z.land b 15 ≤ 15 ∧
  16 * Z.shiftr b 4 + Z.land b 15 = b.
Proof.
  intros Hb. rewrite Z.shiftr_div_pow2 by lia.
  change 15 with (Z.ones 4). rewrite Z.land_ones by lia.
  change (2 ^ 4) with 16.
  pose proof (Z.div_mod b 16). pose proof (Z.mod_pos_bound b 16).
  assert (0 ≤ b / 16) by (apply Z.div_pos; lia).
  assert (b / 16 < 16) by (apply Z.div_lt_upper_bound; lia).
  change (Z.ones 4) with 15. lia.
Qed.

(** X16. [htoa] writes hexadecimal digits.  For a byte, the characters
    made of its high and its low four bits are digits 0-9, a-f whose
    values give the byte back; from 16 on [htoa] gives a question
    mark. *)
Theorem htoa_writes_the_hex_digits_of_a_byte (b : Z) :
  0 ≤ b < 256 →
  isHexDigit (htoa (Z.shiftr b 4)) = true ∧ isHexDigit (htoa (Z.land b 15)) = true ∧
  16 * hexValue (htoa (Z.shiftr b 4)) + hexValue (htoa (Z.land b 15)) = b ∧
  (16 ≤ b → htoa b = ch "?").
Proof.
  intros Hb. destruct (byte_nibbles b Hb) as (Hhi & Hlo & Hsum).
  destruct (htoa_hexValue _ Hhi) as (? & -> & _).
  destruct (htoa_hexValue _ Hlo) as (? & -> & _).
  split_and!; [done..|].
  intros H16. unfold htoa.
  destruct (Z.ltb_spec b 10); [lia|]. destruct (Z.leb_spec b 15); [lia|].
  by rewrite andb_false_r.
Qed.

Lemma htoa_writes_the_hex_digits_of_a_byte_witness :
  htoa (Z.shiftr 171 4) = ch "a" ∧ htoa (Z.land 171 15) = ch "b" ∧
  16 * hexValue (htoa (Z.shiftr 171 4)) + hexValue (htoa (Z.land 171 15)) = 171.
Proof.
  destruct (htoa_writes_the_hex_digits_of_a_byte 171) as (_ & _ & Hv & _); [lia|].
  split_and!; [reflexivity | reflexivity | exact Hv].
Defined.

(** X17. For a base address whose successor is an address of the store,
    the line of a dump is 34 characters and the closing NUL, and none of
    the 34 is a NUL whatever byte is shown (a byte up to 10 shows as a
    dot): the line is printed whole.  The dump leaves the explorer in
    IDLE. *)
Theorem the_dump_line_is_printed_whole (s : Explorer) (p : Param) (b : Z) :
  wf (memory s) →
  within (memory s) (u32 (u32 (number p) + 1)) →
  view (memory s) !! Z.to_nat (u32 (u32 (number p) + 1)) = Some b →
  0 ≤ b < 256 →
  ∃ line,
    serialOut (handlerD p s)
    = serialOut s ++ [PStr "dump "; PNum (u32 (number p)); PStr (String LF "");
                      PBuf line; PStr (String LF ". ")] ∧
    length line = 35%nat ∧ line !! 34%nat = Some 0 ∧
    (∀ (i : nat) c, (i < 34)%nat → line !! i = Some c → c ≠ 0) ∧
    runMode (handlerD p s) = IDLE.
Proof.
  intros Hwf Hin Hb Hbyte.
  destruct (dumpLine_known (u32 (number p)) (u32 (u32 (number p) + 1)) b
              (view (memory s)) (_fileSize (memory s)) eq_refl Hb (memory s))
    as (Hline & _); [by split_and!|].
  exists (oneByteLine b).
  unfold handlerD. fields.
  destruct (dumpLine (u32 (number p)) (memory s)) as [sz m].
  cbn [fst snd] in *. fields. subst sz.
  destruct (byte_nibbles b Hbyte) as (Hhi & Hlo & _).
  destruct (htoa_hexValue _ Hhi) as (_ & _ & Hh).
  destruct (htoa_hexValue _ Hlo) as (_ & _ & Hl).
  assert (Hc : (if b <=? 10 then ch "." else b) ≠ 0).
  { destruct (Z.leb_spec b 10); [discriminate | lia]. }
  unfold oneByteLine.
  revert Hh Hl Hc.
  generalize (htoa (Z.shiftr b 4)) (htoa (Z.land b 15))
             (if b <=? 10 then ch "." else b).
  intros hi lo c Hh Hl Hc.
  split_and!; [by rewrite <- !app_assoc | done | done | | done].
  intros i x Hi Hx.
  do 34 (destruct i as [|i]; [cbn in Hx; injection Hx as <-; first [done | discriminate]|]).
  lia.
Qed.


Lemma the_dump_line_is_printed_whole_witness :
  ∃ line,
    serialOut (handlerD (mkParam "5" 5) (explorerOn [] (replicate 150 0) RUN))
    = [PStr "dump "; PNum 5; PStr (String LF ""); PBuf line; PStr (String LF ". ")] ∧
    length line = 35%nat ∧ line !! 34%nat = Some 0 ∧
    runMode (handlerD (mkParam "5" 5) (explorerOn [] (replicate 150 0) RUN)) = IDLE.
Proof.
  destruct (explorerOn_memory_wf [] (replicate 150 0) RUN) as (Hwf & Hf & _);
    [by vm_compute|].
  destruct (the_dump_line_is_printed_whole
              (explorerOn [] (replicate 150 0) RUN) (mkParam "5" 5) 0)
    as (line & Hout & Hlen & Hend & _ & Hidle).
  - exact Hwf.
  - split; [by vm_compute | reflexivity].
  - reflexivity.
  - lia.
  - exists line. split_and!; [exact Hout | exact Hlen | exact Hend | exact Hidle].
Defined.

(** ** Setting up *)

Lemma writeZeros_fresh n data :
  contents (close (FileAccess.writeZeros n (mkSdFile true data 0)))
  = overwrite data 0 (replicate n 0).
Proof.
  destruct (writeZeros_spec n (mkSdFile true data 0)) as [_ Hc];
    [done | cbn [curPosition contents]; lia |].
  cbn [close contents]. by rewrite Hc.
Qed.

Lemma zeros_over data n :
  length (overwrite data 0 (replicate n 0)) = (length data `max` n)%nat ∧
  (∀ i : nat, (i < n)%nat → overwrite data 0 (replicate n 0) !! i = Some 0) ∧
  (∀ i : nat, (n ≤ i)%nat → overwrite data 0 (replicate n 0) !! i = data !! i).
Proof.
  split_and!.
  - rewrite overwrite_length by lia. rewrite length_replicate. lia.
  - intros i Hi. rewrite overwrite_lookup_in by (rewrite ?length_replicate; lia).
    apply lookup_replicate_2. lia.
  - intros i Hi. apply overwrite_lookup_ge; rewrite ?length_replicate; lia.
Qed.

Lemma createMemory_file data s :
  ∃ bytes,
    createMemory (Some data) s
    = (true, mkExplorer (program s) (memory s) (addrIP s) (addrMP s) (listRunning s)
               (runMode s) (steps s) ((MEM_FILENAME, bytes) :: card s)
               (serialIn s) (serialOut s) (executed s)) ∧
    length bytes = (length data `max` Z.to_nat MEMORY_SIZE)%nat ∧
    (∀ i : nat, Z.of_nat i < MEMORY_SIZE → bytes !! i = Some 0) ∧
    (∀ i : nat, MEMORY_SIZE ≤ Z.of_nat i → bytes !! i = data !! i).
Proof.
  destruct (zeros_over data (Z.to_nat MEMORY_SIZE)) as (Hl & Hz & Hk).
  exists (overwrite data 0 (replicate (Z.to_nat MEMORY_SIZE) 0)).
  split_and!.
  - unfold createMemory. cbn zeta. by rewrite writeZeros_fresh.
  - exact Hl.
  - intros i Hi. apply Hz. lia.
  - intros i Hi. apply Hk. lia.
Qed.

(** X18. [setup], with the card present and the memory file to be had,
    leaves the explorer in IDLE, no program loaded, both pointers at 0,
    and the memory object begun on MEMORY.DAT: the first MEMORY_SIZE cells
    read 0 whatever the file held before, and a file that was longer
    keeps its length. *)
Theorem setup_leaves_a_zeroed_memory
    (files : list (string * list Z)) (junkP junkM : list Z) (help : list Printed) :
  length junkM = 100%nat →
  Z.of_nat (length (default [] (openOnCard files MEM_FILENAME))) < 4294967296 →
  ∃ s, setup true true help (powerOn files junkP junkM) = Some s ∧
       runMode s = IDLE ∧ isLoaded (program s) = false ∧
       isLoaded (memory s) = true ∧ wf (memory s) ∧
       _fileSize (memory s)
       = Z.max MEMORY_SIZE
               (Z.of_nat (length (default [] (openOnCard files MEM_FILENAME)))) ∧
       (∀ a, 0 ≤ a < MEMORY_SIZE → fst (get (memory s) a) = 0) ∧
       addrIP s = 0 ∧ addrMP s = 0.
Proof.
  intros Hjunk Hold.
  set (old := default [] (openOnCard files MEM_FILENAME)) in *.
  unfold setup, handlerHelp. fields.
  change (card (powerOn files junkP junkM)) with files. fold old.
  match goal with |- context [createMemory (Some old) ?x] =>
    destruct (createMemory_file old x) as (bytes & -> & Hlen & Hz & _) end.
  fields. cbn [openOnCard]. rewrite String.eqb_refl.
  change (memory (powerOn files junkP junkM)) with (unopened 100 junkM).
  destruct (begin_wf (unopened 100 junkM) bytes) as (Hwf & Hf & Hv & _ & Hok);
    [cbn; lia | cbn; lia | unfold MEMORY_SIZE in *; lia |].
  destruct (begin (unopened 100 junkM) (Some bytes)) as [ok m] eqn:Hb.
  cbn [fst snd] in *. eexists. split; [reflexivity|]. fields.
  split_and!; try done.
  - apply Hwf.
  - rewrite Hf, Hlen. unfold MEMORY_SIZE. lia.
  - intros a Ha. apply get_spec; [done | |].
    + split; [lia|]. unfold isInBounds. rewrite Hf, Hlen. apply Z.leb_le.
      unfold MEMORY_SIZE in *. lia.
    + rewrite Hv. apply Hz. lia.
Qed.


Lemma setup_leaves_a_zeroed_memory_witness :
  ∃ s, setup true true [] (powerOn [(MEM_FILENAME, [1; 2; 3])] [] (replicate 100 9))
       = Some s ∧
       runMode s = IDLE ∧ _fileSize (memory s) = 30000 ∧ fst (get (memory s) 2) = 0.
Proof.
  destruct (setup_leaves_a_zeroed_memory
              [(MEM_FILENAME, [1; 2; 3])] [] (replicate 100 9) [])
    as (s & Hs & Hm & _ & _ & _ & Hf & Hz & _).
  - reflexivity.
  - cbn. lia.
  - exists s. split_and!; [exact Hs | exact Hm | exact Hf | apply Hz; by vm_compute].
Defined.

(** ** BF-run at the end of the program *)

(** X19. BF-run ends by resting on the NUL that ends the program string:
    once the instruction pointer is there, every further pass of [loop]
    leaves the state exactly as it is. *)
Theorem bfrun_rests_on_the_terminator (prog : list Z) (st : BFRun.State) (n : nat) :
  BFRun.ip st = Z.of_nat (length prog) →
  BFRun.loops prog n st = Some st.
Proof.
  intros Hip.
  assert (Hl : BFRun.loop prog st = Some st).
  { unfold BFRun.loop, BFRun.pgm_read_byte. rewrite Hip, Nat2Z.id.
    rewrite lookup_app_r by lia. rewrite Nat.sub_diag. cbn [lookup list_lookup].
    cbn [mbind option_bind]. by rewrite bfrun_dispatch_other. }
  induction n as [|n IH]; [done|]. cbn [BFRun.loops]. by rewrite Hl.
Qed.

Lemma bfrun_rests_on_the_terminator_witness :
  BFRun.loops (bytes "+") 5 (BFRun.mkState 1 (replicate 400 0) 0 [] [])
  = Some (BFRun.mkState 1 (replicate 400 0) 0 [] []).
Proof.
  apply (bfrun_rests_on_the_terminator (bytes "+")). reflexivity.
Defined.

(** ** The file-access variant: positions and pointers *)

Lemma u8_small z : 0 ≤ z < 256 → u8 z = z.
Proof. intros. unfold u8. apply Z.mod_small. lia. Qed.

Lemma overwrite_one l (p : nat) x :
  (p < length l)%nat → overwrite l p [x] = <[p := x]> l.
Proof.
  intros Hp. apply list_eq. intros i.
  destruct (decide (i < p)%nat); [|destruct (decide (i = p))].
  - rewrite overwrite_lookup_lt by lia. by rewrite list_lookup_insert_ne by lia.
  - subst i. rewrite overwrite_lookup_in by (cbn; lia).
    rewrite Nat.sub_diag. by rewrite list_lookup_insert_eq by lia.
  - rewrite overwrite_lookup_ge by (cbn; lia). by rewrite list_lookup_insert_ne by lia.
Qed.

(** X20. The file-access variant stops exactly at the end of the program
    file: with the instruction pointer at the size of the file, the pass
    prints the prompt and idles, and does nothing else. *)
Theorem file_access_stops_at_the_end_of_the_file (s : FileAccess.State) :
  synced s → FileAccess.runMode s ≠ IDLE →
  FileAccess.addrIP s = fileSize (FileAccess.fileProg s) →
  FileAccess.loop s = Some (FileAccess.setIdle s).
Proof.
  intros (Hop & _ & Hpp & _) Hrun Hip.
  assert (Hpeek : FileAccess.peek (FileAccess.fileProg s) = -1).
  { unfold FileAccess.peek. rewrite Hop, Hpp, Hip. unfold fileSize.
    rewrite Nat2Z.id. by rewrite lookup_ge_None_2. }
  unfold FileAccess.loop. rewrite Hpeek.
  destruct (FileAccess.runMode s); done.
Qed.

(** X21. Cell arithmetic of the file-access variant.  With the two file
    positions where the pointers point, a pass over [+] or [-] writes
    (c + 1) mod 256 or (c - 1) mod 256 over the current cell, changes no
    other byte of the memory file nor its length, leaves the program file
    alone, and puts both positions where the pointers are after the
    pass. *)
Theorem file_access_cell_arithmetic (s : FileAccess.State) (c d : Z) :
  synced s → FileAccess.runMode s = RUN → FileAccess.listRunning s = false →
  (FileAccess.peek (FileAccess.fileProg s) = ch "+" ∧ d = 1) ∨
  (FileAccess.peek (FileAccess.fileProg s) = ch "-" ∧ d = -1) →
  contents (FileAccess.fileMem s) !! Z.to_nat (FileAccess.addrMP s) = Some c →
  0 ≤ c < 256 →
  ∃ s', FileAccess.loop s = Some s' ∧ synced s' ∧
        contents (FileAccess.fileMem s')
        = <[Z.to_nat (FileAccess.addrMP s) := (c + d) mod 256]>
            (contents (FileAccess.fileMem s)) ∧
        contents (FileAccess.fileProg s') = contents (FileAccess.fileProg s) ∧
        FileAccess.addrIP s' = FileAccess.addrIP s + 1 ∧
        FileAccess.addrMP s' = FileAccess.addrMP s ∧
        FileAccess.runMode s' = RUN ∧
        FileAccess.serialOut s' = FileAccess.serialOut s.
Proof.
  intros (Hop & Hom & Hpp & Hpm & Hip & Hlp & Hmp & Hlm) Hrun Htr Hop' Hc Hbyte.
  unfold fileSize in *.
  assert (Hlt : FileAccess.addrIP s < Z.of_nat (length (contents (FileAccess.fileProg s)))).
  { destruct (decide (FileAccess.addrIP s
                      = Z.of_nat (length (contents (FileAccess.fileProg s)))))
      as [He|]; [|lia].
    exfalso. unfold FileAccess.peek in Hop'. rewrite Hop, Hpp, He, Nat2Z.id in Hop'.
    rewrite lookup_ge_None_2 in Hop' by lia.
    by destruct Hop' as [[? _]|[? _]]. }
  assert (Hmem : FileAccess.peek (FileAccess.fileMem s) = c).
  { unfold FileAccess.peek. by rewrite Hom, Hpm, Hc. }
  assert (Hne : ∀ o, o = ch "+" ∨ o = ch "-" → (o =? -1) = false)
    by (by intros o [->| ->]).
  set (v := (c + d) mod 256).
  set (f1 := write (FileAccess.fileMem s) [v]).
  assert (Hd : FileAccess.dispatch (FileAccess.peek (FileAccess.fileProg s)) (u8 c) s
               = Some (v, FileAccess.with_fileMem f1 s)).
  { subst f1 v. rewrite (u8_small c) by done.
    destruct Hop' as [[-> ->]|[-> ->]]; reflexivity. }
  unfold FileAccess.loop. rewrite Hrun, Hmem.
  rewrite Hne by (destruct Hop' as [[-> _]|[-> _]]; auto).
  rewrite Hrun. unfold FileAccess.execute, FileAccess.traceBefore. rewrite Htr, Hd.
  cbn [mbind option_bind].
  cbn [FileAccess.addrIP FileAccess.addrMP FileAccess.fileMem FileAccess.fileProg
       FileAccess.with_fileMem FileAccess.with_fileProg FileAccess.with_addrIP].
  rewrite s32_small by lia. rewrite !u32_small by lia.
  assert (Hf1 : isOpen f1 = true ∧
                contents f1 = <[Z.to_nat (FileAccess.addrMP s) := v]>
                                (contents (FileAccess.fileMem s)) ∧
                curPosition f1 = FileAccess.addrMP s + 1).
  { subst f1. unfold write. rewrite Hom. cbn [isOpen contents curPosition length].
    rewrite Hpm. split_and!; [done | apply overwrite_one; lia | lia]. }
  destruct Hf1 as (Ho1 & Hc1 & Hp1).
  assert (Hs1 : seekSet f1 (FileAccess.addrMP s)
                = mkSdFile true (contents f1) (FileAccess.addrMP s)).
  { unfold seekSet, fileSize. rewrite Ho1, Hc1, length_insert. cbn [andb].
    by destruct (Z.leb_spec (FileAccess.addrMP s)
                   (Z.of_nat (length (contents (FileAccess.fileMem s))))); [|lia]. }
  assert (Hs2 : seekSet (FileAccess.fileProg s) (FileAccess.addrIP s + 1)
                = mkSdFile true (contents (FileAccess.fileProg s))
                           (FileAccess.addrIP s + 1)).
  { unfold seekSet, fileSize. rewrite Hop. cbn [andb].
    by destruct (Z.leb_spec (FileAccess.addrIP s + 1)
                   (Z.of_nat (length (contents (FileAccess.fileProg s))))); [|lia]. }
  rewrite Hs1, Hs2.
  unfold FileAccess.traceAfter, FileAccess.countdown.
  cbn [FileAccess.listRunning FileAccess.runMode FileAccess.with_fileMem
       FileAccess.with_fileProg FileAccess.with_addrIP]. rewrite Htr.
  cbn [FileAccess.listRunning FileAccess.runMode FileAccess.with_fileMem
       FileAccess.with_fileProg FileAccess.with_addrIP]. rewrite Hrun.
  eexists. split; [reflexivity|].
  unfold synced, fileSize.
  cbn [FileAccess.addrIP FileAccess.addrMP FileAccess.fileMem FileAccess.fileProg
       FileAccess.runMode FileAccess.serialOut isOpen contents curPosition
       FileAccess.with_fileMem FileAccess.with_fileProg FileAccess.with_addrIP].
  rewrite Hc1, length_insert. split_and!; (done || lia).
Qed.


(** ** Where a bracket stands in a nested text *)

Lemma nested_open_at d l : nested d l → ∀ i : nat,
  l !! i = Some (ch "[") →
  ∃ pre body post d', l = pre ++ ch "[" :: body ++ ch "]" :: post ∧
                      length pre = i ∧ nested d' body ∧ (d' < d)%nat.
Proof.
  induction 1 as [d|d c l Hc1 Hc2 Hn IH|d l1 l2 Hn1 IH1 Hn2 IH2]; intros i Hi.
  - done.
  - destruct i as [|i]; [cbn in Hi; congruence|].
    destruct (IH i Hi) as (pre & body & post & d' & -> & Hl & Hb & Hd).
    exists (c :: pre), body, post, d'. split_and!; [done | cbn; lia | done | done].
  - destruct i as [|i].
    { exists [], l1, l2, d. split_and!; [done | done | done | lia]. }
    rewrite lookup_cons_ne_0 in Hi by lia. cbn [pred] in Hi.
    destruct (decide (i < length l1)%nat) as [Hlt|Hge].
    + rewrite lookup_app_l in Hi by done.
      destruct (IH1 i Hi) as (pre & body & post & d' & -> & Hl & Hb & Hd).
      exists (ch "[" :: pre), body, (post ++ ch "]" :: l2), d'.
      split_and!; [|cbn; lia|done|lia].
      cbn [app]. f_equal. rewrite <- !app_assoc. cbn [app]. f_equal. f_equal.
      by rewrite <- app_assoc.
    + rewrite lookup_app_r in Hi by lia.
      destruct (decide (i = length l1)) as [->|Hne];
        [rewrite Nat.sub_diag in Hi; by vm_compute in Hi|].
      rewrite lookup_cons_ne_0 in Hi by lia.
      destruct (IH2 _ Hi) as (pre & body & post & d' & -> & Hl & Hb & Hd).
      exists (ch "[" :: l1 ++ ch "]" :: pre), body, post, d'.
      split_and!; [|rewrite length_cons, length_app, length_cons; lia|done|done].
      cbn [app]. f_equal. rewrite <- app_assoc. done.
Qed.

Lemma nested_close_at d l : nested d l → ∀ i : nat,
  l !! i = Some (ch "]") →
  ∃ pre body post d', l = pre ++ ch "[" :: body ++ ch "]" :: post ∧
                      (length pre + S (length body))%nat = i ∧
                      nested d' body ∧ (d' < d)%nat.
Proof.
  induction 1 as [d|d c l Hc1 Hc2 Hn IH|d l1 l2 Hn1 IH1 Hn2 IH2]; intros i Hi.
  - done.
  - destruct i as [|i]; [change (Some c = Some (ch "]")) in Hi; congruence|].
    destruct (IH i Hi) as (pre & body & post & d' & -> & Hl & Hb & Hd).
    exists (c :: pre), body, post, d'. split_and!; [done | cbn; lia | done | done].
  - destruct i as [|i]; [by vm_compute in Hi|].
    rewrite lookup_cons_ne_0 in Hi by lia. cbn [pred] in Hi.
    destruct (decide (i < length l1)%nat) as [Hlt|Hge].
    + rewrite lookup_app_l in Hi by done.
      destruct (IH1 i Hi) as (pre & body & post & d' & -> & Hl & Hb & Hd).
      exists (ch "[" :: pre), body, (post ++ ch "]" :: l2), d'.
      split_and!; [|cbn; lia|done|lia].
      cbn [app]. f_equal. rewrite <- !app_assoc. cbn [app]. f_equal. f_equal.
      by rewrite <- app_assoc.
    + rewrite lookup_app_r in Hi by lia.
      destruct (decide (i = length l1)) as [->|Hne].
      { exists [], l1, l2, d. split_and!; [done | cbn; lia | done | lia]. }
      rewrite lookup_cons_ne_0 in Hi by lia.
      destruct (IH2 _ Hi) as (pre & body & post & d' & -> & Hl & Hb & Hd).
      exists (ch "[" :: l1 ++ ch "]" :: pre), body, post, d'.
      split_and!; [|rewrite length_cons, length_app, length_cons; lia|done|done].
      cbn [app]. f_equal. rewrite <- app_assoc. done.
Qed.

(** ** What a bracket pass leaves alone *)

Lemma scanForward_frame fuel : ∀ count s s',
  wf (program s) → scanForward fuel count s = Some s' →
  wf (program s') ∧ view (program s') = view (program s) ∧
  _fileSize (program s') = _fileSize (program s) ∧
  memory s' = memory s ∧ addrMP s' = addrMP s ∧ serialIn s' = serialIn s ∧
  listRunning s' = listRunning s.
Proof.
  induction fuel as [|fuel IH]; intros count s s' Hwf; cbn [scanForward];
    destruct (count =? 0); try (by intros [= <-]); try done.
  fields.
  destruct (isInBounds (program s) (u32 (s32 (addrIP s + 1)))) eqn:Hin; cbn [negb].
  - assert (Hw : within (program s) (u32 (s32 (addrIP s + 1))))
      by (split; [apply u32_range | done]).
    destruct (get_spec _ _ Hwf Hw) as (Hwf1 & Hv1 & Hf1 & _).
    destruct (get (program s) (u32 (s32 (addrIP s + 1)))) as [opcode p].
    cbn [snd] in *. intros Hs. apply IH in Hs; [|done]. fields.
    destruct Hs as (? & -> & -> & ? & ? & ? & ?). by split_and!.
  - by intros [= <-].
Qed.

Lemma scanBackward_frame fuel : ∀ count s s',
  wf (program s) → scanBackward fuel count s = Some s' →
  wf (program s') ∧ view (program s') = view (program s) ∧
  _fileSize (program s') = _fileSize (program s) ∧
  memory s' = memory s ∧ addrMP s' = addrMP s ∧ serialIn s' = serialIn s ∧
  listRunning s' = listRunning s.
Proof.
  induction fuel as [|fuel IH]; intros count s s' Hwf; cbn [scanBackward];
    destruct (count =? 0); try (by intros [= <-]); try done.
  fields.
  destruct (isInBounds (program s) (u32 (s32 (addrIP s - 1)))) eqn:Hin; cbn [negb].
  - assert (Hw : within (program s) (u32 (s32 (addrIP s - 1))))
      by (split; [apply u32_range | done]).
    destruct (get_spec _ _ Hwf Hw) as (Hwf1 & Hv1 & Hf1 & _).
    destruct (get (program s) (u32 (s32 (addrIP s - 1)))) as [opcode p].
    cbn [snd] in *. intros Hs. apply IH in Hs; [|done]. fields.
    destruct Hs as (? & -> & -> & ? & ? & ? & ?). by split_and!.
  - by intros [= <-].
Qed.

Lemma bracket_pass_frame s s' :
  midRun s → runMode s = RUN → listRunning s = false →
  fetched s = ch "[" ∨ fetched s = ch "]" →
  loop s = Some s' →
  ∃ s1, s' = with_addrIP (s32 (addrIP s1 + 1)) s1 ∧ landed s s1 ∧
        wf (program s1) ∧ view (program s1) = view (program s) ∧
        _fileSize (program s1) = _fileSize (program s) ∧
        wf (memory s1) ∧ view (memory s1) = view (memory s) ∧
        _fileSize (memory s1) = _fileSize (memory s) ∧
        addrMP s1 = addrMP s ∧ serialIn s1 = serialIn s ∧ listRunning s1 = false ∧
        steps s1 = steps s.
Proof.
  intros Hs Hrun Htr Hop Hl.
  destruct (afterFetch_observe s Hs) as (Ho & Hwm & Hwp & Hfm & Hfp & Hex & Hlr).
  assert (Hin : isInBounds (program s) (u32 (addrIP s)) = true) by apply Hs.
  set (x := with_executed (S (executed s)) (afterFetch s)) in *.
  assert (Hx : observe x = observe s) by (by rewrite <- Ho).
  assert (Hinx : isInBounds (program x) (u32 (addrIP x)) = true).
  { unfold isInBounds in *. subst x. fields. by rewrite get_fileSize. }
  assert (Hd : ∃ s1, dispatch (fetched s) (cell s) x = Some (cell s, s1) ∧
                     (s1 = x ∨ scanForward (scanFuel x) 1 x = Some s1
                      ∨ scanBackward (scanFuel x) 1 x = Some s1)).
  { unfold loop in Hl. rewrite Hrun, interpret_inside in Hl by (by rewrite ?Hrun).
    unfold execute, traceBefore in Hl. rewrite Hlr, Htr, Hex in Hl. fold x in Hl.
    destruct (dispatch (fetched s) (cell s) x) as [[m1 s1]|] eqn:Hd; [|done].
    clear Hl. exists s1. destruct Hop as [Hf|Hf]; rewrite Hf in Hd.
    - change (dispatch (ch "[") (cell s) x) with (caseOpen (cell s) x) in Hd.
      unfold caseOpen in Hd. destruct (cell s =? 0).
      + destruct (scanForward (scanFuel x) 1 x) as [t|] eqn:Hsc; [|done].
        injection Hd as <- <-. auto.
      + injection Hd as <- <-. auto.
    - change (dispatch (ch "]") (cell s) x) with (caseClose (cell s) x) in Hd.
      unfold caseClose in Hd. destruct (cell s =? 0).
      + injection Hd as <- <-. auto.
      + destruct (scanBackward (scanFuel x) 1 x) as [t|] eqn:Hsc; [|done].
        injection Hd as <- <-. auto. }
  destruct Hd as (s1 & Hd & Hcase).
  assert (Hfr : landed x s1 ∧
                wf (program s1) ∧ view (program s1) = view (program x) ∧
                _fileSize (program s1) = _fileSize (program x) ∧
                memory s1 = memory x ∧ addrMP s1 = addrMP x ∧
                serialIn s1 = serialIn x ∧ listRunning s1 = listRunning x ∧
                steps s1 = steps x).
  { destruct Hcase as [->|[Hsc|Hsc]].
    - split_and!; try done. by left.
    - destruct (scanForward_frame _ _ x _ Hwp Hsc) as (? & ? & ? & ? & ? & ? & ?).
      destruct (scanForward_steps _ _ _ _ Hsc) as [? _].
      split_and!; try done.
      destruct (scanForward_lands_or_reports _ _ _ _ Hinx Hsc) as [Hok|(? & ? & ?)];
        [by left | right; auto].
    - destruct (scanBackward_frame _ _ x _ Hwp Hsc) as (? & ? & ? & ? & ? & ? & ?).
      destruct (scanBackward_steps _ _ _ _ Hsc) as [? _].
      split_and!; try done.
      destruct (scanBackward_lands_or_reports _ _ _ _ Hinx Hsc) as [Hok|(? & ? & ?)];
        [by left | right; auto]. }
  destruct Hfr as (Hland & Hwp1 & Hvp1 & Hfp1 & Hm1 & Hmp1 & Hsi1 & Hlr1 & Hst1).
  assert (Hlr1' : listRunning s1 = false) by (rewrite Hlr1; subst x; by fields).
  assert (Hmode1 : runMode s1 ≠ STEP).
  { destruct Hland as [(_ & -> & _)|(_ & -> & _)]; [|done].
    subst x. fields. by rewrite Hrun. }
  exists s1. split.
  - rewrite (run_pass s (cell s) s1) in Hl by done. by injection Hl.
  - assert (Hv : view (memory x) = view (memory s) ∧
                 view (program x) = view (program s))
      by (unfold observe in Hx; split; congruence).
    destruct Hv as [Hvm Hvp].
    split_and!.
    + destruct Hland as [(? & ? & ?)|(? & ? & ?)]; [left | right]; by split_and!.
    + done.
    + by rewrite Hvp1.
    + rewrite Hfp1. exact Hfp.
    + rewrite Hm1. exact Hwm.
    + by rewrite Hm1.
    + rewrite Hm1. exact Hfm.
    + by rewrite Hmp1.
    + by rewrite Hsi1.
    + done.
    + by rewrite Hst1.
Qed.

Lemma u32_s32_pred z : u32 (s32 z - 1) = u32 (z - 1).
Proof.
  unfold u32, s32.
  replace ((z + 2147483648) mod 4294967296 - 2147483648 - 1)
    with ((z + 2147483648) mod 4294967296 - 2147483649) by lia.
  rewrite Zminus_mod_idemp_l. f_equal. lia.
Qed.

Lemma bfrun_bracket_frame prog st st' b :
  b = ch "[" ∨ b = ch "]" →
  BFRun.pgm_read_byte prog (BFRun.ip st) = Some b →
  BFRun.loop prog st = Some st' →
  BFRun.cells st' = BFRun.cells st ∧ BFRun.mp st' = BFRun.mp st ∧
  BFRun.input st' = BFRun.input st ∧ BFRun.output st' = BFRun.output st.
Proof.
  intros Hb Hrd. unfold BFRun.loop. rewrite Hrd. cbn [mbind option_bind].
  assert (Hd : ∀ t, BFRun.dispatch prog b st = Some t →
                    BFRun.cells t = BFRun.cells st ∧ BFRun.mp t = BFRun.mp st ∧
                    BFRun.input t = BFRun.input st ∧ BFRun.output t = BFRun.output st).
  { intros t. destruct Hb as [-> | ->].
    - change (BFRun.dispatch prog (ch "[") st)
        with (v ← BFRun.deref st;
              if v =? 0
              then i ← BFRun.scanForward prog (BFRun.scanFuel prog) 1 (BFRun.ip st);
                   Some (BFRun.with_ip i st)
              else Some st).
      destruct (BFRun.deref st) as [v|]; [|done]. cbn [mbind option_bind].
      destruct (v =? 0); [|by intros [= <-]].
      destruct (BFRun.scanForward _ _ _ _) as [i|]; [|done]. by intros [= <-].
    - change (BFRun.dispatch prog (ch "]") st)
        with (v ← BFRun.deref st;
              if v =? 0
              then Some st
              else i ← BFRun.scanBackward prog (BFRun.scanFuel prog) 1 (BFRun.ip st);
                   Some (BFRun.with_ip i st)).
      destruct (BFRun.deref st) as [v|]; [|done]. cbn [mbind option_bind].
      destruct (v =? 0); [by intros [= <-]|].
      destruct (BFRun.scanBackward _ _ _ _) as [i|]; [|done]. by intros [= <-]. }
  destruct (BFRun.dispatch prog b st) as [t|]; [|done]. cbn [mbind option_bind].
  specialize (Hd t eq_refl). intros [= <-]. by destruct (b =? 0).
Qed.

(** A bracket pass that ends inside the text has printed nothing and is
    still running. *)
Lemma bracket_pass_lands prog s s' :
  progHolds prog s → wf (memory s) → u32 (addrMP s) < _fileSize (memory s) →
  runMode s = RUN → listRunning s = false → 0 ≤ addrIP s →
  isInBounds (program s) (u32 (addrIP s)) = true →
  fetched s = ch "[" ∨ fetched s = ch "]" →
  loop s = Some s' → 0 < addrIP s' ≤ Z.of_nat (length prog) →
  runMode s' = RUN ∧ serialOut s' = serialOut s ∧ listRunning s' = false ∧
  progHolds prog s' ∧ addrMP s' = addrMP s ∧
  wf (memory s') ∧ view (memory s') = view (memory s) ∧
  _fileSize (memory s') = _fileSize (memory s) ∧ serialIn s' = serialIn s.
Proof.
  intros Hok Hwm Hmp Hrun Htr Hip Hin Hf Hl Hrange.
  assert (Hlen : Z.of_nat (length prog) < 2147483648) by apply Hok.
  assert (Hmid : midRun s) by (destruct Hok as (Hwp & _); by split_and!).
  destruct (bracket_pass_frame s s' Hmid Hrun Htr Hf Hl) as (s1 & -> & Hland & Hfr).
  destruct Hfr as (Hwp1 & Hvp1 & Hfp1 & Hwm1 & Hvm1 & Hfm1 & Hmp1 & Hsi1 & Hlr1 & _).
  destruct Hok as (Hwp & Hvp & Hfp & _).
  fields.
  assert (Hin1 : isInBounds (program s1) (u32 (addrIP s1)) = true).
  { unfold isInBounds. apply Z.leb_le. rewrite Hfp1, Hfp.
    replace (addrIP s1) with (addrIP s1 + 1 - 1) by lia.
    rewrite <- u32_s32_pred. rewrite u32_small; lia. }
  destruct Hland as [(_ & Hm & Ho)|(Hout & _)]; [|congruence].
  split_and!; [congruence | done | done | | done | done | done | done | done].
  unfold progHolds. fields. split_and!; [done | congruence | congruence | done].
Qed.

(** ** Balanced programs *)




(** ** The clearing loop *)

Lemma view_get m addr b :
  wf m → within m addr → view m !! Z.to_nat addr = Some b → fst (get m addr) = b.
Proof. intros Hwf Hin Hb. by apply get_spec. Qed.

(** One pass over [+] or [-], with everything it leaves in place. *)
Lemma arith_pass prog s (d opcode k : Z) :
  (opcode = ch "+" ∧ d = 1) ∨ (opcode = ch "-" ∧ d = -1) →
  progHolds prog s → wf (memory s) → u32 (addrMP s) < _fileSize (memory s) →
  runMode s = RUN → listRunning s = false →
  0 ≤ addrIP s → prog !! Z.to_nat (addrIP s) = Some opcode →
  view (memory s) !! Z.to_nat (u32 (addrMP s)) = Some k →
  ∃ s', loop s = Some s' ∧ progHolds prog s' ∧ wf (memory s') ∧
        _fileSize (memory s') = _fileSize (memory s) ∧
        addrMP s' = addrMP s ∧ addrIP s' = addrIP s + 1 ∧
        runMode s' = RUN ∧ listRunning s' = false ∧ serialOut s' = serialOut s ∧
        serialIn s' = serialIn s ∧
        view (memory s') !! Z.to_nat (u32 (addrMP s)) = Some (u8 (k + d)) ∧
        (∀ (j : nat) b, j ≠ Z.to_nat (u32 (addrMP s)) →
           view (memory s) !! j = Some b → view (memory s') !! j = Some b).
Proof.
  intros Hop Hok Hwm Hmp Hrun Htr Hip Hat Hk.
  pose proof (lookup_lt_Some _ _ _ Hat) as Hlt.
  assert (Hlen : Z.of_nat (length prog) < 2147483648) by apply Hok.
  destruct (progHolds_get prog s (addrIP s) opcode Hok Hip Hat) as (Hin & Hget & Hnext).
  assert (Hu : u32 (addrIP s) = addrIP s) by (apply u32_small; lia).
  rewrite Hu in Hin, Hget.
  assert (Hf : fetched s = opcode) by (unfold fetched; by rewrite Hu).
  assert (Hmid : midRun s)
    by (destruct Hok as (Hwp & _); split_and!; [done..|by rewrite Hu]).
  destruct (midRun_within s Hmid) as [Hm _].
  assert (Hc : cell s = k) by (by apply view_get).
  destruct (get_spec _ _ Hwm Hm) as (Hwm1 & Hv1 & Hf1 & _).
  set (x := with_executed (S (executed s)) (afterFetch s)).
  set (m1 := snd (get (memory s) (u32 (addrMP s)))) in *.
  assert (Hm1 : within m1 (u32 (addrMP s))).
  { destruct Hm as [H0 Hb]. split; [done|]. unfold isInBounds in *. by rewrite Hf1. }
  destruct (set_spec m1 (u32 (addrMP s)) (u8 (k + d)) Hwm1 Hm1)
    as (Hw2 & Hf2 & _ & Hv2 & Hother).
  exists (with_addrIP (s32 (addrIP s + 1))
            (with_memory (set m1 (u32 (addrMP s)) (u8 (k + d))) x)).
  split.
  - apply (run_pass s (u8 (k + d))
             (with_memory (set m1 (u32 (addrMP s)) (u8 (k + d))) x));
      [done | done | by rewrite Hu | | |].
    + rewrite Hf, Hc. fold x. destruct Hop as [[-> ->]|[-> ->]]; reflexivity.
    + subst x. fields. by rewrite Hrun.
    + subst x. fields. by rewrite <- Htr.
  - subst x. fields. split_and!; try done.
    + apply Hnext. fields. by rewrite Hu.
    + congruence.
    + rewrite s32_small; lia.
    + intros j b Hj Hb. apply Hother; [done|]. by rewrite Hv1.
Qed.

Section Clearing.

Variables (pre post : list Z).
Let prog : list Z := pre ++ ch "[" :: [ch "-"] ++ ch "]" :: post.

(** The explorer inside the loop, on the [-], with [k] in the current cell. *)
Let inside (s0 s : Explorer) (k : Z) : Prop :=
  progHolds prog s ∧ wf (memory s) ∧ _fileSize (memory s) = _fileSize (memory s0) ∧
  addrMP s = addrMP s0 ∧ runMode s = RUN ∧ listRunning s = false ∧
  serialOut s = serialOut s0 ∧ serialIn s = serialIn s0 ∧
  view (memory s) !! Z.to_nat (u32 (addrMP s0)) = Some k ∧
  (∀ (j : nat) b, j ≠ Z.to_nat (u32 (addrMP s0)) →
     view (memory s0) !! j = Some b → view (memory s) !! j = Some b).

Lemma clearing_rounds (s0 : Explorer) (k : nat) : ∀ s,
  u32 (addrMP s0) < _fileSize (memory s0) →
  inside s0 s (Z.of_nat (S k)) → Z.of_nat (S k) < 256 →
  addrIP s = Z.of_nat (length pre) + 1 →
  ∃ s', loops (2 * S k) s = Some s' ∧ inside s0 s' 0 ∧
        addrIP s' = Z.of_nat (length pre) + 3.
Proof.
  destruct (loop_text_lookup pre [ch "-"] post) as (Hopen & Hclose & Hbody & Hlen).
  fold prog in Hopen, Hclose, Hbody, Hlen. cbn [length] in *.
  assert (Hminus : prog !! Z.to_nat (Z.of_nat (length pre) + 1) = Some (ch "-")).
  { trans ([ch "-"] !! 0%nat); [|done]. rewrite <- Hbody by lia. f_equal. lia. }
  assert (Hclose' : prog !! Z.to_nat (Z.of_nat (length pre) + 1 + 1) = Some (ch "]")).
  { rewrite <- Hclose. f_equal. lia. }
  clear Hbody Hclose.
  induction k as [|k IH]; intros s Hmp0 Hin Hk Hip;
    destruct Hin as (Hok & Hwm & Hfs & Hmp & Hrun & Htr & Hout & Hsi & Hv & Hoth).
  - (* the last round: [-] leaves 0, the bracket falls through *)
    destruct (arith_pass prog s (-1) (ch "-") 1) as (s1 & Hl1 & Hok1 & Hwm1 & Hfs1 &
      Hmp1 & Hip1 & Hrun1 & Htr1 & Hout1 & Hsi1 & Hv1 & Hoth1);
      [by right | done | done | by rewrite Hmp, Hfs | done | done | lia
      | by rewrite Hip
      | by rewrite Hmp |].
    rewrite Hmp in Hv1, Hoth1. change (u8 (1 + -1)) with 0 in Hv1.
    assert (Hlt : Z.of_nat (length prog) < 2147483648) by apply Hok.
    destruct (progHolds_get prog s1 (addrIP s1) (ch "]") Hok1) as (Hin1 & Hget1 & _);
      [lia | by rewrite Hip1, Hip |].
    assert (Hu : u32 (addrIP s1) = addrIP s1) by (apply u32_small; lia).
    assert (Hc1 : cell s1 = 0).
    { apply view_get; [done | | by rewrite Hmp1, Hmp].
      split; [apply u32_range|]. unfold isInBounds. apply Z.leb_le.
      rewrite Hfs1, Hmp1, Hmp, Hfs. lia. }
    set (x := with_executed (S (executed s1)) (afterFetch s1)).
    assert (Hl2 : loop s1 = Some (with_addrIP (s32 (addrIP x + 1)) x)).
    { apply (run_pass s1 (cell s1)); [done | done | done | | |].
      - unfold fetched. rewrite Hget1. fold x.
        change (dispatch (ch "]") (cell s1) x) with (caseClose (cell s1) x).
        unfold caseClose. by rewrite Hc1.
      - subst x. fields. by rewrite Hrun1.
      - subst x. fields. by rewrite <- Htr1. }
    destruct (bracket_pass_lands prog s1 (with_addrIP (s32 (addrIP x + 1)) x))
      as (Hrun2 & Hout2 & Htr2 & Hok2 & Hmp2 & Hwm2 & Hv2 & Hfs2 & Hsi2);
      [done | done | rewrite Hmp1, Hmp, Hfs1, Hfs; lia | done | done | lia | done
      | right; unfold fetched; by rewrite Hget1 | done
      | subst x; fields; rewrite s32_small; lia |].
    eexists. split.
    + cbn [loops Nat.mul Nat.add]. rewrite Hl1. cbn [mbind option_bind].
      rewrite Hl2. reflexivity.
    + split.
      * unfold inside. rewrite Hv2.
        split_and!; [done | done | congruence | congruence | done | done
                    | congruence | congruence | done |].
        intros j b Hj Hb. apply Hoth1; [done|]. by apply Hoth.
      * subst x. fields. rewrite s32_small; lia.
  - (* a round that jumps back *)
    destruct (arith_pass prog s (-1) (ch "-") (Z.of_nat (S (S k))))
      as (s1 & Hl1 & Hok1 & Hwm1 & Hfs1 &
          Hmp1 & Hip1 & Hrun1 & Htr1 & Hout1 & Hsi1 & Hv1 & Hoth1);
      [by right | done | done | by rewrite Hmp, Hfs | done | done | lia
      | by rewrite Hip
      | by rewrite Hmp |].
    rewrite Hmp in Hv1, Hoth1.
    replace (u8 (Z.of_nat (S (S k)) + -1)) with (Z.of_nat (S k)) in Hv1
      by (unfold u8; rewrite Z.mod_small; lia).
    assert (Hc1 : cell s1 ≠ 0).
    { assert (cell s1 = Z.of_nat (S k)) as ->; [|lia].
      apply view_get; [done | | by rewrite Hmp1, Hmp].
      split; [apply u32_range|]. unfold isInBounds. apply Z.leb_le.
      rewrite Hfs1, Hmp1, Hmp, Hfs. lia. }
    destruct (explorer_jump_backward pre [ch "-"] post 0 s1) as (s2 & Hl2 & Hip2);
      [apply nested_char; [discriminate | discriminate | apply nested_nil]
      | lia | done | by rewrite Hrun1 | cbn [length]; lia | done |].
    assert (Hlt : Z.of_nat (length prog) < 2147483648) by apply Hok.
    destruct (progHolds_get prog s1 (addrIP s1) (ch "]") Hok1) as (Hin1 & Hget1 & _);
      [lia | by rewrite Hip1, Hip |].
    assert (Hu : u32 (addrIP s1) = addrIP s1) by (apply u32_small; lia).
    rewrite Hu in Hin1, Hget1.
    destruct (bracket_pass_lands prog s1 s2)
      as (Hrun2 & Hout2 & Htr2 & Hok2 & Hmp2 & Hwm2 & Hv2 & Hfs2 & Hsi2);
      [done | done | rewrite Hmp1, Hmp, Hfs1, Hfs; lia | done | done | lia
      | by rewrite Hu | right; unfold fetched; by rewrite Hu | done | lia |].
    destruct (IH s2) as (s' & Hl' & Hin' & Hip'); [done | | lia | done |].
    { unfold inside. rewrite Hv2.
      split_and!; [done | done | congruence | congruence | done | done
                  | congruence | congruence | done |].
      intros j b Hj Hb. apply Hoth1; [done|]. by apply Hoth. }
    exists s'. split; [|done].
    replace (2 * S (S k))%nat with (S (S (2 * S k))) by lia.
    cbn [loops]. rewrite Hl1. cbn [mbind option_bind]. rewrite Hl2.
    cbn [mbind option_bind]. exact Hl'.
Qed.

End Clearing.

(** X23. The loop [[-]] clears the current cell.  Entered with the data
    pointer on a cell of the memory file and k in that cell, it is left
    after 1 + 2k passes, with the instruction pointer behind the closing
    bracket, 0 in the current cell, every other cell of the memory file as
    it was, and nothing printed. *)
Theorem the_clearing_loop_zeroes_the_cell
    (pre post : list Z) (s : Explorer) (k : nat) :
  progHolds (pre ++ bytes "[-]" ++ post) s →
  wf (memory s) → u32 (addrMP s) < _fileSize (memory s) →
  runMode s = RUN → listRunning s = false →
  addrIP s = Z.of_nat (length pre) →
  cell s = Z.of_nat k → Z.of_nat k < 256 →
  ∃ s', loops (1 + 2 * k) s = Some s' ∧
        addrIP s' = Z.of_nat (length pre) + 3 ∧ cell s' = 0 ∧
        addrMP s' = addrMP s ∧ runMode s' = RUN ∧ serialOut s' = serialOut s ∧
        (∀ a, 0 ≤ a < _fileSize (memory s) → a ≠ u32 (addrMP s) →
              fst (get (memory s') a) = fst (get (memory s) a)).
Proof.
  change (pre ++ bytes "[-]" ++ post)
    with (pre ++ ch "[" :: [ch "-"] ++ ch "]" :: post).
  set (prog := pre ++ ch "[" :: [ch "-"] ++ ch "]" :: post).
  intros Hok Hwm Hmp Hrun Htr Hip Hcell Hk.
  destruct (loop_text_lookup pre [ch "-"] post) as (Hopen & _ & _ & Hlen).
  fold prog in Hopen, Hlen. cbn [length] in Hlen.
  assert (Hlt : Z.of_nat (length prog) < 2147483648) by apply Hok.
  pose proof (u32_range (addrMP s)) as Hur.
  assert (Hwithin : ∀ m a, _fileSize m = _fileSize (memory s) →
                           0 ≤ a < _fileSize (memory s) → within m a).
  { intros m a Hf Ha. split; [lia|]. unfold isInBounds. apply Z.leb_le. lia. }
  pose proof (wf_fileSize _ Hwm) as Hfs. pose proof (view_length _ Hwm) as Hvl.
  assert (Hv : view (memory s) !! Z.to_nat (u32 (addrMP s)) = Some (Z.of_nat k)).
  { destruct (lookup_lt_is_Some_2 (view (memory s)) (Z.to_nat (u32 (addrMP s))))
      as [b Hb]; [lia|].
    rewrite Hb. f_equal. rewrite <- Hcell. symmetry.
    apply view_get; [done | apply Hwithin; [done | lia] | done]. }
  destruct (progHolds_get prog s (addrIP s) (ch "[") Hok) as (Hin & Hget & _);
    [lia | by rewrite Hip, Nat2Z.id |].
  assert (Hu : u32 (addrIP s) = addrIP s) by (apply u32_small; lia).
  rewrite Hu in Hin, Hget.
  assert (Hf : fetched s = ch "[") by (unfold fetched; by rewrite Hu).
  assert (Hfirst : ∃ s1, loop s = Some s1 ∧
            addrIP s1 = Z.of_nat (length pre) + (if decide (k = O) then 3 else 1)).
  { destruct k as [|k].
    - destruct (explorer_jump_forward pre [ch "-"] post 0 s) as (s1 & Hl1 & Hip1);
        [apply nested_char; [discriminate | discriminate | apply nested_nil]
        | lia | done | by rewrite Hrun | done | done |].
      exists s1. split; [done|]. rewrite Hip1, decide_True by done.
      change (Z.of_nat (length [ch "-"])) with 1. lia.
    - eexists. split.
      + apply (run_pass s (cell s)); [done | done | by rewrite Hu | | |].
        * rewrite Hf.
          change (dispatch (ch "[") (cell s) ?x) with (caseOpen (cell s) x).
          unfold caseOpen. destruct (Z.eqb_spec (cell s) 0); [lia | reflexivity].
        * fields. by rewrite Hrun.
        * fields. by rewrite <- Htr.
      + fields. rewrite s32_small by lia. rewrite decide_False by done. lia. }
  destruct Hfirst as (s1 & Hl1 & Hip1).
  destruct (bracket_pass_lands prog s s1)
    as (Hrun1 & Hout1 & Htr1 & Hok1 & Hmp1 & Hwm1 & Hv1 & Hfs1 & Hsi1);
    [done | done | done | done | done | lia | by rewrite Hu | by left | done
    | destruct (decide (k = O)); lia |].
  assert (Hin1 : ∀ j, view (memory s1) !! Z.to_nat (u32 (addrMP s)) = Some j →
                 ∀ s', progHolds prog s' ∧ wf (memory s') ∧
                       _fileSize (memory s') = _fileSize (memory s) ∧
                       addrMP s' = addrMP s ∧ runMode s' = RUN ∧
                       listRunning s' = false ∧ serialOut s' = serialOut s ∧
                       serialIn s' = serialIn s ∧
                       view (memory s') !! Z.to_nat (u32 (addrMP s)) = Some 0 ∧
                       (∀ (j : nat) b, j ≠ Z.to_nat (u32 (addrMP s)) →
                          view (memory s) !! j = Some b →
                          view (memory s') !! j = Some b) →
                 cell s' = 0 ∧ addrMP s' = addrMP s ∧ runMode s' = RUN ∧
                 serialOut s' = serialOut s ∧
                 (∀ a, 0 ≤ a < _fileSize (memory s) → a ≠ u32 (addrMP s) →
                       fst (get (memory s') a) = fst (get (memory s) a))).
  { intros _ _ s' (Hok' & Hwm' & Hfs' & Hmp' & Hrun' & Htr' & Hout' & Hsi' & Hv' & Hoth').
    split_and!; try done.
    - unfold cell. rewrite Hmp'.
      apply view_get; [done | apply Hwithin; [done | lia] | done].
    - intros a Ha Hne.
      destruct (lookup_lt_is_Some_2 (view (memory s)) (Z.to_nat a)) as [b Hb]; [lia|].
      rewrite (view_get _ _ b Hwm (Hwithin _ a eq_refl Ha) Hb).
      apply view_get; [done | apply Hwithin; [done | lia] |].
      apply Hoth'; [lia | done]. }
  destruct k as [|k].
  - exists s1. cbn [loops Nat.mul Nat.add]. rewrite Hl1. cbn [mbind option_bind].
    split; [done|]. split; [exact Hip1|].
    apply (Hin1 0); [by rewrite Hv1|].
    split_and!; try done.
    + by rewrite Hv1.
    + intros j b _ Hb. by rewrite Hv1.
  - destruct (clearing_rounds pre post s k s1) as (s' & Hl' & Hin' & Hip');
      [done | | lia | exact Hip1 |].
    { split_and!; try done.
      - by rewrite Hv1.
      - intros j b _ Hb. by rewrite Hv1. }
    exists s'. split; [|split; [exact Hip'|]].
    + replace (1 + 2 * S k)%nat with (S (2 * S k)) by lia.
      cbn [loops]. rewrite Hl1. cbn [mbind option_bind]. exact Hl'.
    + apply (Hin1 (Z.of_nat (S k))); [by rewrite Hv1 | exact Hin'].
Qed.

Lemma the_clearing_loop_zeroes_the_cell_witness :
  ∃ s', loops 7 (with_addrIP 1 (explorerOn (bytes "+[-]+") (3 :: replicate 299 5) RUN))
        = Some s' ∧ addrIP s' = 4 ∧ cell s' = 0 ∧ fst (get (memory s') 1) = 5.
Proof.
  set (s := with_addrIP 1 (explorerOn (bytes "+[-]+") (3 :: replicate 299 5) RUN)).
  assert (Hsize : _fileSize (memory s) = 300) by reflexivity.
  assert (Hone : fst (get (memory s) 1) = 5) by reflexivity.
  assert (Hmp : u32 (addrMP s) = 0) by reflexivity.
  destruct (the_clearing_loop_zeroes_the_cell (bytes "+") (bytes "+") s 3)
    as (s' & Hl & Hip & Hc & _ & _ & _ & Hoth).
  - apply (explorerOn_progHolds (bytes "+[-]+")). cbn. lia.
  - apply explorerOn_memory_wf. cbn. lia.
  - rewrite Hmp, Hsize. lia.
  - reflexivity.
  - reflexivity.
  - reflexivity.
  - reflexivity.
  - lia.
  - exists s'. split_and!; [exact Hl | exact Hip | exact Hc |].
    rewrite Hoth; [exact Hone | rewrite Hsize; lia | rewrite Hmp; lia].
Defined.


Lemma running_synced prog mem :
  Z.of_nat (length prog) < 2147483647 →
  0 < Z.of_nat (length mem) < 2147483647 →
  synced (FileAccess.running prog mem).
Proof.
  intros Hp Hm. unfold synced, FileAccess.running, fileSize.
  cbn [FileAccess.fileProg FileAccess.fileMem FileAccess.addrIP FileAccess.addrMP
       isOpen contents curPosition].
  split_and!; (done || lia).
Qed.

Lemma file_access_stops_at_the_end_of_the_file_witness :
  FileAccess.loop (FileAccess.running [] (replicate 300 0))
  = Some (FileAccess.setIdle (FileAccess.running [] (replicate 300 0))).
Proof.
  apply file_access_stops_at_the_end_of_the_file.
  - apply running_synced; cbn; lia.
  - discriminate.
  - reflexivity.
Defined.

Lemma file_access_cell_arithmetic_witness :
  ∃ s', FileAccess.loop (FileAccess.running (bytes "-+") (replicate 300 0)) = Some s' ∧
        contents (FileAccess.fileMem s') = 255 :: replicate 299 0 ∧
        curPosition (FileAccess.fileMem s') = 0 ∧
        curPosition (FileAccess.fileProg s') = 1.
Proof.
  destruct (file_access_cell_arithmetic
              (FileAccess.running (bytes "-+") (replicate 300 0)) 0 (-1))
    as (s' & Hl & Hsync & Hc & _ & Hip & Hmp & _).
  - apply running_synced; cbn; lia.
  - reflexivity.
  - reflexivity.
  - right. split; reflexivity.
  - reflexivity.
  - lia.
  - exists s'. destruct Hsync as (_ & _ & Hpp & Hpm & _).
    split_and!; [exact Hl | rewrite Hc; reflexivity
                | rewrite Hpm, Hmp; reflexivity | rewrite Hpp, Hip; reflexivity].
Defined.

Lemma file_access_run_resets_witness :
  FileAccess.runMode
    (FileAccess.handlerR
       (FileAccess.mkState (mkSdFile true (bytes "+") 0) (mkSdFile true [7; 7] 1)
          5 1 false IDLE 0 [] [] [])) = RUN ∧
  contents (FileAccess.fileMem
    (FileAccess.handlerR
       (FileAccess.mkState (mkSdFile true (bytes "+") 0) (mkSdFile true [7; 7] 1)
          5 1 false IDLE 0 [] [] []))) !! 1%nat = Some 0.
Proof.
  destruct (file_access_run_resets
              (FileAccess.mkState (mkSdFile true (bytes "+") 0) (mkSdFile true [7; 7] 1)
                 5 1 false IDLE 0 [] [] []))
    as (Hm & _ & _ & Hz); [reflexivity..|].
  split; [exact Hm | apply Hz; unfold MEMORY_SIZE; lia].
Defined.

Lemma loop_ends_witness :
  is_Some (loop (with_serialIn [0] (explorerOn (bytes ",[") (replicate 300 0) RUN))).
Proof.
  apply loop_ends; [|discriminate].
  change (0 ≤ 2 < 4294967295). lia.
Defined.

(** ** A bracket pass either lands or reports *)



(** ** The scans of the file-access variant come to an end *)

Lemma fa_scanForward_ends fuel : ∀ count s,
  -2147483648 ≤ FileAccess.addrIP s < 2147483647 →
  MEMORY_SIZE - FileAccess.addrIP s < Z.of_nat fuel → (0 < fuel)%nat →
  is_Some (FileAccess.scanForward fuel count s).
Proof.
  induction fuel as [|fuel IH]; intros count s Hr Hfuel Hpos;
    cbn [FileAccess.scanForward]; destruct (count =? 0); try done; [lia|].
  cbn [FileAccess.addrIP FileAccess.with_addrIP].
  rewrite s32_small by lia.
  destruct (Z.leb_spec MEMORY_SIZE (FileAccess.addrIP s + 1)); [done|].
  apply IH; cbn [FileAccess.addrIP FileAccess.with_addrIP FileAccess.with_fileProg];
    unfold MEMORY_SIZE in *; lia.
Qed.

Lemma fa_scanBackward_ends fuel : ∀ count s,
  -2147483648 < FileAccess.addrIP s < 2147483648 →
  FileAccess.addrIP s < Z.of_nat fuel → (0 < fuel)%nat →
  is_Some (FileAccess.scanBackward fuel count s).
Proof.
  induction fuel as [|fuel IH]; intros count s Hr Hfuel Hpos;
    cbn [FileAccess.scanBackward]; destruct (count =? 0); try done; [lia|].
  cbn [FileAccess.addrIP FileAccess.with_addrIP].
  rewrite s32_small by lia.
  destruct (Z.ltb_spec (FileAccess.addrIP s - 1) 0); [done|].
  apply IH; cbn [FileAccess.addrIP FileAccess.with_addrIP FileAccess.with_fileProg];
    lia.
Qed.

Lemma fa_caseOpen_ends mem s :
  -2147483648 ≤ FileAccess.addrIP s < 2147483647 →
  is_Some (FileAccess.caseOpen mem s).
Proof.
  intros Hr. unfold FileAccess.caseOpen. destruct (mem =? 0); [|done].
  destruct (fa_scanForward_ends (FileAccess.fuelForward s) 1 s) as [s' ->];
    [done | unfold FileAccess.fuelForward, MEMORY_SIZE; lia
    | unfold FileAccess.fuelForward; lia | done].
Qed.

Lemma fa_caseClose_ends mem s :
  -2147483648 < FileAccess.addrIP s < 2147483648 →
  is_Some (FileAccess.caseClose mem s).
Proof.
  intros Hr. unfold FileAccess.caseClose. destruct (mem =? 0); [done|].
  destruct (fa_scanBackward_ends (FileAccess.fuelBackward s) 1 s) as [s' ->];
    [done | unfold FileAccess.fuelBackward; lia
    | unfold FileAccess.fuelBackward; lia | done].
Qed.

Lemma fa_dispatch_ends opcode mem s :
  -2147483648 < FileAccess.addrIP s < 2147483647 →
  FileAccess.serialIn s ≠ [] →
  is_Some (FileAccess.dispatch opcode mem s).
Proof.
  intros Hr Hin. unfold FileAccess.dispatch.
  repeat match goal with |- context [if ?c =? ?d then _ else _] =>
    destruct (c =? d); [try done|] end; try done.
  - unfold FileAccess.getChar. destruct (FileAccess.serialIn s) as [|c rest]; [done|].
    cbn [mbind option_bind]. apply fa_caseOpen_ends.
    cbn [FileAccess.addrIP FileAccess.with_fileMem FileAccess.with_serialIn]. lia.
  - apply fa_caseOpen_ends. lia.
  - apply fa_caseClose_ends. lia.
Qed.

(** X25. A pass of the file-access variant comes to an end whenever there
    is input for a [,] to read: the forward scan stops at MEMORY_SIZE at
    the latest and the backward scan below 0, within the rounds [loop]
    allows them. *)
Theorem file_access_loop_ends (s : FileAccess.State) :
  -2147483648 < FileAccess.addrIP s < 2147483647 →
  FileAccess.serialIn s ≠ [] →
  is_Some (FileAccess.loop s).
Proof.
  intros Hr Hin. unfold FileAccess.loop.
  destruct (decide (FileAccess.runMode s = IDLE)) as [->|Hrun]; [done|].
  set (opcode := FileAccess.peek (FileAccess.fileProg s)).
  set (mem := u8 (FileAccess.peek (FileAccess.fileMem s))).
  set (t := if opcode =? -1 then FileAccess.setIdle s else s).
  assert (Ht : FileAccess.addrIP t = FileAccess.addrIP s ∧
               FileAccess.serialIn t = FileAccess.serialIn s)
    by (subst t; by destruct (opcode =? -1)).
  destruct Ht as [Hip Hsi].
  assert (He : is_Some (FileAccess.execute opcode mem t)).
  { unfold FileAccess.execute.
    destruct (fa_dispatch_ends opcode mem (FileAccess.traceBefore opcode mem t))
      as [[m1 s1] ->]; [| |by eexists];
      unfold FileAccess.traceBefore; destruct (FileAccess.listRunning t);
      cbn [FileAccess.addrIP FileAccess.serialIn FileAccess.print];
      by rewrite ?Hip, ?Hsi. }
  destruct He as [s1 He].
  assert (is_Some (match FileAccess.runMode t with
                   | IDLE => Some t
                   | _ => FileAccess.execute opcode mem t
                   end)) as [s2 ->]
    by (rewrite He; destruct (FileAccess.runMode t); by eexists).
  destruct (FileAccess.runMode s); by eexists.
Qed.

Lemma file_access_loop_ends_witness :
  is_Some (FileAccess.loop (FileAccess.with_serialIn [0]
                              (FileAccess.running (bytes ",]") (replicate 300 0)))).
Proof.
  apply file_access_loop_ends; [|discriminate].
  change (-2147483648 < 0 < 2147483647). lia.
Defined.


(** ** The explorer and BF-run, pass by pass *)

(** The explorer after the two fetches of a pass, ready for the switch. *)
Lemma fetched_ready prog s b :
  progHolds prog s → wf (memory s) → u32 (addrMP s) < _fileSize (memory s) →
  0 ≤ addrIP s → prog !! Z.to_nat (addrIP s) = Some b →
  let x := with_executed (S (executed s)) (afterFetch s) in
  isInBounds (program s) (u32 (addrIP s)) = true ∧ fetched s = b ∧
  progHolds prog x ∧ wf (memory x) ∧ view (memory x) = view (memory s) ∧
  _fileSize (memory x) = _fileSize (memory s).
Proof.
  intros Hok Hwm Hmp Hip Hat x.
  pose proof (lookup_lt_Some _ _ _ Hat) as Hlt.
  assert (Hlen : Z.of_nat (length prog) < 2147483648) by apply Hok.
  destruct (progHolds_get prog s (addrIP s) b Hok Hip Hat) as (Hin & Hget & Hnext).
  pose proof (u32_range (addrMP s)).
  assert (Hm : within (memory s) (u32 (addrMP s))).
  { split; [lia|]. unfold isInBounds. apply Z.leb_le. lia. }
  destruct (get_spec _ _ Hwm Hm) as (Hwm1 & Hv1 & Hf1 & _).
  split_and!; [done | done | by apply Hnext | done | done | done].
Qed.

Lemma agree_cell prog s st v :
  agree prog s st → 0 ≤ BFRun.mp st < BFRun.MEM_SIZE →
  BFRun.deref st = Some v →
  u32 (addrMP s) = BFRun.mp st ∧ u32 (addrMP s) < _fileSize (memory s) ∧
  view (memory s) !! Z.to_nat (u32 (addrMP s)) = Some v ∧ cell s = v.
Proof.
  intros (Hok & Hwm & Hsz & _ & _ & _ & Hmp & Hlen & Hv & _) Hr Hd.
  unfold BFRun.MEM_SIZE in *.
  assert (Hu : u32 (addrMP s) = BFRun.mp st) by (rewrite Hmp; apply u32_small; lia).
  unfold BFRun.deref in Hd.
  destruct ((0 <=? BFRun.mp st) && (BFRun.mp st <? BFRun.MEM_SIZE)); [|done].
  assert (Hvw : view (memory s) !! Z.to_nat (u32 (addrMP s)) = Some v).
  { rewrite Hu, <- Hd. apply Hv. lia. }
  split_and!; [done | lia | done |].
  apply view_get; [done | | done].
  split; [lia|]. unfold isInBounds. apply Z.leb_le. lia.
Qed.

Lemma bfrun_deref_inside st :
  0 ≤ BFRun.mp st < BFRun.MEM_SIZE →
  Z.of_nat (length (BFRun.cells st)) = BFRun.MEM_SIZE →
  ∃ v, BFRun.deref st = Some v ∧
       ∀ w, BFRun.assign w st
            = Some (BFRun.mkState (BFRun.ip st) (zput (BFRun.cells st) (BFRun.mp st) w)
                      (BFRun.mp st) (BFRun.input st) (BFRun.output st)).
Proof.
  intros Hr Hlen. unfold BFRun.deref, BFRun.assign.
  destruct (Z.leb_spec 0 (BFRun.mp st)); [|lia].
  destruct (Z.ltb_spec (BFRun.mp st) BFRun.MEM_SIZE); [|lia].
  destruct (Z.ltb_spec (BFRun.mp st) (Z.of_nat (length (BFRun.cells st)))); [|lia].
  cbn [andb].
  destruct (lookup_lt_is_Some_2 (BFRun.cells st) (Z.to_nat (BFRun.mp st))) as [v Hv];
    [lia|].
  exists v. by split.
Qed.

Lemma agree_after prog s st x s' st' :
  agree prog s st →
  progHolds prog x → wf (memory x) → view (memory x) = view (memory s) →
  _fileSize (memory x) = _fileSize (memory s) →
  program s' = program x → memory s' = memory x →
  runMode s' = RUN → listRunning s' = false →
  addrIP s' = BFRun.ip st' → addrMP s' = BFRun.mp st' →
  BFRun.cells st' = BFRun.cells st →
  serialIn s' = BFRun.input st' →
  serialOut s' = PChar <$> BFRun.output st' →
  agree prog s' st'.
Proof.
  intros (_ & _ & Hsz & _ & _ & _ & _ & Hcl & Hvw & _) Hokx Hwmx Hvx Hfx
         Hp Hm Hrun Htr Hip Hmp Hc Hsi Hso.
  destruct Hokx as (? & ? & ? & ?).
  unfold agree, progHolds. rewrite Hp, Hm, Hc, Hvx, Hfx. by split_and!.
Qed.

Lemma comma_pass prog s (c : Z) (rest : list Z) :
  progHolds prog s → wf (memory s) → u32 (addrMP s) < _fileSize (memory s) →
  runMode s = RUN → listRunning s = false →
  0 ≤ addrIP s → prog !! Z.to_nat (addrIP s) = Some (ch ",") →
  serialIn s = c :: rest → u8 c ≠ 0 →
  ∃ s', loop s = Some s' ∧ progHolds prog s' ∧ wf (memory s') ∧
        _fileSize (memory s') = _fileSize (memory s) ∧
        addrMP s' = addrMP s ∧ addrIP s' = addrIP s + 1 ∧
        runMode s' = RUN ∧ listRunning s' = false ∧ serialOut s' = serialOut s ∧
        serialIn s' = rest ∧
        view (memory s') !! Z.to_nat (u32 (addrMP s)) = Some (u8 c) ∧
        (∀ (j : nat) b, j ≠ Z.to_nat (u32 (addrMP s)) →
           view (memory s) !! j = Some b → view (memory s') !! j = Some b).
Proof.
  intros Hok Hwm Hmp Hrun Htr Hip Hat Hsi Hc.
  pose proof (lookup_lt_Some _ _ _ Hat) as Hlt.
  assert (Hlen : Z.of_nat (length prog) < 2147483648) by apply Hok.
  destruct (progHolds_get prog s (addrIP s) _ Hok Hip Hat) as (Hin & Hget & Hnext).
  pose proof (u32_range (addrMP s)).
  assert (Hm : within (memory s) (u32 (addrMP s))).
  { split; [lia|]. unfold isInBounds. apply Z.leb_le. lia. }
  destruct (get_spec _ _ Hwm Hm) as (Hwm1 & Hv1 & Hf1 & _).
  set (x := with_executed (S (executed s)) (afterFetch s)).
  set (m1 := snd (get (memory s) (u32 (addrMP s)))) in *.
  assert (Hm1 : within m1 (u32 (addrMP s))).
  { destruct Hm as [H0 Hb]. split; [done|]. unfold isInBounds in *. by rewrite Hf1. }
  destruct (set_spec m1 (u32 (addrMP s)) (u8 c) Hwm1 Hm1)
    as (Hw2 & Hf2 & _ & Hv2 & Hother).
  set (t := with_memory (set m1 (u32 (addrMP s)) (u8 c)) (with_serialIn rest x)).
  exists (with_addrIP (s32 (addrIP s + 1)) t).
  split.
  - apply (run_pass s (u8 c) t); [done | done | done | | |].
    + change (fetched s) with (fst (get (program s) (u32 (addrIP s)))). rewrite Hget. fold x.
      change (dispatch (ch ",") (cell s) x)
        with ('(mem, t) ← getChar x;
              caseOpen mem (with_memory (set (memory t) (u32 (addrMP t)) mem) t)).
      unfold getChar. subst x. fields. rewrite Hsi. cbn [mbind option_bind].
      unfold caseOpen. by destruct (Z.eqb_spec (u8 c) 0).
    + subst t x. fields. by rewrite Hrun.
    + subst t x. fields. by rewrite <- Htr.
  - subst t x. fields. split_and!; try done.
    + by apply Hnext.
    + congruence.
    + rewrite s32_small; lia.
    + intros j b Hj Hb. apply Hother; [done|]. by rewrite Hv1.
Qed.

(** A bracket sends both interpreters to the same place. *)
Lemma bracket_pass_agrees prog d s st b v :
  nested d prog → Z.of_nat d ≤ 65535 → Z.of_nat (length prog) ≤ 65535 →
  b = ch "[" ∨ b = ch "]" →
  progHolds prog s → wf (memory s) → u32 (addrMP s) < _fileSize (memory s) →
  runMode s = RUN → listRunning s = false →
  0 ≤ addrIP s → prog !! Z.to_nat (addrIP s) = Some b →
  BFRun.ip st = addrIP s → cell s = v → BFRun.deref st = Some v →
  ∃ s' st', loop s = Some s' ∧ BFRun.loop prog st = Some st' ∧
            addrIP s' = BFRun.ip st' ∧ 0 < addrIP s' ≤ Z.of_nat (length prog).
Proof.
  intros Hn Hd Hlen Hb Hok Hwm Hmp Hrun Htr Hip Hat Hsame Hc Hv.
  pose proof (lookup_lt_Some _ _ _ Hat) as Hlt.
  destruct (progHolds_get prog s (addrIP s) b Hok Hip Hat) as (Hin & Hget & _).
  assert (Hf : fetched s = b) by done.
  assert (Hrd : BFRun.pgm_read_byte prog (BFRun.ip st) = Some b)
    by (apply bfrun_read; by rewrite Hsame).
  assert (Hfall : dispatch b (cell s) (with_executed (S (executed s)) (afterFetch s))
                  = Some (cell s, with_executed (S (executed s)) (afterFetch s)) →
                  BFRun.dispatch prog b st = Some st →
                  ∃ s' st', loop s = Some s' ∧ BFRun.loop prog st = Some st' ∧
                    addrIP s' = BFRun.ip st' ∧ 0 < addrIP s' ≤ Z.of_nat (length prog)).
  { intros He Hr. eexists _, _. split_and!.
    - apply (run_pass s (cell s)); [done | done | done | by rewrite Hf | |];
        fields; by rewrite ?Hrun, <- ?Htr.
    - unfold BFRun.loop. rewrite Hrd. cbn [mbind option_bind]. rewrite Hr.
      cbn [mbind option_bind].
      assert ((b =? 0) = false) as -> by (by destruct Hb as [-> | ->]).
      reflexivity.
    - fields. cbn [BFRun.ip BFRun.with_ip]. rewrite Hsame, s32_small, u16_small; lia.
    - fields. rewrite s32_small; lia.
    - fields. rewrite s32_small; lia. }
  destruct Hb as [-> | ->].
  - destruct (decide (v = 0)) as [->|Hz].
    + destruct (nested_open_at d prog Hn _ Hat)
        as (pre & body & post & d' & -> & Hl & Hnb & Hd').
      destruct (explorer_jump_forward pre body post d' s) as (s' & Hs' & Ha);
        [done | lia | done | by rewrite Hrun | lia | done |].
      destruct (bfrun_jump_forward pre body post d' st) as (st' & Ht' & Hb');
        [done | lia | done | lia | done |].
      exists s', st'. split_and!; [done | done | lia | lia |].
      rewrite Ha, length_app, length_cons, length_app, length_cons. lia.
    + apply Hfall.
      * change (dispatch (ch "[") (cell s) ?x) with (caseOpen (cell s) x).
        unfold caseOpen. rewrite Hc. by destruct (Z.eqb_spec v 0).
      * change (BFRun.dispatch prog (ch "[") st)
          with (v ← BFRun.deref st;
                if v =? 0
                then i ← BFRun.scanForward prog (BFRun.scanFuel prog) 1 (BFRun.ip st);
                     Some (BFRun.with_ip i st)
                else Some st).
        rewrite Hv. cbn [mbind option_bind]. by destruct (Z.eqb_spec v 0).
  - destruct (decide (v = 0)) as [->|Hz].
    + apply Hfall.
      * change (dispatch (ch "]") (cell s) ?x) with (caseClose (cell s) x).
        unfold caseClose. by rewrite Hc.
      * change (BFRun.dispatch prog (ch "]") st)
          with (v ← BFRun.deref st;
                if v =? 0
                then Some st
                else i ← BFRun.scanBackward prog (BFRun.scanFuel prog) 1 (BFRun.ip st);
                     Some (BFRun.with_ip i st)).
        by rewrite Hv.
    + destruct (nested_close_at d prog Hn _ Hat)
        as (pre & body & post & d' & -> & Hl & Hnb & Hd').
      destruct (explorer_jump_backward pre body post d' s) as (s' & Hs' & Ha);
        [done | lia | done | by rewrite Hrun | lia | by rewrite Hc |].
      destruct (bfrun_jump_backward pre body post d' st v) as (st' & Ht' & Hb');
        [done | lia | done | lia | done | done |].
      exists s', st'. split_and!; [done | done | lia | lia |].
      rewrite Ha, length_app, length_cons, length_app, length_cons. lia.
Qed.

(** One pass of each, from the same situation, leaves them in the same
    situation. *)
Lemma agree_pass
    (prog : list Z) (d : nat) (s : Explorer) (st : BFRun.State) (b : Z) :
  nested d prog → Z.of_nat d ≤ 65535 → Z.of_nat (length prog) ≤ 65535 →
  agree prog s st →
  0 ≤ BFRun.ip st → prog !! Z.to_nat (BFRun.ip st) = Some b → b ≠ 0 →
  0 ≤ BFRun.mp st < BFRun.MEM_SIZE →
  (b = ch "," → ∃ c rest, BFRun.input st = c :: rest ∧ u8 c ≠ 0) →
  ∃ s' st', loop s = Some s' ∧ BFRun.loop prog st = Some st' ∧ agree prog s' st'.
Proof.
  intros Hn Hd Hlen Hag Hip Hat Hb0 Hmpr Hcomma.
  pose proof Hag as (Hok & Hwm & Hsz & Hrun & Htr & Haip & Hamp & Hcl & Hvw & Hsi & Hso).
  destruct (bfrun_deref_inside st Hmpr Hcl) as (v & Hv & Hassign).
  destruct (agree_cell prog s st v Hag Hmpr Hv) as (Hu & Hmp & Hk & Hc).
  pose proof (bfrun_read prog _ b Hat) as Hrd.
  pose proof (lookup_lt_Some _ _ _ Hat) as Hlt.
  rewrite <- Haip in Hip, Hat.
  destruct (fetched_ready prog s b Hok Hwm Hmp Hip Hat)
    as (Hin & Hf & Hokx & Hwmx & Hvx & Hfx).
  set (x := with_executed (S (executed s)) (afterFetch s)) in *.
  assert (Hb0' : (b =? 0) = false) by (by apply Z.eqb_neq).
  unfold BFRun.MEM_SIZE in *.
  destruct (decide (b = ch ">")) as [->|N1].
  { exists (with_addrIP (s32 (addrIP s + 1)) (with_addrMP (s32 (addrMP s + 1)) x)),
           (BFRun.with_ip (u16 (BFRun.ip st + 1)) (BFRun.with_mp (BFRun.mp st + 1) st)).
    split_and!.
    - apply (run_pass s (cell s) (with_addrMP (s32 (addrMP s + 1)) x));
        [done | done | done | by rewrite Hf | |]; subst x; fields;
        by rewrite ?Hrun, <- ?Htr.
    - unfold BFRun.loop. by rewrite Hrd.
    - apply (agree_after prog s st x); try done; subst x; fields;
        cbn [BFRun.ip BFRun.mp BFRun.cells BFRun.input BFRun.output
             BFRun.with_ip BFRun.with_mp]; try done.
      + rewrite s32_small, u16_small; lia.
      + rewrite s32_small; lia. }
  destruct (decide (b = ch "<")) as [->|N2].
  { exists (with_addrIP (s32 (addrIP s + 1)) (with_addrMP (s32 (addrMP s - 1)) x)),
           (BFRun.with_ip (u16 (BFRun.ip st + 1)) (BFRun.with_mp (BFRun.mp st - 1) st)).
    split_and!.
    - apply (run_pass s (cell s) (with_addrMP (s32 (addrMP s - 1)) x));
        [done | done | done | by rewrite Hf | |]; subst x; fields;
        by rewrite ?Hrun, <- ?Htr.
    - unfold BFRun.loop. by rewrite Hrd.
    - apply (agree_after prog s st x); try done; subst x; fields;
        cbn [BFRun.ip BFRun.mp BFRun.cells BFRun.input BFRun.output
             BFRun.with_ip BFRun.with_mp]; try done.
      + rewrite s32_small, u16_small; lia.
      + rewrite s32_small; lia. }
  destruct (decide (b = ch ".")) as [->|N3].
  { exists (with_addrIP (s32 (addrIP s + 1)) (print (PChar (cell s)) x)),
           (BFRun.with_ip (u16 (BFRun.ip st + 1))
              (BFRun.mkState (BFRun.ip st) (BFRun.cells st) (BFRun.mp st)
                 (BFRun.input st) (BFRun.output st ++ [v]))).
    split_and!.
    - apply (run_pass s (cell s) (print (PChar (cell s)) x));
        [done | done | done | by rewrite Hf | |]; subst x; fields;
        by rewrite ?Hrun, <- ?Htr.
    - unfold BFRun.loop. rewrite Hrd. cbn [mbind option_bind].
      change (BFRun.dispatch prog (ch ".") st)
        with (v ← BFRun.deref st;
              Some (BFRun.mkState (BFRun.ip st) (BFRun.cells st) (BFRun.mp st)
                      (BFRun.input st) (BFRun.output st ++ [v]))).
      by rewrite Hv.
    - apply (agree_after prog s st x); try done; subst x; fields;
        cbn [BFRun.ip BFRun.mp BFRun.cells BFRun.input BFRun.output
             BFRun.with_ip BFRun.with_mp]; try done.
      + rewrite s32_small, u16_small; lia.
      + by rewrite fmap_app, Hso, Hc. }
  assert (Hstore : ∀ s' w,
            progHolds prog s' → wf (memory s') →
            _fileSize (memory s') = _fileSize (memory s) →
            addrMP s' = addrMP s → addrIP s' = addrIP s + 1 →
            runMode s' = RUN → listRunning s' = false →
            serialOut s' = serialOut s →
            view (memory s') !! Z.to_nat (u32 (addrMP s)) = Some w →
            (∀ (j : nat) b, j ≠ Z.to_nat (u32 (addrMP s)) →
               view (memory s) !! j = Some b → view (memory s') !! j = Some b) →
            ∀ inp, serialIn s' = inp →
            agree prog s'
              (BFRun.with_ip (u16 (BFRun.ip st + 1))
                 (BFRun.mkState (BFRun.ip st) (zput (BFRun.cells st) (BFRun.mp st) w)
                    (BFRun.mp st) inp (BFRun.output st)))).
  { intros s' w Hok' Hwm' Hf' Hmp' Hip' Hrun' Htr' Hso' Hw Hoth inp Hsi'.
    unfold agree, BFRun.MEM_SIZE.
    cbn [BFRun.ip BFRun.mp BFRun.cells BFRun.input BFRun.output BFRun.with_ip].
    split_and!; try done.
    - lia.
    - rewrite Hip', u16_small; lia.
    - congruence.
    - unfold zput. by rewrite length_insert.
    - intros a Ha. unfold zput.
      destruct (decide (a = Z.to_nat (BFRun.mp st))) as [->|Hne].
      + rewrite list_lookup_insert_eq by lia. by rewrite <- Hu.
      + rewrite list_lookup_insert_ne by done.
        destruct (lookup_lt_is_Some_2 (BFRun.cells st) a) as [w' Hw']; [lia|].
        rewrite Hw'. apply Hoth; [by rewrite Hu|]. rewrite <- Hw'. by apply Hvw.
    - congruence. }
  destruct (decide (b = ch "+")) as [->|N4].
  { destruct (arith_pass prog s 1 (ch "+") v) as (s' & Hl & F);
      [by left | done | done | done | done | done | done | done | done |].
    destruct F as (? & ? & ? & ? & ? & ? & ? & ? & ? & ? & ?).
    exists s'. eexists. split_and!; [done | |].
    - unfold BFRun.loop. rewrite Hrd. cbn [mbind option_bind].
      change (BFRun.dispatch prog (ch "+") st)
        with (v ← BFRun.deref st; BFRun.assign (u8 (v + 1)) st).
      rewrite Hv. cbn [mbind option_bind]. rewrite Hassign. reflexivity.
    - apply Hstore; try done. congruence. }
  destruct (decide (b = ch "-")) as [->|N5].
  { destruct (arith_pass prog s (-1) (ch "-") v) as (s' & Hl & F);
      [by right | done | done | done | done | done | done | done | done |].
    destruct F as (? & ? & ? & ? & ? & ? & ? & ? & ? & ? & ?).
    exists s'. eexists. split_and!; [done | |].
    - unfold BFRun.loop. rewrite Hrd. cbn [mbind option_bind].
      change (BFRun.dispatch prog (ch "-") st)
        with (v ← BFRun.deref st; BFRun.assign (u8 (v - 1)) st).
      rewrite Hv. cbn [mbind option_bind]. rewrite Hassign. reflexivity.
    - apply Hstore; try done. congruence. }
  destruct (decide (b = ch ",")) as [->|N6].
  { destruct (Hcomma eq_refl) as (c & rest & Hinp & Hcz).
    destruct (comma_pass prog s c rest) as (s' & Hl & F);
      [done | done | done | done | done | done | done | congruence | done |].
    destruct F as (? & ? & ? & ? & ? & ? & ? & ? & ? & ? & ?).
    exists s'. eexists. split_and!; [done | |].
    - unfold BFRun.loop. rewrite Hrd. cbn [mbind option_bind].
      change (BFRun.dispatch prog (ch ",") st)
        with ('(c, s) ← BFRun.getChar st; BFRun.assign c s).
      unfold BFRun.getChar. rewrite Hinp. cbn [mbind option_bind].
      unfold BFRun.assign, BFRun.MEM_SIZE.
      cbn [BFRun.ip BFRun.mp BFRun.cells BFRun.input BFRun.output].
      destruct (Z.leb_spec 0 (BFRun.mp st)); [|lia].
      destruct (Z.ltb_spec (BFRun.mp st) 400); [|lia].
      destruct (Z.ltb_spec (BFRun.mp st) (Z.of_nat (length (BFRun.cells st)))); [|lia].
      reflexivity.
    - by apply Hstore. }
  destruct (decide (b = ch "[" ∨ b = ch "]")) as [Hbr|N7].
  { destruct (bracket_pass_agrees prog d s st b v Hn Hd Hlen Hbr Hok Hwm Hmp Hrun Htr
                Hip Hat (eq_sym Haip) Hc Hv)
      as (s' & st' & Hl & Hl' & Hsame & Hrange).
    assert (Hfb : fetched s = ch "[" ∨ fetched s = ch "]") by (by rewrite Hf).
    destruct (bracket_pass_lands prog s s' Hok Hwm Hmp Hrun Htr Hip Hin Hfb Hl Hrange)
      as (? & ? & ? & ? & ? & ? & ? & ? & ?).
    destruct (bfrun_bracket_frame prog st st' b Hbr Hrd Hl') as (Hc' & Hm' & Hi' & Ho').
    exists s', st'. split_and!; [done | done |].
    unfold agree. rewrite Hc', Hm', Hi', Ho'.
    split_and!; try done; try congruence.
    - unfold BFRun.MEM_SIZE. lia.
    - intros a Ha. rewrite <- (Hvw a Ha). congruence. }
  assert (Hnc : isCommand b = false).
  { unfold isCommand.
    repeat match goal with
           | H : b ≠ ?c |- _ => apply Z.eqb_neq in H; rewrite H; clear H
           end.
    assert ((b =? ch "[") = false) as -> by (apply Z.eqb_neq; tauto).
    assert ((b =? ch "]") = false) as -> by (apply Z.eqb_neq; tauto).
    reflexivity. }
  exists (with_addrIP (s32 (addrIP s + 1)) x),
         (BFRun.with_ip (u16 (BFRun.ip st + 1)) st).
  split_and!.
  - apply (run_pass s (cell s) x);
      [done | done | done | rewrite Hf; by apply dispatch_other | |]; subst x; fields;
      by rewrite ?Hrun, <- ?Htr.
  - unfold BFRun.loop. rewrite Hrd. cbn [mbind option_bind].
    rewrite (bfrun_dispatch_other prog b st Hnc). cbn [mbind option_bind].
    by rewrite Hb0'.
  - apply (agree_after prog s st x); try done; subst x; fields;
      cbn [BFRun.ip BFRun.mp BFRun.cells BFRun.input BFRun.output
           BFRun.with_ip BFRun.with_mp]; try done.
    rewrite s32_small, u16_small; lia.
Qed.


(** X28. The explorer (in RUN, trace off) and BF-run do the same thing to
    a balanced program.  Started in the same situation, and for as many
    passes as BF-run stays inside its program and its array (and finds a
    byte other than NUL wherever it reads one), the explorer completes
    the same number of passes and the two are again in the same
    situation: the same instruction and data pointers, the same bytes in
    the cells, the same input left, and the same characters printed. *)
Theorem the_two_interpreters_agree
    (prog : list Z) (d n : nat) (s : Explorer) (st : BFRun.State) :
  nested d prog → Z.of_nat d ≤ 65535 → Z.of_nat (length prog) ≤ 65535 →
  agree prog s st →
  (∀ (k : nat) stk, (k < n)%nat → BFRun.loops prog k st = Some stk →
     canStep prog stk) →
  ∃ s' st', loops n s = Some s' ∧ BFRun.loops prog n st = Some st' ∧
            agree prog s' st' ∧ serialOut s' = PChar <$> BFRun.output st'.
Proof.
  intros Hn Hd Hlen. revert s st.
  induction n as [|n IH]; intros s st Hag Hin.
  - exists s, st. split_and!; [done | done | done | apply Hag].
  - destruct (Hin 0%nat st) as (Hip & Hmp & b & Hat & Hb0 & Hcomma); [lia | done |].
    destruct (agree_pass prog d s st b Hn Hd Hlen Hag Hip Hat Hb0 Hmp Hcomma)
      as (s1 & st1 & Hl & Hl' & Hag1).
    destruct (IH s1 st1 Hag1) as (s' & st' & Hls & Hls' & Hag' & Hout).
    { intros k stk Hk Hs. apply (Hin (S k)); [lia|].
      cbn [BFRun.loops]. by rewrite Hl'. }
    exists s', st'. cbn [loops BFRun.loops]. rewrite Hl, Hl'. by split_and!.
Qed.

Lemma the_two_interpreters_agree_witness :
  ∃ s' st',
    loops 7 (explorerOn (bytes "+[-[+]>].") (replicate 500 0) RUN) = Some s' ∧
    BFRun.loops (bytes "+[-[+]>].") 7 BFRun.start = Some st' ∧
    agree (bytes "+[-[+]>].") s' st' ∧ serialOut s' = PChar <$> BFRun.output st'.
Proof.
  assert (Hn : nested 2 (bytes "+[-[+]>].")).
  { apply nested_char; [discriminate | discriminate |].
    apply (nested_loop 1 (bytes "-[+]>") (bytes ".")).
    - apply nested_char; [discriminate | discriminate |].
      apply (nested_loop 0 (bytes "+") (bytes ">"));
        (apply nested_char; [discriminate | discriminate | apply nested_nil]).
    - apply nested_char; [discriminate | discriminate | apply nested_nil]. }
  apply (the_two_interpreters_agree (bytes "+[-[+]>].") 2 7 _ _ Hn).
  - lia.
  - cbn. lia.
  - destruct (explorerOn_memory_wf (bytes "+[-[+]>].") (replicate 500 0) RUN)
      as (Hw & Hf & Hv); [cbn; lia|].
    unfold agree.
    split_and!; try reflexivity.
    + apply (explorerOn_progHolds (bytes "+[-[+]>].") _ _ 0). cbn. lia.
    + exact Hw.
    + rewrite Hf. unfold BFRun.MEM_SIZE. rewrite length_replicate. lia.
    + rewrite Hv. intros a Ha. unfold BFRun.MEM_SIZE in Ha.
      change (BFRun.cells BFRun.start) with (replicate 400 0).
      rewrite !lookup_replicate_2 by lia. reflexivity.
  - intros k stk Hk Hl.
    do 7 (destruct k as [|k];
          [vm_compute in Hl; injection Hl as <-;
           split; [cbn; lia|]; split; [cbn; unfold BFRun.MEM_SIZE; lia|];
           eexists; split; [reflexivity|]; split; [discriminate|];
           intros H; vm_compute in H; discriminate H|]).
    lia.
Defined.

